(** * The repository change-notification engine of [src/git/models/repository.ts]

    A shallow embedding of the [Repository] class: the classifier of watcher
    paths ([onRepositoryChanged]), the two debounced coalescers
    ([fireChange] / [fireChangeCore] and [fireFileSystemChange] /
    [fireFileSystemChangeCore]), the suspend / resume gate, and the guarded
    cores of the delegated operations ([fetchCore], [pullCore], [pushCore],
    [switchCore]) next to the unguarded stash operations.

    Conventions.
    - Mutable fields of the class are fields of the record [Repository]; a
      method is a function [Repository -> Repository] (or into a pair with its
      result).  The event emitters [_onDidChange] and [_onDidChangeFileSystem]
      are modelled by the list of events they have fired so far, oldest first.
    - [Date.now()] is the field [clock], in milliseconds, a natural number [N].
    - [fireFileSystemChangeCore] is run by a timer and awaits an external
      promise, so it is modelled in two halves, before and after its [await];
      the settling of the promise is a step of its own, and the runs that
      await theirs are kept in the repository.  The delegated operations are
      called and awaited by their caller; each is modelled as one step, with
      the outcomes of the promises it awaits given.
    - JavaScript strings are modelled as [string]; only [endsWith] and the two
      regular expressions of the file are used on them. *)

From Stdlib Require Import NArith List String Ascii Bool Lia.
From stdpp Require Import base gmap strings list sorting.

Local Open Scope string_scope.
Local Open Scope list_scope.
Local Open Scope N_scope.

(** ** Strings: [String.prototype.endsWith] and the two regular expressions *)

(** [s.endsWith(suffix)]. *)
Definition endsWith (s suffix : string) : bool :=
  let n := String.length s in
  let k := String.length suffix in
  (k <=? n)%nat && String.eqb (substring (n - k) k s) suffix.

(** One attempt to read the literal [p] at the start of [s]; the rest of [s]
    on success. *)
Fixpoint stripPrefix (p s : string) : option string :=
  match p, s with
  | EmptyString, _ => Some s
  | String a p', String b s' => if Ascii.eqb a b then stripPrefix p' s' else None
  | String _ _, EmptyString => None
  end.

(** The backslash character (code 92). *)
Definition backslash : ascii := ascii_of_nat 92.

(** [/\.git(?:\/|\\|$)/] tried at the start of [s]. *)
Definition ignoreGitRegex_at (s : string) : bool :=
  match stripPrefix ".git" s with
  | Some EmptyString => true
  | Some (String c _) => Ascii.eqb c "/" || Ascii.eqb c backslash
  | None => false
  end.

(** [ignoreGitRegex.test(s)]: the pattern is not anchored, so every start
    position is tried, from the left. *)
Fixpoint ignoreGitRegex_test (s : string) : bool :=
  ignoreGitRegex_at s ||
  match s with
  | EmptyString => false
  | String _ s' => ignoreGitRegex_test s'
  end.

(** [/\.git\/refs\/(heads|remotes|tags)/] tried at the start of [s]; the
    result is the text of capture group 1. *)
Definition refsRegex_at (s : string) : option string :=
  match stripPrefix ".git/refs/" s with
  | Some rest =>
      if String.prefix "heads" rest then Some "heads"
      else if String.prefix "remotes" rest then Some "remotes"
      else if String.prefix "tags" rest then Some "tags"
      else None
  | None => None
  end.

(** [refsRegex.exec(s)], reduced to [match[1]] of the leftmost match ([None]
    when [exec] returns [null]).  The regular expression has no [g] flag, so
    no state is kept between calls. *)
Fixpoint refsRegex_exec (s : string) : option string :=
  match refsRegex_at s with
  | Some g => Some g
  | None =>
      match s with
      | EmptyString => None
      | String _ s' => refsRegex_exec s'
      end
  end.

(** ** Data model *)

Inductive RepositoryChange : Type :=
  | Config | Closed | Starred | Heads | Index | Ignores
  | Remotes | Stash | Tags | Unknown.

#[global] Instance RepositoryChange_eq_dec : EqDecision RepositoryChange.
Proof. solve_decision. Defined.

(** [RepositoryChangeEvent]; the [repository] field of the source is always
    [this] and is left out. *)
Record RepositoryChangeEvent : Type := mkChangeEvent
  { changes : list RepositoryChange }.

(** [changes.includes(reason)]. *)
Definition includes (reason : RepositoryChange) (l : list RepositoryChange) : bool :=
  bool_decide (reason ∈ l).

(** A [vscode.Uri], reduced to the two views the file reads: [uri.path]
    (always with forward slashes) and [uri.fsPath] (with the separators of
    the platform). *)
Module Uri.
Record t : Type := mk { path : string; fsPath : string }.
End Uri.

(** [RepositoryFileSystemChangeEvent], again without [repository]. *)
Record RepositoryFileSystemChangeEvent : Type := mkFsEvent
  { uris : list Uri.t }.

(** A promise that has settled: fulfilled with a value or rejected with an
    exception (its message). *)
Inductive Outcome (A : Type) : Type :=
  | Resolved (a : A)
  | Rejected (ex : string).
Arguments Resolved {A} a.
Arguments Rejected {A} ex.

(** [GitBranch], reduced to what [pullCore] and [pushCore] read. *)
Record GitBranch : Type := mkBranch
  { branch_id : string; branch_name : string; tracking : option string }.

(** [GitReference]: [refType] tells a branch from a tag or a revision. *)
Record GitReference : Type := mkReference
  { isBranch : bool; ref : string; name : string }.

(** Modelled from the spec: [Functions.debounce] of [src/system], which is not
    among the sources.  The spec (section 4.2) describes a classic
    trailing-edge debounce: the wrapped function runs once, [wait] time units
    after the last call of a burst, and each call resets the timer.  A
    debounced function is therefore its window and the deadline of its armed
    timer, if one is armed; the wrapped function is run by [elapse] below
    when the deadline is reached. *)
Record Debounced : Type := mkDebounced { wait : N; timer : option N }.

(** Modelled from the spec: [Functions.debounce(fn, wait)] returns a fresh
    debounced function, no timer armed. *)
Definition debounce (wait : N) : Debounced := mkDebounced wait None.

(** Modelled from the spec: calling the debounced function at time [now]
    (re)arms its timer, one window from [now]. *)
Definition Debounced_call (now : N) (d : Debounced) : Debounced :=
  mkDebounced (wait d) (Some (now + wait d)).

(** Modelled from the spec: is the timer of [d] armed and due at time [now]? *)
Definition Debounced_due (now : N) (d : Debounced) : bool :=
  match timer d with
  | Some deadline => deadline <=? now
  | None => false
  end.

(** Modelled from the spec: the timer has fired and is no longer armed. *)
Definition Debounced_fired (d : Debounced) : Debounced := mkDebounced (wait d) None.

(** ** The repository object *)

(** The fields of the class that the modelled methods read or write, with the
    clock and the two global sinks the methods write to ([Logger.error] and
    [Messages.showGenericErrorMessage]), each as the list of what it received.
    [onAnyRepositoryChanged] is the callback given to the constructor,
    modelled by the list of events it was called with.  [_branch] caches the
    promise returned by [Container.git.getBranch].
    [excludeIgnoredUris_calls] holds the runs of [fireFileSystemChangeCore]
    that have reached their [await], oldest first: the event each run took
    from the accumulator and gave to [Container.git.excludeIgnoredUris], and
    whether the awaited promise has settled. *)
Record Repository : Type := mkRepository
  { clock : N;
    path : string;
    supportsChangeEvents : bool;
    _branch : option (Outcome (option GitBranch));
    _remotes : option (list string);
    _remotesDisposable : option unit;
    _lastFetched : option N;
    _fireChangeDebounced : option Debounced;
    _fireFileSystemChangeDebounced : option Debounced;
    _pendingFileSystemChange : option RepositoryFileSystemChangeEvent;
    _pendingRepoChange : option RepositoryChangeEvent;
    _suspended : bool;
    _updatedAt : N;
    _onDidChange : list RepositoryChangeEvent;
    _onDidChangeFileSystem : list RepositoryFileSystemChangeEvent;
    onAnyRepositoryChanged : list RepositoryChangeEvent;
    Logger_errors : list string;
    Messages_shown : list string;
    excludeIgnoredUris_calls : list (RepositoryFileSystemChangeEvent * bool) }.

Definition set_clock (v : N) (r : Repository) : Repository :=
  mkRepository v (path r) (supportsChangeEvents r) (_branch r) (_remotes r)
    (_remotesDisposable r) (_lastFetched r) (_fireChangeDebounced r)
    (_fireFileSystemChangeDebounced r) (_pendingFileSystemChange r)
    (_pendingRepoChange r) (_suspended r) (_updatedAt r) (_onDidChange r)
    (_onDidChangeFileSystem r) (onAnyRepositoryChanged r) (Logger_errors r)
    (Messages_shown r)
    (excludeIgnoredUris_calls r).

Definition set_branch (v : option (Outcome (option GitBranch))) (r : Repository) : Repository :=
  mkRepository (clock r) (path r) (supportsChangeEvents r) v (_remotes r)
    (_remotesDisposable r) (_lastFetched r) (_fireChangeDebounced r)
    (_fireFileSystemChangeDebounced r) (_pendingFileSystemChange r)
    (_pendingRepoChange r) (_suspended r) (_updatedAt r) (_onDidChange r)
    (_onDidChangeFileSystem r) (onAnyRepositoryChanged r) (Logger_errors r)
    (Messages_shown r)
    (excludeIgnoredUris_calls r).

Definition set_remotes (v : option (list string)) (r : Repository) : Repository :=
  mkRepository (clock r) (path r) (supportsChangeEvents r) (_branch r) v
    (_remotesDisposable r) (_lastFetched r) (_fireChangeDebounced r)
    (_fireFileSystemChangeDebounced r) (_pendingFileSystemChange r)
    (_pendingRepoChange r) (_suspended r) (_updatedAt r) (_onDidChange r)
    (_onDidChangeFileSystem r) (onAnyRepositoryChanged r) (Logger_errors r)
    (Messages_shown r)
    (excludeIgnoredUris_calls r).

Definition set_remotesDisposable (v : option unit) (r : Repository) : Repository :=
  mkRepository (clock r) (path r) (supportsChangeEvents r) (_branch r) (_remotes r) v
    (_lastFetched r) (_fireChangeDebounced r) (_fireFileSystemChangeDebounced r)
    (_pendingFileSystemChange r) (_pendingRepoChange r) (_suspended r) (_updatedAt r)
    (_onDidChange r) (_onDidChangeFileSystem r) (onAnyRepositoryChanged r)
    (Logger_errors r) (Messages_shown r)
    (excludeIgnoredUris_calls r).

Definition set_lastFetched (v : option N) (r : Repository) : Repository :=
  mkRepository (clock r) (path r) (supportsChangeEvents r) (_branch r) (_remotes r)
    (_remotesDisposable r) v (_fireChangeDebounced r)
    (_fireFileSystemChangeDebounced r) (_pendingFileSystemChange r)
    (_pendingRepoChange r) (_suspended r) (_updatedAt r) (_onDidChange r)
    (_onDidChangeFileSystem r) (onAnyRepositoryChanged r) (Logger_errors r)
    (Messages_shown r)
    (excludeIgnoredUris_calls r).

Definition set_fireChangeDebounced (v : option Debounced) (r : Repository) : Repository :=
  mkRepository (clock r) (path r) (supportsChangeEvents r) (_branch r) (_remotes r)
    (_remotesDisposable r) (_lastFetched r) v (_fireFileSystemChangeDebounced r)
    (_pendingFileSystemChange r) (_pendingRepoChange r) (_suspended r) (_updatedAt r)
    (_onDidChange r) (_onDidChangeFileSystem r) (onAnyRepositoryChanged r)
    (Logger_errors r) (Messages_shown r)
    (excludeIgnoredUris_calls r).

Definition set_fireFileSystemChangeDebounced (v : option Debounced) (r : Repository) : Repository :=
  mkRepository (clock r) (path r) (supportsChangeEvents r) (_branch r) (_remotes r)
    (_remotesDisposable r) (_lastFetched r) (_fireChangeDebounced r) v
    (_pendingFileSystemChange r) (_pendingRepoChange r) (_suspended r) (_updatedAt r)
    (_onDidChange r) (_onDidChangeFileSystem r) (onAnyRepositoryChanged r)
    (Logger_errors r) (Messages_shown r)
    (excludeIgnoredUris_calls r).

Definition set_pendingFileSystemChange (v : option RepositoryFileSystemChangeEvent) (r : Repository) : Repository :=
  mkRepository (clock r) (path r) (supportsChangeEvents r) (_branch r) (_remotes r)
    (_remotesDisposable r) (_lastFetched r) (_fireChangeDebounced r)
    (_fireFileSystemChangeDebounced r) v (_pendingRepoChange r) (_suspended r)
    (_updatedAt r) (_onDidChange r) (_onDidChangeFileSystem r)
    (onAnyRepositoryChanged r) (Logger_errors r) (Messages_shown r)
    (excludeIgnoredUris_calls r).

Definition set_pendingRepoChange (v : option RepositoryChangeEvent) (r : Repository) : Repository :=
  mkRepository (clock r) (path r) (supportsChangeEvents r) (_branch r) (_remotes r)
    (_remotesDisposable r) (_lastFetched r) (_fireChangeDebounced r)
    (_fireFileSystemChangeDebounced r) (_pendingFileSystemChange r) v (_suspended r)
    (_updatedAt r) (_onDidChange r) (_onDidChangeFileSystem r)
    (onAnyRepositoryChanged r) (Logger_errors r) (Messages_shown r)
    (excludeIgnoredUris_calls r).

Definition set_suspended (v : bool) (r : Repository) : Repository :=
  mkRepository (clock r) (path r) (supportsChangeEvents r) (_branch r) (_remotes r)
    (_remotesDisposable r) (_lastFetched r) (_fireChangeDebounced r)
    (_fireFileSystemChangeDebounced r) (_pendingFileSystemChange r)
    (_pendingRepoChange r) v (_updatedAt r) (_onDidChange r) (_onDidChangeFileSystem r)
    (onAnyRepositoryChanged r) (Logger_errors r) (Messages_shown r)
    (excludeIgnoredUris_calls r).

Definition set_updatedAt (v : N) (r : Repository) : Repository :=
  mkRepository (clock r) (path r) (supportsChangeEvents r) (_branch r) (_remotes r)
    (_remotesDisposable r) (_lastFetched r) (_fireChangeDebounced r)
    (_fireFileSystemChangeDebounced r) (_pendingFileSystemChange r)
    (_pendingRepoChange r) (_suspended r) v (_onDidChange r) (_onDidChangeFileSystem r)
    (onAnyRepositoryChanged r) (Logger_errors r) (Messages_shown r)
    (excludeIgnoredUris_calls r).

Definition set_onDidChange (v : list RepositoryChangeEvent) (r : Repository) : Repository :=
  mkRepository (clock r) (path r) (supportsChangeEvents r) (_branch r) (_remotes r)
    (_remotesDisposable r) (_lastFetched r) (_fireChangeDebounced r)
    (_fireFileSystemChangeDebounced r) (_pendingFileSystemChange r)
    (_pendingRepoChange r) (_suspended r) (_updatedAt r) v (_onDidChangeFileSystem r)
    (onAnyRepositoryChanged r) (Logger_errors r) (Messages_shown r)
    (excludeIgnoredUris_calls r).

Definition set_onDidChangeFileSystem (v : list RepositoryFileSystemChangeEvent) (r : Repository) : Repository :=
  mkRepository (clock r) (path r) (supportsChangeEvents r) (_branch r) (_remotes r)
    (_remotesDisposable r) (_lastFetched r) (_fireChangeDebounced r)
    (_fireFileSystemChangeDebounced r) (_pendingFileSystemChange r)
    (_pendingRepoChange r) (_suspended r) (_updatedAt r) (_onDidChange r) v
    (onAnyRepositoryChanged r) (Logger_errors r) (Messages_shown r)
    (excludeIgnoredUris_calls r).

Definition set_onAnyRepositoryChanged (v : list RepositoryChangeEvent) (r : Repository) : Repository :=
  mkRepository (clock r) (path r) (supportsChangeEvents r) (_branch r) (_remotes r)
    (_remotesDisposable r) (_lastFetched r) (_fireChangeDebounced r)
    (_fireFileSystemChangeDebounced r) (_pendingFileSystemChange r)
    (_pendingRepoChange r) (_suspended r) (_updatedAt r) (_onDidChange r)
    (_onDidChangeFileSystem r) v (Logger_errors r) (Messages_shown r)
    (excludeIgnoredUris_calls r).

Definition set_Logger_errors (v : list string) (r : Repository) : Repository :=
  mkRepository (clock r) (path r) (supportsChangeEvents r) (_branch r) (_remotes r)
    (_remotesDisposable r) (_lastFetched r) (_fireChangeDebounced r)
    (_fireFileSystemChangeDebounced r) (_pendingFileSystemChange r)
    (_pendingRepoChange r) (_suspended r) (_updatedAt r) (_onDidChange r)
    (_onDidChangeFileSystem r) (onAnyRepositoryChanged r) v (Messages_shown r)
    (excludeIgnoredUris_calls r).

Definition set_Messages_shown (v : list string) (r : Repository) : Repository :=
  mkRepository (clock r) (path r) (supportsChangeEvents r) (_branch r) (_remotes r)
    (_remotesDisposable r) (_lastFetched r) (_fireChangeDebounced r)
    (_fireFileSystemChangeDebounced r) (_pendingFileSystemChange r)
    (_pendingRepoChange r) (_suspended r) (_updatedAt r) (_onDidChange r)
    (_onDidChangeFileSystem r) (onAnyRepositoryChanged r) (Logger_errors r) v
    (excludeIgnoredUris_calls r).

Definition set_excludeIgnoredUris_calls (v : list (RepositoryFileSystemChangeEvent * bool))
    (r : Repository) : Repository :=
  mkRepository (clock r) (path r) (supportsChangeEvents r) (_branch r) (_remotes r)
    (_remotesDisposable r) (_lastFetched r) (_fireChangeDebounced r)
    (_fireFileSystemChangeDebounced r) (_pendingFileSystemChange r)
    (_pendingRepoChange r) (_suspended r) (_updatedAt r) (_onDidChange r)
    (_onDidChangeFileSystem r) (onAnyRepositoryChanged r) (Logger_errors r)
    (Messages_shown r) v.

(** [new Repository(folder, path, root, onAnyRepositoryChanged, suspended)] at
    time [now]: nothing cached, nothing pending, no debounced function
    created yet, nothing published, no call awaited. *)
Definition new_Repository (now : N) (p : string) (supports suspended : bool) : Repository :=
  mkRepository now p supports None None None None None None None None suspended 0
    [] [] [] [] [] [].

(** ** The reentrancy gate *)

(** Modelled from the spec: the [gate] decorator of [src/system], which is not
    among the sources.  The spec (sections 4.4 and 9) describes it as an
    explicit per-key mapping from the derived key of a call to the pending
    result of the invocation in flight, consulted before new work is started
    and cleared on completion; a call whose key is in flight starts nothing
    and gets the pending result.  A pending result is a promise, identified
    by a number; [started] lists the invocations of the wrapped method that
    were really started, oldest first. *)
Module Gate.

(** Modelled from the spec: the state of one gated method. *)
Record t : Type := mk
  { inflight : gmap string nat;
    started : list (string * nat);
    fresh : nat }.

(** Modelled from the spec: nothing in flight, nothing started yet. *)
Definition empty : t := mk ∅ [] 0%nat.

(** Modelled from the spec: a call of the gated method with derived key
    [key]; the promise the caller receives, and the gate afterwards. *)
Definition call (key : string) (g : t) : nat * t :=
  match inflight g !! key with
  | Some p => (p, g)
  | None =>
      let p := fresh g in
      (p, mk (<[key := p]> (inflight g)) (started g ++ [(key, p)]) (S p))
  end.

(** Modelled from the spec: the invocation for [key] has completed, and the
    key is cleared. *)
Definition settle (key : string) (g : t) : t :=
  mk (delete key (inflight g)) (started g) (fresh g).

(** What can happen to a gate between two calls. *)
Inductive op : Type :=
  | Call (key : string)
  | Settle (key : string).

Definition step (g : t) (o : op) : t :=
  match o with
  | Call key => snd (call key g)
  | Settle key => settle key g
  end.

Definition run (ops : list op) (g : t) : t := fold_left step ops g.

(** The invocations for [key] started since the gate had [n] of them. *)
Definition startedSince (n : nat) (key : string) (g : t) : list (string * nat) :=
  filter (fun e => fst e = key) (drop n (started g)).

End Gate.

(** ** Methods of the repository *)

Section Methods.

(** [Container.git.excludeIgnoredUris(repoPath, uris)], an external
    collaborator: the URIs of the list that git does not ignore. *)
Variable excludeIgnoredUris : string -> list Uri.t -> list Uri.t.

Definition resetRemotesCache (r : Repository) : Repository :=
  set_remotesDisposable None (set_remotes None r).

(** [this._fireChangeDebounced()].  The source calls it only where the
    debounced function exists ([resume] asserts so with [!]); lemma
    [pending_has_debounced] shows the other case is never reached. *)
Definition call_fireChangeDebounced (r : Repository) : Repository :=
  match _fireChangeDebounced r with
  | Some d => set_fireChangeDebounced (Some (Debounced_call (clock r) d)) r
  | None => r
  end.

Definition call_fireFileSystemChangeDebounced (r : Repository) : Repository :=
  match _fireFileSystemChangeDebounced r with
  | Some d => set_fireFileSystemChangeDebounced (Some (Debounced_call (clock r) d)) r
  | None => r
  end.

(** One round of the loop of [fireChange]:
    [if (!e.changes.includes(reason)) e.changes.push(reason)]. *)
Definition pushChange (acc : list RepositoryChange) (reason : RepositoryChange)
  : list RepositoryChange :=
  if includes reason acc then acc else acc ++ [reason].

(** The whole loop, on the pending event [e]. *)
Definition pushChanges (e : RepositoryChangeEvent) (reasons : list RepositoryChange)
  : RepositoryChangeEvent :=
  mkChangeEvent (fold_left pushChange reasons (changes e)).

Definition fireChange (changes : list RepositoryChange) (r : Repository) : Repository :=
  let r := set_updatedAt (clock r) r in
  let r :=
    match _fireChangeDebounced r with
    | None => set_fireChangeDebounced (Some (debounce 250)) r
    | Some _ => r
    end in
  let e :=
    match _pendingRepoChange r with
    | None => mkChangeEvent []
    | Some e => e
    end in
  let e := pushChanges e changes in
  let r := set_pendingRepoChange (Some e) r in
  let r := set_onAnyRepositoryChanged
             (onAnyRepositoryChanged r ++ [mkChangeEvent changes]) r in
  if _suspended r then r else call_fireChangeDebounced r.

Definition fireChangeCore (r : Repository) : Repository :=
  match _pendingRepoChange r with
  | None => r
  | Some e =>
      let r := set_pendingRepoChange None r in
      set_onDidChange (_onDidChange r ++ [e]) r
  end.

Definition fireFileSystemChange (uri : Uri.t) (r : Repository) : Repository :=
  let r := set_updatedAt (clock r) r in
  let r :=
    match _fireFileSystemChangeDebounced r with
    | None => set_fireFileSystemChangeDebounced (Some (debounce 2500)) r
    | Some _ => r
    end in
  let e :=
    match _pendingFileSystemChange r with
    | None => mkFsEvent []
    | Some e => e
    end in
  let e := mkFsEvent (uris e ++ [uri]) in
  let r := set_pendingFileSystemChange (Some e) r in
  if _suspended r then r else call_fireFileSystemChangeDebounced r.

(** [fireFileSystemChangeCore()] up to its [await]: with nothing pending it
    returns at once; otherwise it takes the pending event [e], clears the
    accumulator and calls [Container.git.excludeIgnoredUris(this.path, e.uris)].
    There the method is suspended: it goes on only when that promise settles,
    and other methods of the class can run meanwhile. *)
Definition fireFileSystemChangeCore (r : Repository) : Repository :=
  match _pendingFileSystemChange r with
  | None => r
  | Some e =>
      let r := set_pendingFileSystemChange None r in
      set_excludeIgnoredUris_calls (excludeIgnoredUris_calls r ++ [(e, false)]) r
  end.

(** [fireFileSystemChangeCore()] after its [await], in the run that took the
    event [e], when the promise is fulfilled with [kept]. *)
Definition fireFileSystemChangeCore_resumed (e : RepositoryFileSystemChangeEvent)
    (kept : list Uri.t) (r : Repository) : Repository :=
  if (length kept =? 0)%nat then r
  else
    let e := if negb (length kept =? length (uris e))%nat then mkFsEvent kept else e in
    set_onDidChangeFileSystem (_onDidChangeFileSystem r ++ [e]) r.

(** The promise awaited by run number [call] of [fireFileSystemChangeCore]
    settles.  If it is fulfilled, it is with what git keeps of the URIs it
    was given, and the run goes on; if it is rejected, the run ends there with
    nothing fired (the debounce utility drops the promise of the run).  A
    promise settles once: for a run that does not exist or whose promise has
    settled, nothing happens. *)
Definition excludeIgnoredUris_settled (call : nat) (fulfilled : bool) (r : Repository)
  : Repository :=
  match excludeIgnoredUris_calls r !! call with
  | Some (e, false) =>
      let r := set_excludeIgnoredUris_calls
                 (<[call := (e, true)]> (excludeIgnoredUris_calls r)) r in
      if fulfilled
      then fireFileSystemChangeCore_resumed e (excludeIgnoredUris (path r) (uris e)) r
      else r
  | _ => r
  end.

Definition onFileSystemChanged (uri : Uri.t) (r : Repository) : Repository :=
  if ignoreGitRegex_test (Uri.fsPath uri) then r
  else fireFileSystemChange uri r.

Definition onRepositoryChanged (uri : option Uri.t) (r : Repository) : Repository :=
  let r := set_lastFetched None r in
  match uri with
  | None => fireChange [Unknown] r
  | Some uri =>
      let p := Uri.path uri in
      if endsWith p ".git/config" then
        fireChange [Config; Remotes] (resetRemotesCache (set_branch None r))
      else if endsWith p ".git/index" then
        fireChange [Index] r
      else if endsWith p ".git/HEAD" || endsWith p ".git/ORIG_HEAD" then
        fireChange [Heads] (set_branch None r)
      else if endsWith p ".git/refs/stash" then
        fireChange [Stash] r
      else if endsWith p "/.gitignore" then
        fireChange [Ignores] r
      else
        match refsRegex_exec p with
        | Some g =>
            if String.eqb g "heads" then
              fireChange [Heads] (set_branch None r)
            else if String.eqb g "remotes" then
              fireChange [Remotes] (resetRemotesCache (set_branch None r))
            else if String.eqb g "tags" then
              fireChange [Tags] r
            else fireChange [Unknown] r
        | None => fireChange [Unknown] r
        end
  end.

Definition suspend (r : Repository) : Repository := set_suspended true r.

Definition resume (r : Repository) : Repository :=
  if negb (_suspended r) then r
  else
    let r := set_suspended false r in
    let r :=
      match _pendingRepoChange r with
      | Some _ => call_fireChangeDebounced r
      | None => r
      end in
    match _pendingFileSystemChange r with
    | Some _ => call_fireFileSystemChangeDebounced r
    | None => r
    end.

(** *** Time *)

(** Modelled from the spec: what the timer of [Functions.debounce] does.  The
    timer of [_fireChangeDebounced] fires if it is due, and the debounce
    utility then runs the wrapped [fireChangeCore]; likewise for
    [_fireFileSystemChangeDebounced] and [fireFileSystemChangeCore], which
    runs up to its [await]. *)
Definition runChangeTimer (r : Repository) : Repository :=
  match _fireChangeDebounced r with
  | Some d =>
      if Debounced_due (clock r) d
      then fireChangeCore (set_fireChangeDebounced (Some (Debounced_fired d)) r)
      else r
  | None => r
  end.

(** Modelled from the spec: the same for the filesystem timer. *)
Definition runFileSystemTimer (r : Repository) : Repository :=
  match _fireFileSystemChangeDebounced r with
  | Some d =>
      if Debounced_due (clock r) d
      then fireFileSystemChangeCore
             (set_fireFileSystemChangeDebounced (Some (Debounced_fired d)) r)
      else r
  | None => r
  end.

(** Modelled from the spec: [dt] time units pass with no call into the
    repository, and the timers that come due meanwhile fire.  Neither wrapped
    function arms a timer, and the two channels share no state, so the order
    of the two is immaterial. *)
Definition elapse (dt : N) (r : Repository) : Repository :=
  runFileSystemTimer (runChangeTimer (set_clock (clock r + dt) r)).

(** *** Executions *)

(** What can happen to a repository: a notification of one of its two
    watchers, a call of [fireChange] by another method of the class or by a
    subscription of the class, [suspend], [resume], the passing of time, and
    the settling of a promise that a run of [fireFileSystemChangeCore]
    awaits. *)
Inductive Action : Type :=
  | RepositoryChanged (uri : option Uri.t)
  | FileSystemChanged (uri : Uri.t)
  | FireChange (changes : list RepositoryChange)
  | Suspend
  | Resume
  | Elapse (dt : N)
  | ExcludeIgnoredUrisSettled (call : nat) (fulfilled : bool).

Definition step (r : Repository) (a : Action) : Repository :=
  match a with
  | RepositoryChanged uri => onRepositoryChanged uri r
  | FileSystemChanged uri => onFileSystemChanged uri r
  | FireChange changes => fireChange changes r
  | Suspend => suspend r
  | Resume => resume r
  | Elapse dt => elapse dt r
  | ExcludeIgnoredUrisSettled call fulfilled => excludeIgnoredUris_settled call fulfilled r
  end.

Definition run (trace : list Action) (r : Repository) : Repository :=
  fold_left step trace r.


(** The debounced functions that exist were created with the windows of the
    source. *)
Definition windows_ok (r : Repository) : bool :=
  match _fireChangeDebounced r with
  | Some d => wait d =? 250
  | None => true
  end &&
  match _fireFileSystemChangeDebounced r with
  | Some d => wait d =? 2500
  | None => true
  end.

(** *** Delegated operations *)

(** An [async] method: it runs on the repository and settles.  The awaited
    external calls are taken as already settled, with the outcomes given by
    [Delegates] below, so one method runs in one step. *)
Definition Async (A : Type) : Type := Repository -> Outcome A * Repository.

Definition ret {A : Type} (a : A) : Async A := fun r => (Resolved a, r).

Definition bind {A B : Type} (c : Async A) (k : A -> Async B) : Async B :=
  fun r =>
    match c r with
    | (Resolved a, r') => k a r'
    | (Rejected ex, r') => (Rejected ex, r')
    end.

Notation "x <~ c ;; k" := (bind c (fun x => k))
  (at level 100, c at next level, right associativity).

(** [await p] for an external promise [p]. *)
Definition await {A : Type} (p : Outcome A) : Async A := fun r => (p, r).

(** A synchronous call of a method of the class. *)
Definition exec (f : Repository -> Repository) : Async unit :=
  fun r => (Resolved tt, f r).

(** [try { body } catch (ex) { handler(ex) }]. *)
Definition try_catch (body : Async unit) (handler : string -> Repository -> Repository)
  : Async unit :=
  fun r =>
    match body r with
    | (Resolved _, r') => (Resolved tt, r')
    | (Rejected ex, r') => (Resolved tt, handler ex r')
    end.

(** [window.withProgress(options, task)], a host API: it shows a notification
    while [task] runs and settles as [task] does. *)
Definition withProgress {A : Type} (task : Async A) : Async A := task.

Definition Logger_error (ex : string) (r : Repository) : Repository :=
  set_Logger_errors (Logger_errors r ++ [ex]) r.

Definition showGenericErrorMessage (message : string) (r : Repository) : Repository :=
  set_Messages_shown (Messages_shown r ++ [message]) r.

(** How the external collaborators answer during one operation. *)
Record Delegates : Type := mkDelegates
  { git_fetch : Outcome unit;
    git_checkout : Outcome unit;
    git_getBranch : Outcome (option GitBranch);
    git_getBranches : string -> Outcome (list GitBranch);
    git_stashApply : Outcome unit;
    git_stashDelete : Outcome unit;
    git_stashSave : Outcome unit;
    getBuiltInGitRepository : Outcome (option unit);
    builtIn_push : Outcome unit;
    executeCommand : string -> Outcome unit;
    fetchOnPull : bool }.

Section Operations.

Variable D : Delegates.

(** [getBranch()] without a name: the cached promise, or a new one that is
    cached at once. *)
Definition getCurrentBranch : Async (option GitBranch) :=
  fun r =>
    let r :=
      match _branch r with
      | Some _ =>
          if negb (supportsChangeEvents r) then set_branch (Some (git_getBranch D)) r
          else r
      | None => set_branch (Some (git_getBranch D)) r
      end in
    match _branch r with
    | Some p => (p, r)
    | None => (git_getBranch D, r)
    end.

(** [getBranch(name)]: [if (name)] holds for a non-empty string. *)
Definition getBranch (name : string) : Async (option GitBranch) :=
  if negb (String.eqb name "") then
    branches <~ await (git_getBranches D name) ;;
    ret (head branches)
  else getCurrentBranch.

Definition hasTrackingBranch : Async bool :=
  branch <~ getCurrentBranch ;;
  ret match branch with
      | Some b => bool_decide (tracking b <> None)
      | None => false
      end.




(** The [try] block of [pullCore]. *)
Definition pullSteps (rebase : bool) : Async unit :=
  tracking <~ hasTrackingBranch ;;
  _ <~ (if tracking then
          await (executeCommand D (if rebase then "git.pullRebase" else "git.pull"))
        else if fetchOnPull D then await (git_fetch D)
        else ret tt) ;;
  exec (fireChange [Unknown]).

Definition pullCore (rebase : bool) : Async unit :=
  try_catch (pullSteps rebase)
    (fun ex r => showGenericErrorMessage "Unable to pull repository" (Logger_error ex r)).

(** [pull(options)]: without progress the source calls [pullCore()] with no
    options, so [rebase] is dropped there. *)
Definition pull (progress : option bool) (rebase : bool) : Async unit :=
  if negb (default true progress) then pullCore false
  else withProgress (pullCore rebase).

Record PushOptions : Type := mkPushOptions
  { force : bool; reference : option GitReference; publish : option string }.

(** The [if] cascade of [pushCore]: the result is [false] where the source
    leaves the method with a bare [return], [true] where control reaches the
    [fireChange] after the cascade. *)
Definition pushSteps (options : PushOptions) : Async bool :=
  let pushCommand := if force options then "git.pushForce" else "git.push" in
  match reference options with
  | Some rf =>
      if isBranch rf then
        repo <~ await (getBuiltInGitRepository D) ;;
        match repo with
        | None => ret false
        | Some _ =>
            match publish options with
            | Some _ => _ <~ await (builtIn_push D) ;; ret true
            | None =>
                branch <~ getBranch (name rf) ;;
                match branch with
                | None => ret false
                | Some b =>
                    currentBranch <~ getCurrentBranch ;;
                    if match currentBranch with
                       | Some c => String.eqb (branch_id b) (branch_id c)
                       | None => false
                       end
                    then _ <~ await (executeCommand D pushCommand) ;; ret true
                    else _ <~ await (builtIn_push D) ;; ret true
                end
            end
        end
      else
        repo <~ await (getBuiltInGitRepository D) ;;
        match repo with
        | None => ret false
        | Some _ =>
            branch <~ getCurrentBranch ;;
            match branch with
            | None => ret false
            | Some _ => _ <~ await (builtIn_push D) ;; ret true
            end
        end
  | None => _ <~ await (executeCommand D pushCommand) ;; ret true
  end.

(** The [try] block of [pushCore]. *)
Definition pushBody (options : PushOptions) : Async unit :=
  continue <~ pushSteps options ;;
  if continue then exec (fireChange [Unknown]) else ret tt.

Definition pushCore (options : PushOptions) : Async unit :=
  try_catch (pushBody options)
    (fun ex r => showGenericErrorMessage "Unable to push repository" (Logger_error ex r)).

Definition push (progress : option bool) (options : PushOptions) : Async unit :=
  if negb (default true progress) then pushCore options
  else withProgress (pushCore options).






End Operations.

(** ** Statement vocabulary *)

(** The changes of the pending event, none when there is no pending event. *)
Definition pendingChanges (r : Repository) : list RepositoryChange :=
  match _pendingRepoChange r with
  | Some e => changes e
  | None => []
  end.

(** Does [p] match one of the exact-file rules that [onRepositoryChanged]
    tries before the refs pattern? *)
Definition exactFileRule (p : string) : bool :=
  endsWith p ".git/config" || endsWith p ".git/index" ||
  endsWith p ".git/HEAD" || endsWith p ".git/ORIG_HEAD" ||
  endsWith p ".git/refs/stash" || endsWith p "/.gitignore".

(** [p] names the [.git] directory or something below it: it has [.git]
    followed by a separator or by the end of the path. *)
Definition insideDotGit (p : string) : Prop :=
  exists pre rest : string,
    p = (pre ++ ".git" ++ rest)%string /\
    (rest = "" \/ exists c rest', rest = String c rest' /\ (c = "/"%char \/ c = backslash)).

(** A URI that [onFileSystemChanged] lets through. *)
Definition notIgnored (u : Uri.t) : Prop := ignoreGitRegex_test (Uri.fsPath u) = false.

(** The deadline of the armed timer of a debounced function, if any. *)
Definition deadline (d : option Debounced) : option N :=
  match d with
  | Some d => timer d
  | None => None
  end.

(** The URIs of the pending filesystem event, none when there is none. *)
Definition pendingUris (r : Repository) : list Uri.t :=
  match _pendingFileSystemChange r with
  | Some e => uris e
  | None => []
  end.

(** The filesystem event that [fireFileSystemChangeCore] fires for the
    accumulated [us] once [excludeIgnoredUris] is fulfilled: none when git
    ignores them all. *)
Definition fsFlushed (p : string) (us : list Uri.t) : list RepositoryFileSystemChangeEvent :=
  let kept := excludeIgnoredUris p us in
  if (length kept =? 0)%nat then []
  else if negb (length kept =? length us)%nat then [mkFsEvent kept]
  else [mkFsEvent us].

(** *** One channel at a time

    The two coalescers do not share state: each has its debounced function,
    its accumulator and what its wrapped function puts out, and both read the
    clock and the suspend flag.  [fireChangeCore] puts out the events it
    fires on [_onDidChange]; [fireFileSystemChangeCore] puts out the calls of
    [excludeIgnoredUris] it awaits.  A channel is that part of the
    repository; the functions below are what the methods do to one channel,
    and the lemmas [*_channel] further down show that the methods act on each
    channel exactly in this way. *)
Definition Channel (E O : Type) : Type :=
  (N * bool * option Debounced * option E * list O)%type.

Definition changeChannel (r : Repository)
  : Channel RepositoryChangeEvent RepositoryChangeEvent :=
  (clock r, _suspended r, _fireChangeDebounced r, _pendingRepoChange r, _onDidChange r).

Definition fileSystemChannel (r : Repository)
  : Channel RepositoryFileSystemChangeEvent (RepositoryFileSystemChangeEvent * bool) :=
  (clock r, _suspended r, _fireFileSystemChangeDebounced r,
   _pendingFileSystemChange r, excludeIgnoredUris_calls r).

(** What the wrapped function of the channel has put out so far. *)
Definition published {E O : Type} (ch : Channel E O) : list O := snd ch.

(** A call of the recording method, with window [w]; [merge] gives the new
    accumulator from the old one. *)
Definition channel_record {E O : Type} (w : N) (merge : option E -> E) (ch : Channel E O)
  : Channel E O :=
  let '(now, suspended, d, pending, out) := ch in
  let d0 := default (debounce w) d in
  (now, suspended, Some (if suspended then d0 else Debounced_call now d0),
   Some (merge pending), out).

(** [dt] time units pass; [flush] gives what the wrapped function puts out
    for a pending event. *)
Definition channel_elapse {E O : Type} (flush : E -> list O) (dt : N) (ch : Channel E O)
  : Channel E O :=
  let '(now, suspended, d, pending, out) := ch in
  let fired :=
    match d with
    | Some d0 => Debounced_due (now + dt) d0
    | None => false
    end in
  if fired
  then (now + dt, suspended, Debounced_fired <$> d, None,
        out ++ match pending with Some e => flush e | None => [] end)
  else (now + dt, suspended, d, pending, out).

Definition channel_suspend {E O : Type} (ch : Channel E O) : Channel E O :=
  let '(now, _, d, pending, out) := ch in (now, true, d, pending, out).

Definition channel_resume {E O : Type} (ch : Channel E O) : Channel E O :=
  let '(now, suspended, d, pending, out) := ch in
  if negb suspended then ch
  else (now, false,
        match pending with
        | Some _ => Debounced_call now <$> d
        | None => d
        end, pending, out).

(** The accumulators after a call, from the accumulators before. *)
Definition mergeChanges (cs : list RepositoryChange) (pending : option RepositoryChangeEvent)
  : RepositoryChangeEvent :=
  pushChanges (default (mkChangeEvent []) pending) cs.

Definition mergeUri (u : Uri.t) (pending : option RepositoryFileSystemChangeEvent)
  : RepositoryFileSystemChangeEvent :=
  mkFsEvent (uris (default (mkFsEvent []) pending) ++ [u]).

(** Calls of [fireChange] spread over time: each call comes with the time
    that passes before it. *)
Definition fireChangesAt (calls : list (N * list RepositoryChange)) (r : Repository)
  : Repository :=
  fold_left (fun r call => fireChange (snd call) (elapse (fst call) r)) calls r.

(** A repository just created at time 0, visible (not suspended), in a
    workspace folder. *)
Definition fresh_repository : Repository := new_Repository 0 "/repo" true false.

(** The state of a channel is consistent: a pending event has its debounced
    function, the debounced function has the window [w], and an armed timer
    has a pending event to publish. *)
Definition channel_ok {E O : Type} (w : N) (ch : Channel E O) : Prop :=
  let '(_, _, d, pending, _) := ch in
  (is_Some pending -> is_Some d) /\
  (forall d0, d = Some d0 -> wait d0 = w) /\
  (is_Some (deadline d) -> is_Some pending).

(** No URI of the channel, pending or given to [excludeIgnoredUris], is one
    that [onFileSystemChanged] drops. *)
Definition channel_clean
    (ch : Channel RepositoryFileSystemChangeEvent (RepositoryFileSystemChangeEvent * bool))
  : Prop :=
  let '(_, _, _, pending, out) := ch in
  (forall e, pending = Some e -> Forall notIgnored (uris e)) /\
  Forall (fun c => Forall notIgnored (uris (fst c))) out.




(** Delegates that all fail. *)
Definition failing_delegates : Delegates :=
  mkDelegates (Rejected "fetch failed") (Rejected "checkout failed")
    (Rejected "getBranch failed") (fun _ => Rejected "getBranches failed")
    (Rejected "stash apply failed") (Rejected "stash drop failed")
    (Rejected "stash push failed") (Rejected "no built-in git")
    (Rejected "push failed") (fun _ => Rejected "command failed") false.

(** ** More of the class *)

(** *** [RepositoryChangeEvent.changed] *)

(** [e.changed(change, only)].  [supports] is
    [this.repository?.supportsChangeEvents]: [None] for an event without a
    repository, which the event record above leaves out. *)
Definition changed (supports : option bool) (e : RepositoryChangeEvent)
    (change : RepositoryChange) (only : bool) : bool :=
  if only then
    if negb (length (changes e) =? 1)%nat then false
    else if bool_decide (changes e !! 0%nat = Some change) then true
    else if bool_decide (supports = Some false)
            && bool_decide (changes e !! 0%nat = Some Unknown) then
      match change with
      | Closed | Starred => false
      | _ => true
      end
    else false
  else
    if includes change (changes e) then true
    else if bool_decide (supports = Some false) && includes Unknown (changes e) then
      match change with
      | Closed | Ignores | Starred => false
      | _ => true
      end
    else false.

(** *** [getLastFetched] *)

(** What [workspace.fs.stat] tells of [.git/FETCH_HEAD]. *)
Record FileStat : Type := mkFileStat { size : Z; mtime : N }.

(** The [try] statement of [getLastFetched] and its [return]: [stat] is the
    settled promise of [workspace.fs.stat]. *)
Definition statFetchHead (stat : Outcome FileStat) : Async N :=
  fun r =>
    let r :=
      match stat with
      | Resolved st =>
          if (0 <? size st)%Z then set_lastFetched (Some (mtime st)) r else r
      | Rejected _ => set_lastFetched None r
      end in
    (Resolved (default 0 (_lastFetched r)), r).

(** [getLastFetched()].  [hasRemotes] is the method [this.hasRemotes()], taken
    by what it does to the repository and what it resolves to; [isMaybeGuest]
    is [Container.vsls.isMaybeGuest], read only when there are remotes. *)
Definition getLastFetched (hasRemotes : Async bool) (isMaybeGuest : bool)
    (stat : Outcome FileStat) : Async N :=
  fun r =>
    match _lastFetched r with
    | None =>
        match hasRemotes r with
        | (Resolved has, r') =>
            if negb has || isMaybeGuest then (Resolved 0, r')
            else statFetchHead stat r'
        | (Rejected ex, r') => (Rejected ex, r')
        end
    | Some _ => statFetchHead stat r
    end.

(** *** [Repository.sort] *)

(** The comparator that [Repository.sort] gives to [Array.prototype.sort]:
    [(a.starred ? -1 : 1) - (b.starred ? -1 : 1) || a.index - b.index]. *)
Definition compareRepositories {A : Type} (starred : A -> bool) (index : A -> Z)
    (a b : A) : Z :=
  let byStar := ((if starred a then -1 else 1) - (if starred b then -1 else 1))%Z in
  if (byStar =? 0)%Z then (index a - index b)%Z else byStar.

(** [Array.prototype.sort(compare)] is the engine's: ECMAScript makes it a
    stable sort.  It is modelled by the stable insertion sort: an element goes
    before the first element that does not compare below it. *)
Fixpoint insertSorted {A : Type} (compare : A -> A -> Z) (x : A) (l : list A) : list A :=
  match l with
  | [] => [x]
  | y :: l' =>
      if (compare x y <=? 0)%Z then x :: y :: l'
      else y :: insertSorted compare x l'
  end.

Definition Array_sort {A : Type} (compare : A -> A -> Z) (l : list A) : list A :=
  fold_right (insertSorted compare) [] l.

(** *** Fields and methods outside the two channels *)

(** The keys of [WorkspaceState] that the class uses, and the part of
    [Container.context.workspaceState] under them: a [Starred] object maps an
    identifier to a boolean. *)
Inductive WorkspaceState : Type := StarredBranches | StarredRepositories.

Record Memento : Type := mkMemento
  { starredBranches : option (gmap string bool);
    starredRepositories : option (gmap string bool) }.

(** [workspaceState.get(key)], [None] for [undefined]. *)
Definition Memento_get (key : WorkspaceState) (m : Memento) : option (gmap string bool) :=
  match key with
  | StarredBranches => starredBranches m
  | StarredRepositories => starredRepositories m
  end.

(** [workspaceState.update(key, value)], a host API, taken to resolve. *)
Definition Memento_update (key : WorkspaceState) (value : gmap string bool) (m : Memento)
  : Memento :=
  match key with
  | StarredBranches => mkMemento (Some value) (starredRepositories m)
  | StarredRepositories => mkMemento (starredBranches m) (Some value)
  end.

(** The repository with the fields that the methods below use besides those
    of [Repository]: [core] holds the latter.  The filesystem watchers that
    [startWatchingFileSystem] creates are numbered; [fsWatchersCreated]
    counts them and [fsWatchersDisposed] lists those disposed.  [terminal]
    lists the calls of [runGitCommandInTerminal]: the command and the joined
    arguments.  [disposed] tells whether [_disposable], the watcher of the
    constructor with its subscriptions, has been disposed. *)
Record RepositoryObject : Type := mkRepositoryObject
  { core : Repository;
    id : string;
    index : Z;
    _closed : bool;
    _fsWatchCounter : Z;
    _fsWatcherDisposable : option nat;
    fsWatchersCreated : nat;
    fsWatchersDisposed : list nat;
    disposed : bool;
    workspaceState : Memento;
    terminal : list (string * string) }.

Definition set_core (v : Repository) (R : RepositoryObject) : RepositoryObject :=
  mkRepositoryObject v (id R) (index R) (_closed R) (_fsWatchCounter R)
    (_fsWatcherDisposable R) (fsWatchersCreated R) (fsWatchersDisposed R) (disposed R)
    (workspaceState R) (terminal R).

Definition set__closed (v : bool) (R : RepositoryObject) : RepositoryObject :=
  mkRepositoryObject (core R) (id R) (index R) v (_fsWatchCounter R)
    (_fsWatcherDisposable R) (fsWatchersCreated R) (fsWatchersDisposed R) (disposed R)
    (workspaceState R) (terminal R).

Definition set_fsWatchCounter (v : Z) (R : RepositoryObject) : RepositoryObject :=
  mkRepositoryObject (core R) (id R) (index R) (_closed R) v
    (_fsWatcherDisposable R) (fsWatchersCreated R) (fsWatchersDisposed R) (disposed R)
    (workspaceState R) (terminal R).

Definition set_fsWatcherDisposable (v : option nat) (R : RepositoryObject)
  : RepositoryObject :=
  mkRepositoryObject (core R) (id R) (index R) (_closed R) (_fsWatchCounter R)
    v (fsWatchersCreated R) (fsWatchersDisposed R) (disposed R)
    (workspaceState R) (terminal R).

Definition set_fsWatchersCreated (v : nat) (R : RepositoryObject) : RepositoryObject :=
  mkRepositoryObject (core R) (id R) (index R) (_closed R) (_fsWatchCounter R)
    (_fsWatcherDisposable R) v (fsWatchersDisposed R) (disposed R)
    (workspaceState R) (terminal R).

Definition set_fsWatchersDisposed (v : list nat) (R : RepositoryObject) : RepositoryObject :=
  mkRepositoryObject (core R) (id R) (index R) (_closed R) (_fsWatchCounter R)
    (_fsWatcherDisposable R) (fsWatchersCreated R) v (disposed R)
    (workspaceState R) (terminal R).

Definition set_disposed (v : bool) (R : RepositoryObject) : RepositoryObject :=
  mkRepositoryObject (core R) (id R) (index R) (_closed R) (_fsWatchCounter R)
    (_fsWatcherDisposable R) (fsWatchersCreated R) (fsWatchersDisposed R) v
    (workspaceState R) (terminal R).

Definition set_workspaceState (v : Memento) (R : RepositoryObject) : RepositoryObject :=
  mkRepositoryObject (core R) (id R) (index R) (_closed R) (_fsWatchCounter R)
    (_fsWatcherDisposable R) (fsWatchersCreated R) (fsWatchersDisposed R) (disposed R)
    v (terminal R).

Definition set_terminal (v : list (string * string)) (R : RepositoryObject)
  : RepositoryObject :=
  mkRepositoryObject (core R) (id R) (index R) (_closed R) (_fsWatchCounter R)
    (_fsWatcherDisposable R) (fsWatchersCreated R) (fsWatchersDisposed R) (disposed R)
    (workspaceState R) v.

(** The object after the constructor: [_fsWatchCounter = 0], no filesystem
    watcher, nothing run in the terminal. *)
Definition new_RepositoryObject (now : N) (p identifier : string) (folderIndex : Z)
    (supports suspended closed : bool) (state : Memento) : RepositoryObject :=
  mkRepositoryObject (new_Repository now p supports suspended) identifier folderIndex
    closed 0 None 0 [] false state [].

(** A method of the class modelled on [Repository], on the object. *)
Definition onCore (f : Repository -> Repository) (R : RepositoryObject) : RepositoryObject :=
  set_core (f (core R)) R.

(** [set closed(value)]. *)
Definition set_closed (value : bool) (R : RepositoryObject) : RepositoryObject :=
  let changed := negb (Bool.eqb (_closed R) value) in
  let R := set__closed value R in
  if changed then onCore (fireChange [Closed]) R else R.

(** [get starred()]: [starred != null && starred[this.id] === true]. *)
Definition starred (R : RepositoryObject) : bool :=
  match Memento_get StarredRepositories (workspaceState R) with
  | Some m => bool_decide (m !! id R = Some true)
  | None => false
  end.

(** [updateStarredCore(key, id, star)]. *)
Definition updateStarredCore (key : WorkspaceState) (identifier : string) (star : bool)
    (R : RepositoryObject) : RepositoryObject :=
  let stored := default ∅ (Memento_get key (workspaceState R)) in
  let stored := if star then <[identifier := true]> stored else delete identifier stored in
  let R := set_workspaceState (Memento_update key stored (workspaceState R)) R in
  onCore (fireChange [Starred]) R.

(** [updateStarred(star, branch)]. *)
Definition updateStarred (star : bool) (branch : option GitBranch) (R : RepositoryObject)
  : RepositoryObject :=
  let R :=
    match branch with
    | Some b => updateStarredCore StarredBranches (branch_id b) star R
    | None => updateStarredCore StarredRepositories (id R) star R
    end in
  onCore (fireChange [Starred]) R.

Definition star (branch : option GitBranch) : RepositoryObject -> RepositoryObject :=
  updateStarred true branch.

Definition unstar (branch : option GitBranch) : RepositoryObject -> RepositoryObject :=
  updateStarred false branch.

(** [startWatchingFileSystem()]; the [Disposable] it returns calls
    [stopWatchingFileSystem]. *)
Definition startWatchingFileSystem (R : RepositoryObject) : RepositoryObject :=
  let R := set_fsWatchCounter (_fsWatchCounter R + 1)%Z R in
  match _fsWatcherDisposable R with
  | None =>
      let watcher := fsWatchersCreated R in
      set_fsWatcherDisposable (Some watcher) (set_fsWatchersCreated (S watcher) R)
  | Some _ => R
  end.

Definition stopWatchingFileSystem (R : RepositoryObject) : RepositoryObject :=
  match _fsWatcherDisposable R with
  | None => R
  | Some watcher =>
      let R := set_fsWatchCounter (_fsWatchCounter R - 1)%Z R in
      if (0 <? _fsWatchCounter R)%Z then R
      else
        set_fsWatcherDisposable None
          (set_fsWatchersDisposed (fsWatchersDisposed R ++ [watcher]) R)
  end.

(** [dispose()]; the disposal of [_remotesDisposable], an object of the
    remote providers, leaves no trace in the fields. *)
Definition dispose (R : RepositoryObject) : RepositoryObject :=
  set_disposed true (stopWatchingFileSystem R).

(** The double quote (code 34). *)
Definition doubleQuote : string := String (ascii_of_nat 34) EmptyString.

(** [arg.startsWith('#') ? `"${arg}"` : arg]. *)
Definition parseArg (arg : string) : string :=
  if String.prefix "#" arg then (doubleQuote ++ arg ++ doubleQuote)%string else arg.

(** [runTerminalCommand(command, ...args)]. *)
Definition runTerminalCommand (command : string) (args : list string) (R : RepositoryObject)
  : RepositoryObject :=
  let parsedArgs := map parseArg args in
  let R := set_terminal (terminal R ++ [(command, String.concat " " parsedArgs)]) R in
  if negb (supportsChangeEvents (core R)) then onCore (fireChange [Unknown]) R else R.

Definition branch (args : list string) : RepositoryObject -> RepositoryObject :=
  runTerminalCommand "branch" args.

Definition cherryPick (args : list string) : RepositoryObject -> RepositoryObject :=
  runTerminalCommand "cherry-pick" args.

Definition merge (args : list string) : RepositoryObject -> RepositoryObject :=
  runTerminalCommand "merge" args.

(** [rebase(configs, ...args)]: [configs] is [None] for [undefined]. *)
Definition rebase (configs : option (list string)) (args : list string)
  : RepositoryObject -> RepositoryObject :=
  runTerminalCommand
    match configs with
    | Some (c :: cs) => (String.concat " " (c :: cs) ++ " rebase")%string
    | _ => "rebase"
    end args.

Definition reset (args : list string) : RepositoryObject -> RepositoryObject :=
  runTerminalCommand "reset" args.

Definition revert (args : list string) : RepositoryObject -> RepositoryObject :=
  runTerminalCommand "revert" args.

Definition tag (args : list string) : RepositoryObject -> RepositoryObject :=
  runTerminalCommand "tag" args.

(** [tagDelete(tags)], on the array that the method first makes of [tags]. *)
Definition tagDelete (tags : list GitReference) : RepositoryObject -> RepositoryObject :=
  runTerminalCommand "tag" ("--delete" :: map ref tags).

(** What can happen to the filesystem watch of an object. *)
Inductive WatchAction : Type :=
  | StartWatching
  | StopWatching
  | Dispose.

Definition watchStep (R : RepositoryObject) (a : WatchAction) : RepositoryObject :=
  match a with
  | StartWatching => startWatchingFileSystem R
  | StopWatching => stopWatchingFileSystem R
  | Dispose => dispose R
  end.

Definition watchRun (actions : list WatchAction) (R : RepositoryObject) : RepositoryObject :=
  fold_left watchStep actions R.

(** [n] times [f]. *)
Fixpoint times {A : Type} (n : nat) (f : A -> A) (a : A) : A :=
  match n with
  | O => a
  | S n' => times n' f (f a)
  end.

(** [s] ends with [suffix]; [s] has [part] somewhere. *)
Definition isSuffix (suffix s : string) : Prop :=
  exists pre : string, s = (pre ++ suffix)%string.

(** The changes that have been given to [fireChange] so far. *)
Definition recorded (r : Repository) : list RepositoryChange :=
  concat (map changes (onAnyRepositoryChanged r)).

(** The changes that have been published so far. *)
Definition publishedChanges (r : Repository) : list RepositoryChange :=
  concat (map changes (_onDidChange r)).

(** A change is accounted for on the change channel: it is in a published
    event or in the pending one. *)
Definition accounted (ch : Channel RepositoryChangeEvent RepositoryChangeEvent) (c : RepositoryChange) : Prop :=
  let '(_, _, _, pending, out) := ch in
  c ∈ concat (map changes out) \/ (exists e, pending = Some e /\ c ∈ changes e).

(** No event of the change channel, pending or published, has a change twice. *)
Definition channel_nodup (ch : Channel RepositoryChangeEvent RepositoryChangeEvent) : Prop :=
  let '(_, _, _, pending, out) := ch in
  (forall e, pending = Some e -> NoDup (changes e)) /\
  Forall (fun e => NoDup (changes e)) out.

(** On a channel that is not suspended, a pending event has its timer armed,
    due within one window. *)
Definition channel_live {E O : Type} (w : N) (ch : Channel E O) : Prop :=
  let '(now, suspended, d, pending, _) := ch in
  suspended = false -> is_Some pending ->
  exists t, deadline d = Some t /\ t <= now + w.

(** [Repository.sort(repositories)]; each object of the array carries the
    workspace state that its [starred] reads. *)
Definition Repository_sort (repositories : list RepositoryObject) : list RepositoryObject :=
  Array_sort (compareRepositories starred index) repositories.

(** [a] may stand before [b] in a sorted array: a starred repository before
    one that is not, and among equals the smaller index first. *)
Definition sortsBefore (a b : RepositoryObject) : Prop :=
  (starred a = true /\ starred b = false) \/
  (starred a = starred b /\ (index a <= index b)%Z).

(** The bookkeeping of the filesystem watch is consistent: there is a watcher
    exactly while the counter is positive, the counter is not negative, the
    watchers created are those disposed and the live one, none is disposed
    twice, and the live one is not disposed. *)
Definition watch_ok (R : RepositoryObject) : Prop :=
  (0 <= _fsWatchCounter R)%Z /\
  (_fsWatcherDisposable R = None <-> _fsWatchCounter R = 0%Z) /\
  NoDup (fsWatchersDisposed R ++ option_list (_fsWatcherDisposable R)) /\
  (forall w, w ∈ fsWatchersDisposed R ++ option_list (_fsWatcherDisposable R) <->
             (w < fsWatchersCreated R)%nat).

(** ** Examples: the source run on small inputs *)

Example endsWith_config : endsWith "/repo/.git/config" ".git/config" = true.
Proof. reflexivity. Qed.

Example endsWith_short : endsWith "config" ".git/config" = false.
Proof. reflexivity. Qed.

Example refs_heads : refsRegex_exec "/repo/.git/refs/heads/main" = Some "heads".
Proof. reflexivity. Qed.

Example refs_remotes : refsRegex_exec "/repo/.git/refs/remotes/origin/main" = Some "remotes".
Proof. reflexivity. Qed.

Example refs_none : refsRegex_exec "/repo/.git/refs/stash" = None.
Proof. reflexivity. Qed.

Example ignore_dotgit_dir : ignoreGitRegex_test "/repo/.git" = true.
Proof. reflexivity. Qed.

Example ignore_gitignore : ignoreGitRegex_test "/repo/.gitignore" = false.
Proof. reflexivity. Qed.

Example pushChange_twice :
  fold_left pushChange [Heads; Tags; Heads] [Tags] = [Tags; Heads].
Proof. reflexivity. Qed.

(** ** The accumulator of [fireChange] *)

Lemma pushChange_elem (acc : list RepositoryChange) (reason c : RepositoryChange) :
  c ∈ pushChange acc reason <-> c ∈ acc \/ c = reason.
Proof.
  unfold pushChange, includes. case_bool_decide as Hin.
  - split; [auto | intros [H | ->]; assumption].
  - rewrite elem_of_app, list_elem_of_singleton. reflexivity.
Qed.

Lemma pushChange_NoDup (acc : list RepositoryChange) (reason : RepositoryChange) :
  NoDup acc -> NoDup (pushChange acc reason).
Proof.
  intros Hnd. unfold pushChange, includes. case_bool_decide as Hin; [assumption |].
  apply NoDup_app. split; [assumption |]. split.
  - intros x Hx Hx'. apply list_elem_of_singleton in Hx'. subst. contradiction.
  - apply NoDup_singleton.
Qed.

Lemma fold_pushChange_elem (reasons acc : list RepositoryChange) (c : RepositoryChange) :
  c ∈ fold_left pushChange reasons acc <-> c ∈ acc \/ c ∈ reasons.
Proof.
  revert acc. induction reasons as [| reason reasons IH]; intros acc; simpl.
  - rewrite elem_of_nil. tauto.
  - rewrite IH, pushChange_elem, elem_of_cons. tauto.
Qed.

Lemma fold_pushChange_NoDup (reasons acc : list RepositoryChange) :
  NoDup acc -> NoDup (fold_left pushChange reasons acc).
Proof.
  revert acc. induction reasons as [| reason reasons IH]; intros acc Hnd; simpl.
  - assumption.
  - apply IH, pushChange_NoDup, Hnd.
Qed.

(** What [fireChange] leaves alone, and what it does to the accumulator. *)

Lemma fireChange_pending (cs : list RepositoryChange) (r : Repository) :
  _pendingRepoChange (fireChange cs r)
  = Some (mkChangeEvent (fold_left pushChange cs (pendingChanges r))).
Proof.
  unfold fireChange, call_fireChangeDebounced, pendingChanges, pushChanges.
  destruct r as [? ? ? ? ? ? ? [d|] ? ? [e|] [|] ? ? ? ? ? ? ?]; reflexivity.
Qed.

Lemma fireChange_frame (cs : list RepositoryChange) (r : Repository) :
  _onDidChange (fireChange cs r) = _onDidChange r /\
  _suspended (fireChange cs r) = _suspended r /\
  clock (fireChange cs r) = clock r /\
  _branch (fireChange cs r) = _branch r /\
  _remotes (fireChange cs r) = _remotes r /\
  Logger_errors (fireChange cs r) = Logger_errors r /\
  Messages_shown (fireChange cs r) = Messages_shown r.
Proof.
  unfold fireChange, call_fireChangeDebounced.
  destruct r as [? ? ? ? ? ? ? [d|] ? ? [e|] [|] ? ? ? ? ? ? ?]; repeat split.
Qed.

Lemma fireChange_onAny (cs : list RepositoryChange) (r : Repository) :
  onAnyRepositoryChanged (fireChange cs r)
  = onAnyRepositoryChanged r ++ [mkChangeEvent cs].
Proof.
  unfold fireChange, call_fireChangeDebounced.
  destruct r as [? ? ? ? ? ? ? [d|] ? ? [e|] [|] ? ? ? ? ? ? ?]; reflexivity.
Qed.

(** The debounced function after [fireChange]: created on first use with the
    window 250; re-armed unless the repository is suspended. *)
Lemma fireChange_debounced (cs : list RepositoryChange) (r : Repository) :
  _fireChangeDebounced (fireChange cs r)
  = let d := default (debounce 250) (_fireChangeDebounced r) in
    Some (if _suspended r then d else Debounced_call (clock r) d).
Proof.
  unfold fireChange, call_fireChangeDebounced.
  destruct r as [? ? ? ? ? ? ? [d|] ? ? [e|] [|] ? ? ? ? ? ? ?]; reflexivity.
Qed.




Lemma elem_of_concat (c : RepositoryChange) (calls : list (list RepositoryChange)) :
  c ∈ concat calls <-> exists cs, cs ∈ calls /\ c ∈ cs.
Proof.
  induction calls as [| cs calls IH]; simpl.
  - split; [intros H; inversion H | intros (cs & H & _); inversion H].
  - rewrite elem_of_app, IH. split.
    + intros [H | (cs' & H1 & H2)].
      * exists cs. split; [left | assumption].
      * exists cs'. split; [right |]; assumption.
    + intros (cs' & H1 & H2). apply elem_of_cons in H1 as [-> | H1].
      * left. assumption.
      * right. exists cs'. split; assumption.
Qed.

(** The event that a burst of calls leaves to the next flush, when the burst
    starts on an empty accumulator. *)
Lemma burst_event (calls : list (list RepositoryChange)) (e : RepositoryChangeEvent) :
  e = mkChangeEvent (fold_left pushChange (concat calls) []) ->
  NoDup (changes e) /\
  (forall c, c ∈ changes e <-> exists cs, cs ∈ calls /\ c ∈ cs).
Proof.
  intros ->. simpl. split.
  - apply fold_pushChange_NoDup, NoDup_nil_2.
  - intros c. rewrite fold_pushChange_elem, elem_of_nil.
    rewrite elem_of_concat. tauto.
Qed.

(** ** The classifier *)

Lemma exactFileRule_false (p : string) :
  exactFileRule p = false ->
  endsWith p ".git/config" = false /\ endsWith p ".git/index" = false /\
  endsWith p ".git/HEAD" = false /\ endsWith p ".git/ORIG_HEAD" = false /\
  endsWith p ".git/refs/stash" = false /\ endsWith p "/.gitignore" = false.
Proof.
  unfold exactFileRule. intros H.
  repeat (apply orb_false_elim in H as [H ?]). repeat split; assumption.
Qed.

(** [onRepositoryChanged] where the exact-file rules do not apply: the refs
    pattern decides. *)
Lemma onRepositoryChanged_refs (r : Repository) (uri : Uri.t) :
  exactFileRule (Uri.path uri) = false ->
  onRepositoryChanged (Some uri) r
  = let r := set_lastFetched None r in
    match refsRegex_exec (Uri.path uri) with
    | Some g =>
        if String.eqb g "heads" then fireChange [Heads] (set_branch None r)
        else if String.eqb g "remotes" then
          fireChange [Remotes] (resetRemotesCache (set_branch None r))
        else if String.eqb g "tags" then fireChange [Tags] r
        else fireChange [Unknown] r
    | None => fireChange [Unknown] r
    end.
Proof.
  intros H. apply exactFileRule_false in H as (H1 & H2 & H3 & H4 & H5 & H6).
  unfold onRepositoryChanged. rewrite H1, H2, H3, H4, H5, H6. reflexivity.
Qed.

(** Every notification of the watcher is classified: exactly one event goes
    to [onAnyRepositoryChanged], and it is not empty. *)
Lemma onRepositoryChanged_notifies (r : Repository) (uri : option Uri.t) :
  exists e,
    onAnyRepositoryChanged (onRepositoryChanged uri r)
    = onAnyRepositoryChanged r ++ [e] /\
    changes e <> [] /\
    forall c, c ∈ changes e -> c ∈ pendingChanges (onRepositoryChanged uri r).
Proof.
  assert (Hfire : forall cs r0, cs <> [] ->
            onAnyRepositoryChanged r0 = onAnyRepositoryChanged r ->
            exists e, onAnyRepositoryChanged (fireChange cs r0)
                      = onAnyRepositoryChanged r ++ [e] /\ changes e <> [] /\
                      forall c, c ∈ changes e -> c ∈ pendingChanges (fireChange cs r0)).
  { intros cs r0 Hcs Hr0. exists (mkChangeEvent cs).
    rewrite fireChange_onAny, Hr0. split; [reflexivity |]. split; [exact Hcs |].
    intros c Hc. unfold pendingChanges at 1. rewrite fireChange_pending. simpl.
    apply fold_pushChange_elem. right. exact Hc. }
  unfold onRepositoryChanged. destruct uri as [uri |]; [| apply Hfire; done].
  repeat (case_match; try (apply Hfire; done)).
Qed.

(** C5, as amended: the rule table of the classifier.  (1) A path that ends in
    [.git/config] is reported as config and remotes, and the remote-list
    cache is dropped.  (2) A path for which no exact-file rule applies and
    whose refs match is [heads] is reported as heads, and the branch cache is
    dropped.  (3) An absent URI is reported as unknown.  (4) A path that
    matches no rule at all is reported as unknown.  (5) Whatever the URI, one
    non-empty event is reported and its changes are pending afterwards. *)
Theorem classifier_rule_table (r : Repository) (uri : Uri.t) :
  (endsWith (Uri.path uri) ".git/config" = true ->
   onAnyRepositoryChanged (onRepositoryChanged (Some uri) r)
   = onAnyRepositoryChanged r ++ [mkChangeEvent [Config; Remotes]] /\
   pendingChanges (onRepositoryChanged (Some uri) r)
   = fold_left pushChange [Config; Remotes] (pendingChanges r) /\
   _remotes (onRepositoryChanged (Some uri) r) = None) /\
  (exactFileRule (Uri.path uri) = false ->
   refsRegex_exec (Uri.path uri) = Some "heads" ->
   onAnyRepositoryChanged (onRepositoryChanged (Some uri) r)
   = onAnyRepositoryChanged r ++ [mkChangeEvent [Heads]] /\
   pendingChanges (onRepositoryChanged (Some uri) r)
   = fold_left pushChange [Heads] (pendingChanges r) /\
   _branch (onRepositoryChanged (Some uri) r) = None) /\
  (onAnyRepositoryChanged (onRepositoryChanged None r)
   = onAnyRepositoryChanged r ++ [mkChangeEvent [Unknown]] /\
   pendingChanges (onRepositoryChanged None r)
   = fold_left pushChange [Unknown] (pendingChanges r)) /\
  (exactFileRule (Uri.path uri) = false ->
   refsRegex_exec (Uri.path uri) = None ->
   onAnyRepositoryChanged (onRepositoryChanged (Some uri) r)
   = onAnyRepositoryChanged r ++ [mkChangeEvent [Unknown]] /\
   pendingChanges (onRepositoryChanged (Some uri) r)
   = fold_left pushChange [Unknown] (pendingChanges r)) /\
  (forall u : option Uri.t,
     exists e,
       onAnyRepositoryChanged (onRepositoryChanged u r)
       = onAnyRepositoryChanged r ++ [e] /\
       changes e <> [] /\
       forall c, c ∈ changes e -> c ∈ pendingChanges (onRepositoryChanged u r)).
Proof.
  split; [| split; [| split; [| split]]].
  - intros H. unfold onRepositoryChanged. rewrite H.
    unfold pendingChanges at 1. rewrite fireChange_onAny, fireChange_pending.
    repeat split. apply fireChange_frame.
  - intros Hx Hre. rewrite onRepositoryChanged_refs by exact Hx. rewrite Hre. simpl.
    unfold pendingChanges at 1. rewrite fireChange_onAny, fireChange_pending.
    repeat split. apply fireChange_frame.
  - unfold onRepositoryChanged, pendingChanges at 1.
    rewrite fireChange_onAny, fireChange_pending. split; reflexivity.
  - intros Hx Hre. rewrite onRepositoryChanged_refs by exact Hx. rewrite Hre. simpl.
    unfold pendingChanges at 1. rewrite fireChange_onAny, fireChange_pending.
    split; reflexivity.
  - intros u. apply onRepositoryChanged_notifies.
Qed.

(** C1, as amended: a path for which no exact-file rule applies and whose
    refs match is [remotes] is reported as remotes alone (heads is not
    reported), and both the branch cache and the remote-list cache are
    dropped. *)
Theorem remotes_ref_classification (r : Repository) (uri : Uri.t) :
  exactFileRule (Uri.path uri) = false ->
  refsRegex_exec (Uri.path uri) = Some "remotes" ->
  onAnyRepositoryChanged (onRepositoryChanged (Some uri) r)
  = onAnyRepositoryChanged r ++ [mkChangeEvent [Remotes]] /\
  pendingChanges (onRepositoryChanged (Some uri) r)
  = fold_left pushChange [Remotes] (pendingChanges r) /\
  _branch (onRepositoryChanged (Some uri) r) = None /\
  _remotes (onRepositoryChanged (Some uri) r) = None.
Proof.
  intros Hx Hre. rewrite onRepositoryChanged_refs by exact Hx. rewrite Hre. simpl.
  unfold pendingChanges at 1. rewrite fireChange_onAny, fireChange_pending.
  repeat split; apply fireChange_frame.
Qed.

(** ** One flush per burst *)


(** C7: a flush with nothing pending does nothing.  With no pending change
    [fireChangeCore] returns the repository as it was, and so does
    [fireFileSystemChangeCore] with no pending filesystem change; nothing is
    published either when a debounce timer fires in such a state, and
    [excludeIgnoredUris] is not called. *)
Theorem flush_nothing_pending (r : Repository) :
  (_pendingRepoChange r = None ->
   fireChangeCore r = r /\ _onDidChange (runChangeTimer r) = _onDidChange r) /\
  (_pendingFileSystemChange r = None ->
   fireFileSystemChangeCore r = r /\
   _onDidChangeFileSystem (runFileSystemTimer r) = _onDidChangeFileSystem r /\
   excludeIgnoredUris_calls (runFileSystemTimer r) = excludeIgnoredUris_calls r).
Proof.
  split; intros H.
  - split; [unfold fireChangeCore; rewrite H; reflexivity |].
    unfold runChangeTimer, fireChangeCore.
    destruct (_fireChangeDebounced r) as [d |]; [| reflexivity].
    destruct (Debounced_due (clock r) d); [| reflexivity].
    simpl. rewrite H. reflexivity.
  - split; [unfold fireFileSystemChangeCore; rewrite H; reflexivity |].
    unfold runFileSystemTimer, fireFileSystemChangeCore.
    destruct (_fireFileSystemChangeDebounced r) as [d |]; [| split; reflexivity].
    destruct (Debounced_due (clock r) d); [| split; reflexivity].
    simpl. rewrite H. split; reflexivity.
Qed.

(** ** Time and the two timers *)

Lemma runFileSystemTimer_frame (r : Repository) :
  clock (runFileSystemTimer r) = clock r /\
  _suspended (runFileSystemTimer r) = _suspended r /\
  _fireChangeDebounced (runFileSystemTimer r) = _fireChangeDebounced r /\
  _pendingRepoChange (runFileSystemTimer r) = _pendingRepoChange r /\
  _onDidChange (runFileSystemTimer r) = _onDidChange r /\
  _onDidChangeFileSystem (runFileSystemTimer r) = _onDidChangeFileSystem r.
Proof.
  unfold runFileSystemTimer, fireFileSystemChangeCore.
  repeat case_match; repeat split.
Qed.

Lemma runChangeTimer_frame (r : Repository) :
  clock (runChangeTimer r) = clock r /\
  path (runChangeTimer r) = path r /\
  _suspended (runChangeTimer r) = _suspended r /\
  _fireFileSystemChangeDebounced (runChangeTimer r) = _fireFileSystemChangeDebounced r /\
  _pendingFileSystemChange (runChangeTimer r) = _pendingFileSystemChange r /\
  _onDidChangeFileSystem (runChangeTimer r) = _onDidChangeFileSystem r.
Proof.
  unfold runChangeTimer, fireChangeCore.
  repeat case_match; repeat split.
Qed.

Lemma elapse_clock (dt : N) (r : Repository) :
  clock (elapse dt r) = clock r + dt /\ _suspended (elapse dt r) = _suspended r.
Proof.
  unfold elapse.
  destruct (runFileSystemTimer_frame (runChangeTimer (set_clock (clock r + dt) r)))
    as (-> & -> & _).
  destruct (runChangeTimer_frame (set_clock (clock r + dt) r)) as (-> & _ & -> & _).
  split; reflexivity.
Qed.

(** [fireFileSystemChange] on its channel. *)
Lemma fireFileSystemChange_debounced (u : Uri.t) (r : Repository) :
  _fireFileSystemChangeDebounced (fireFileSystemChange u r)
  = let d := default (debounce 2500) (_fireFileSystemChangeDebounced r) in
    Some (if _suspended r then d else Debounced_call (clock r) d).
Proof.
  unfold fireFileSystemChange, call_fireFileSystemChangeDebounced.
  destruct r as [? ? ? ? ? ? ? ? [d|] [e|] ? [|] ? ? ? ? ? ? ?]; reflexivity.
Qed.

(** ** The methods, channel by channel *)

Ltac on_fields r :=
  destruct r as [clk pth sup br rem remd lf fcd ffd pfs prc sus upd odc odf oar le ms eic];
  simpl in *.

Lemma fireChange_channel (cs : list RepositoryChange) (r : Repository) :
  changeChannel (fireChange cs r) = channel_record 250 (mergeChanges cs) (changeChannel r) /\
  fileSystemChannel (fireChange cs r) = fileSystemChannel r /\
  path (fireChange cs r) = path r.
Proof.
  unfold fireChange, call_fireChangeDebounced, changeChannel, fileSystemChannel.
  on_fields r. destruct fcd as [d |], prc as [e |], sus; repeat split.
Qed.

Lemma fireFileSystemChange_channel (u : Uri.t) (r : Repository) :
  fileSystemChannel (fireFileSystemChange u r)
  = channel_record 2500 (mergeUri u) (fileSystemChannel r) /\
  changeChannel (fireFileSystemChange u r) = changeChannel r /\
  path (fireFileSystemChange u r) = path r.
Proof.
  unfold fireFileSystemChange, call_fireFileSystemChangeDebounced,
    changeChannel, fileSystemChannel.
  on_fields r. destruct ffd as [d |], pfs as [e |], sus; repeat split.
Qed.

Lemma suspend_channel (r : Repository) :
  changeChannel (suspend r) = channel_suspend (changeChannel r) /\
  fileSystemChannel (suspend r) = channel_suspend (fileSystemChannel r) /\
  path (suspend r) = path r.
Proof. on_fields r. repeat split. Qed.

Lemma resume_channel (r : Repository) :
  changeChannel (resume r) = channel_resume (changeChannel r) /\
  fileSystemChannel (resume r) = channel_resume (fileSystemChannel r) /\
  path (resume r) = path r.
Proof.
  unfold resume, call_fireChangeDebounced, call_fireFileSystemChangeDebounced,
    changeChannel, fileSystemChannel.
  on_fields r.
  destruct sus, prc as [e |], pfs as [e' |], fcd as [d |], ffd as [d' |]; repeat split.
Qed.

Lemma elapse_channel (dt : N) (r : Repository) :
  changeChannel (elapse dt r) = channel_elapse (fun e => [e]) dt (changeChannel r) /\
  fileSystemChannel (elapse dt r)
  = channel_elapse (fun e => [(e, false)]) dt (fileSystemChannel r) /\
  path (elapse dt r) = path r.
Proof.
  unfold elapse, runFileSystemTimer, runChangeTimer, fireChangeCore,
    fireFileSystemChangeCore, changeChannel, fileSystemChannel, channel_elapse.
  on_fields r.
  destruct fcd as [d |], ffd as [d' |], pfs as [[us] |]; simpl;
    repeat (case_match; simpl in *; try discriminate; subst);
    simplify_eq; rewrite ?app_nil_r; repeat split; congruence.
Qed.

(** The passing of time fires nothing on [_onDidChangeFileSystem]: the timer
    only takes [fireFileSystemChangeCore] to its [await]. *)
Lemma elapse_onDidChangeFileSystem (dt : N) (r : Repository) :
  _onDidChangeFileSystem (elapse dt r) = _onDidChangeFileSystem r.
Proof.
  unfold elapse.
  destruct (runFileSystemTimer_frame (runChangeTimer (set_clock (clock r + dt) r)))
    as (_ & _ & _ & _ & _ & ->).
  destruct (runChangeTimer_frame (set_clock (clock r + dt) r)) as (_ & _ & _ & _ & _ & ->).
  reflexivity.
Qed.

(** A promise that settles, for a run that awaits it and for any other
    call number. *)
Lemma excludeIgnoredUris_settled_awaiting (call : nat) (fulfilled : bool) (r : Repository)
    (e : RepositoryFileSystemChangeEvent) :
  excludeIgnoredUris_calls r !! call = Some (e, false) ->
  _onDidChangeFileSystem (excludeIgnoredUris_settled call fulfilled r)
  = _onDidChangeFileSystem r ++ (if fulfilled then fsFlushed (path r) (uris e) else []) /\
  excludeIgnoredUris_calls (excludeIgnoredUris_settled call fulfilled r)
  = <[call := (e, true)]> (excludeIgnoredUris_calls r).
Proof.
  intros H. unfold excludeIgnoredUris_settled, fireFileSystemChangeCore_resumed, fsFlushed.
  rewrite H. destruct e as [us]. on_fields r. destruct fulfilled; [| rewrite app_nil_r; split; reflexivity].
  repeat case_match; cbn; rewrite ?app_nil_r; split; reflexivity.
Qed.

Lemma excludeIgnoredUris_settled_other (call : nat) (fulfilled : bool) (r : Repository) :
  (forall e, excludeIgnoredUris_calls r !! call <> Some (e, false)) ->
  excludeIgnoredUris_settled call fulfilled r = r.
Proof.
  intros H. unfold excludeIgnoredUris_settled.
  destruct (excludeIgnoredUris_calls r !! call) as [[e [|]] |]; try reflexivity.
  exfalso. exact (H e eq_refl).
Qed.

(** What the settling of a promise leaves alone. *)
Lemma excludeIgnoredUris_settled_frame (call : nat) (fulfilled : bool) (r : Repository) :
  changeChannel (excludeIgnoredUris_settled call fulfilled r) = changeChannel r /\
  path (excludeIgnoredUris_settled call fulfilled r) = path r /\
  onAnyRepositoryChanged (excludeIgnoredUris_settled call fulfilled r)
  = onAnyRepositoryChanged r /\
  _fireFileSystemChangeDebounced (excludeIgnoredUris_settled call fulfilled r)
  = _fireFileSystemChangeDebounced r /\
  _pendingFileSystemChange (excludeIgnoredUris_settled call fulfilled r)
  = _pendingFileSystemChange r /\
  map fst (excludeIgnoredUris_calls (excludeIgnoredUris_settled call fulfilled r))
  = map fst (excludeIgnoredUris_calls r).
Proof.
  unfold excludeIgnoredUris_settled, fireFileSystemChangeCore_resumed.
  destruct (excludeIgnoredUris_calls r !! call) as [[e [|]] |] eqn:Hc;
    try (repeat split; reflexivity).
  assert (Hmap : map fst (<[call := (e, true)]> (excludeIgnoredUris_calls r))
                 = map fst (excludeIgnoredUris_calls r)).
  { change (fst <$> <[call := (e, true)]> (excludeIgnoredUris_calls r)
            = fst <$> excludeIgnoredUris_calls r).
    rewrite list_fmap_insert. apply list_insert_id.
    rewrite list_lookup_fmap, Hc. reflexivity. }
  on_fields r. destruct fulfilled; repeat case_match; cbn; repeat split; exact Hmap.
Qed.

Lemma excludeIgnoredUris_settled_channel (call : nat) (fulfilled : bool) (r : Repository) :
  changeChannel (excludeIgnoredUris_settled call fulfilled r) = changeChannel r /\
  (exists out,
     fileSystemChannel (excludeIgnoredUris_settled call fulfilled r)
     = (clock r, _suspended r, _fireFileSystemChangeDebounced r,
        _pendingFileSystemChange r, out) /\
     map fst out = map fst (excludeIgnoredUris_calls r)) /\
  path (excludeIgnoredUris_settled call fulfilled r) = path r.
Proof.
  destruct (excludeIgnoredUris_settled_frame call fulfilled r)
    as (Hch & Hp & _ & Hd & Hpe & Hout).
  split; [exact Hch |]. split; [| exact Hp].
  exists (excludeIgnoredUris_calls (excludeIgnoredUris_settled call fulfilled r)).
  split; [| exact Hout].
  unfold fileSystemChannel. rewrite Hd, Hpe.
  unfold changeChannel in Hch. injection Hch as -> -> _ _ _. reflexivity.
Qed.

Lemma windows_ok_change (r : Repository) :
  windows_ok r = true ->
  wait (default (debounce 250) (_fireChangeDebounced r)) = 250 /\
  wait (default (debounce 2500) (_fireFileSystemChangeDebounced r)) = 2500.
Proof.
  unfold windows_ok. intros H. apply andb_true_iff in H as [H1 H2].
  destruct (_fireChangeDebounced r) as [d |], (_fireFileSystemChangeDebounced r) as [d' |];
    simpl; rewrite ?N.eqb_eq in *; auto.
Qed.

(** Decide the comparisons of deadlines that a goal or a hypothesis tests. *)
Ltac deadlines :=
  repeat match goal with
         | |- context [N.leb ?a ?b] => destruct (N.leb_spec a b); try lia
         | H : context [N.leb ?a ?b] |- _ => destruct (N.leb_spec a b); try lia
         end.

(** Two calls on one channel, [d] time units apart, on a channel that is not
    suspended and whose debounced function has the window [w]: what has been
    published [dt] time units after the second call. *)
Lemma channel_two_calls {E O : Type} (flush : E -> list O) (w : N)
    (m1 m2 : option E -> E) (now : N) (deb : option Debounced) (pending : option E)
    (out : list O) (d dt : N) :
  wait (default (debounce w) deb) = w ->
  let ch1 := channel_record w m1 (now, false, deb, pending, out) in
  let ch2 := channel_record w m2 (channel_elapse flush d ch1) in
  (d < w -> dt < w -> published (channel_elapse flush dt ch2) = out) /\
  (d < w -> w <= dt ->
   published (channel_elapse flush dt ch2) = out ++ flush (m2 (Some (m1 pending)))) /\
  (w <= d -> w <= dt ->
   published (channel_elapse flush dt ch2)
   = (out ++ flush (m1 pending)) ++ flush (m2 None)).
Proof.
  intros Hw. unfold channel_record, channel_elapse, published, Debounced_due,
    Debounced_call, Debounced_fired.
  destruct deb as [[w0 tm] |]; simpl in Hw; subst; simpl.
  all: repeat split; intros; deadlines; simpl; deadlines; reflexivity.
Qed.

(** Rewrite the path, the change channel, resp. the filesystem channel, of a
    run of methods into the run of the channel functions. *)
Ltac paths :=
  repeat match goal with
         | |- context [path (fireChange ?cs ?x)] =>
             rewrite (proj2 (proj2 (fireChange_channel cs x)))
         | |- context [path (fireFileSystemChange ?u ?x)] =>
             rewrite (proj2 (proj2 (fireFileSystemChange_channel u x)))
         | |- context [path (elapse ?dt ?x)] =>
             rewrite (proj2 (proj2 (elapse_channel dt x)))
         | |- context [path (suspend ?x)] =>
             rewrite (proj2 (proj2 (suspend_channel x)))
         | |- context [path (resume ?x)] =>
             rewrite (proj2 (proj2 (resume_channel x)))
         | |- context [path (excludeIgnoredUris_settled ?c ?f ?x)] =>
             rewrite (proj1 (proj2 (excludeIgnoredUris_settled_frame c f x)))
         end.

Ltac change_channel :=
  repeat match goal with
         | |- context [changeChannel (elapse ?dt ?x)] =>
             rewrite (proj1 (elapse_channel dt x))
         | |- context [changeChannel (fireChange ?cs ?x)] =>
             rewrite (proj1 (fireChange_channel cs x))
         | |- context [changeChannel (fireFileSystemChange ?u ?x)] =>
             rewrite (proj1 (proj2 (fireFileSystemChange_channel u x)))
         | |- context [changeChannel (suspend ?x)] =>
             rewrite (proj1 (suspend_channel x))
         | |- context [changeChannel (resume ?x)] =>
             rewrite (proj1 (resume_channel x))
         end.

Ltac fs_channel :=
  repeat match goal with
         | |- context [fileSystemChannel (elapse ?dt ?x)] =>
             rewrite (proj1 (proj2 (elapse_channel dt x)))
         | |- context [fileSystemChannel (fireChange ?cs ?x)] =>
             rewrite (proj1 (proj2 (fireChange_channel cs x)))
         | |- context [fileSystemChannel (fireFileSystemChange ?u ?x)] =>
             rewrite (proj1 (fireFileSystemChange_channel u x))
         | |- context [fileSystemChannel (suspend ?x)] =>
             rewrite (proj1 (proj2 (suspend_channel x)))
         | |- context [fileSystemChannel (resume ?x)] =>
             rewrite (proj1 (proj2 (resume_channel x)))
         end;
  paths.

Lemma mergeChanges_twice (c1 c2 : list RepositoryChange) (r : Repository) :
  mergeChanges c2 (Some (mergeChanges c1 (_pendingRepoChange r)))
  = mkChangeEvent (fold_left pushChange (c1 ++ c2) (pendingChanges r)).
Proof.
  unfold mergeChanges, pushChanges, pendingChanges. simpl.
  rewrite fold_left_app. destruct (_pendingRepoChange r); reflexivity.
Qed.

Lemma mergeChanges_once (c : list RepositoryChange) (r : Repository) :
  mergeChanges c (_pendingRepoChange r)
  = mkChangeEvent (fold_left pushChange c (pendingChanges r)).
Proof.
  unfold mergeChanges, pushChanges, pendingChanges.
  destruct (_pendingRepoChange r); reflexivity.
Qed.

(** Two calls of [fireChange], [d] time units apart. *)
Lemma fireChange_two_calls (r : Repository) (c1 c2 : list RepositoryChange) (d dt : N) :
  windows_ok r = true ->
  _suspended r = false ->
  let r2 := fireChange c2 (elapse d (fireChange c1 r)) in
  (d < 250 -> dt < 250 -> _onDidChange (elapse dt r2) = _onDidChange r) /\
  (d < 250 -> 250 <= dt ->
   _onDidChange (elapse dt r2)
   = _onDidChange r ++ [mkChangeEvent (fold_left pushChange (c1 ++ c2) (pendingChanges r))]) /\
  (250 <= d -> 250 <= dt ->
   _onDidChange (elapse dt r2)
   = _onDidChange r ++ [mkChangeEvent (fold_left pushChange c1 (pendingChanges r));
                        mkChangeEvent (fold_left pushChange c2 [])]).
Proof.
  intros Hw Hs r2. subst r2.
  destruct (windows_ok_change r Hw) as [Hw1 _].
  destruct (channel_two_calls (fun e => [e]) 250 (mergeChanges c1) (mergeChanges c2)
              (clock r) (_fireChangeDebounced r) (_pendingRepoChange r) (_onDidChange r)
              d dt Hw1) as (H1 & H2 & H3).
  assert (Hpub : forall x, _onDidChange x = published (changeChannel x)) by reflexivity.
  rewrite !(Hpub (elapse dt _)).
  change_channel. unfold changeChannel. rewrite Hs.
  split; [exact H1 |]. split.
  - intros Hd Hdt. rewrite (H2 Hd Hdt), mergeChanges_twice. reflexivity.
  - intros Hd Hdt. rewrite (H3 Hd Hdt), mergeChanges_once, <- app_assoc. reflexivity.
Qed.

(** Two calls of [fireFileSystemChange], [d] time units apart: the runs of
    [fireFileSystemChangeCore] that await [excludeIgnoredUris] afterwards. *)
Lemma fireFileSystemChange_two_calls (r : Repository) (u1 u2 : Uri.t) (d dt : N) :
  windows_ok r = true ->
  _suspended r = false ->
  let r2 := fireFileSystemChange u2 (elapse d (fireFileSystemChange u1 r)) in
  (d < 2500 -> dt < 2500 ->
   excludeIgnoredUris_calls (elapse dt r2) = excludeIgnoredUris_calls r) /\
  (d < 2500 -> 2500 <= dt ->
   excludeIgnoredUris_calls (elapse dt r2)
   = excludeIgnoredUris_calls r ++ [(mkFsEvent (pendingUris r ++ [u1; u2]), false)]) /\
  (2500 <= d -> 2500 <= dt ->
   excludeIgnoredUris_calls (elapse dt r2)
   = excludeIgnoredUris_calls r ++ [(mkFsEvent (pendingUris r ++ [u1]), false);
                                    (mkFsEvent [u2], false)]).
Proof.
  intros Hw Hs r2. subst r2.
  destruct (windows_ok_change r Hw) as [_ Hw2].
  destruct (channel_two_calls (fun e => [(e, false)]) 2500
              (mergeUri u1) (mergeUri u2)
              (clock r) (_fireFileSystemChangeDebounced r) (_pendingFileSystemChange r)
              (excludeIgnoredUris_calls r) d dt Hw2) as (H1 & H2 & H3).
  assert (Hpub : forall x, excludeIgnoredUris_calls x = published (fileSystemChannel x))
    by reflexivity.
  rewrite !(Hpub (elapse dt _)).
  fs_channel. unfold fileSystemChannel. rewrite Hs.
  assert (Hm1 : mergeUri u1 (_pendingFileSystemChange r) = mkFsEvent (pendingUris r ++ [u1]))
    by (unfold mergeUri, pendingUris; destruct (_pendingFileSystemChange r); reflexivity).
  split; [exact H1 |]. split.
  - intros Hd Hdt.
    assert (Hm2 : forall us, mergeUri u2 (Some (mkFsEvent us)) = mkFsEvent (us ++ [u2]))
      by reflexivity.
    rewrite (H2 Hd Hdt), Hm1, Hm2, <- app_assoc. reflexivity.
  - intros Hd Hdt. rewrite (H3 Hd Hdt), Hm1, <- app_assoc. reflexivity.
Qed.

(** ** Suspension *)

Lemma changeChannel_fields (r : Repository) (now : N) (s : bool)
    (d : option Debounced) (p : option RepositoryChangeEvent)
    (out : list RepositoryChangeEvent) :
  changeChannel r = (now, s, d, p, out) ->
  clock r = now /\ _suspended r = s /\ _fireChangeDebounced r = d /\
  _pendingRepoChange r = p /\ _onDidChange r = out.
Proof. unfold changeChannel. intros H. injection H as <- <- <- <- <-. auto. Qed.

(** One call of [fireChange], some time after the last one, on a suspended
    repository whose change timer is not armed: the call is accumulated, the
    timer stays unarmed and nothing is published. *)
Lemma suspended_call (g : N) (cs : list RepositoryChange) (r : Repository) :
  _suspended r = true ->
  deadline (_fireChangeDebounced r) = None ->
  _suspended (fireChange cs (elapse g r)) = true /\
  deadline (_fireChangeDebounced (fireChange cs (elapse g r))) = None /\
  wait (default (debounce 250) (_fireChangeDebounced (fireChange cs (elapse g r))))
  = wait (default (debounce 250) (_fireChangeDebounced r)) /\
  pendingChanges (fireChange cs (elapse g r))
  = fold_left pushChange cs (pendingChanges r) /\
  is_Some (_pendingRepoChange (fireChange cs (elapse g r))) /\
  is_Some (_fireChangeDebounced (fireChange cs (elapse g r))) /\
  _onDidChange (fireChange cs (elapse g r)) = _onDidChange r.
Proof.
  intros Hs Hd.
  assert (Hch : changeChannel (fireChange cs (elapse g r))
                = channel_record 250 (mergeChanges cs)
                    (channel_elapse (fun e => [e]) g (changeChannel r))).
  { change_channel. reflexivity. }
  unfold pendingChanges at 1.
  unfold changeChannel at 2 in Hch. rewrite Hs in Hch.
  unfold channel_elapse, channel_record, Debounced_due in Hch.
  destruct (_fireChangeDebounced r) as [[w tm] |] eqn:Hdeb; simpl in Hd; subst;
    simpl in Hch; apply changeChannel_fields in Hch as (_ & -> & -> & -> & ->);
    rewrite mergeChanges_once; simpl; eauto 10.
Qed.

Lemma fold_left_cons (A B : Type) (f : A -> B -> A) (x : B) (l : list B) (a : A) :
  fold_left f (x :: l) a = fold_left f l (f a x).
Proof. reflexivity. Qed.

Lemma fireChangesAt_cons (g : N) (cs : list RepositoryChange)
    (calls : list (N * list RepositoryChange)) (r : Repository) :
  fireChangesAt ((g, cs) :: calls) r = fireChangesAt calls (fireChange cs (elapse g r)).
Proof. unfold fireChangesAt. rewrite fold_left_cons. reflexivity. Qed.

Lemma suspended_calls (calls : list (N * list RepositoryChange)) (r : Repository) :
  _suspended r = true ->
  deadline (_fireChangeDebounced r) = None ->
  _suspended (fireChangesAt calls r) = true /\
  deadline (_fireChangeDebounced (fireChangesAt calls r)) = None /\
  wait (default (debounce 250) (_fireChangeDebounced (fireChangesAt calls r)))
  = wait (default (debounce 250) (_fireChangeDebounced r)) /\
  pendingChanges (fireChangesAt calls r)
  = fold_left pushChange (concat (map snd calls)) (pendingChanges r) /\
  (calls <> [] ->
   is_Some (_pendingRepoChange (fireChangesAt calls r)) /\
   is_Some (_fireChangeDebounced (fireChangesAt calls r))) /\
  _onDidChange (fireChangesAt calls r) = _onDidChange r.
Proof.
  revert r. induction calls as [| [g cs] calls IH]; intros r Hs Hd.
  - unfold fireChangesAt. cbn [fold_left map concat].
    repeat split; auto; exfalso; auto.
  - destruct (suspended_call g cs r Hs Hd) as (Hs' & Hd' & Hw' & Hp' & Hsome & Hsomed & Ho').
    destruct (IH _ Hs' Hd') as (Hs2 & Hd2 & Hw2 & Hp2 & Hsome2 & Ho2).
    rewrite fireChangesAt_cons. cbn [map concat snd].
    split; [exact Hs2 |]. split; [exact Hd2 |].
    split; [rewrite Hw2; exact Hw' |].
    split; [rewrite Hp2, Hp', fold_left_app; reflexivity |].
    split; [| rewrite Ho2; exact Ho'].
    intros _. destruct calls as [| c calls]; [split; assumption | apply Hsome2; discriminate].
Qed.

(** [resume] on a channel that was suspended with an event pending and no
    timer armed: the timer is armed for one window, and the event is
    published when that window has passed, not before. *)
Lemma channel_resume_flush {E O : Type} (flush : E -> list O) (w now dt : N) (e : E)
    (out : list O) :
  let ch := channel_resume (now, true, Some (mkDebounced w None), Some e, out) in
  ch = (now, false, Some (mkDebounced w (Some (now + w))), Some e, out) /\
  (dt < w -> published (channel_elapse flush dt ch) = out) /\
  (w <= dt -> published (channel_elapse flush dt ch) = out ++ flush e).
Proof.
  unfold channel_resume, channel_elapse, published, Debounced_due, Debounced_call.
  simpl. repeat split; intros; deadlines; reflexivity.
Qed.

(** The change channel at the end of a suspension that began with nothing
    pending and no timer armed, and during which [calls] were recorded. *)
Lemma suspension_channel (r : Repository) (calls : list (N * list RepositoryChange)) (g : N) :
  windows_ok r = true ->
  _pendingRepoChange r = None ->
  deadline (_fireChangeDebounced r) = None ->
  calls <> [] ->
  changeChannel (elapse g (fireChangesAt calls (suspend r)))
  = (clock (elapse g (fireChangesAt calls (suspend r))), true,
     Some (mkDebounced 250 None),
     Some (mkChangeEvent (fold_left pushChange (concat (map snd calls)) [])),
     _onDidChange r).
Proof.
  intros Hw Hp Hd Hne.
  destruct (windows_ok_change r Hw) as [Hw1 _].
  pose proof (proj1 (suspend_channel r)) as Hsus.
  unfold changeChannel at 2 in Hsus. unfold channel_suspend in Hsus.
  apply changeChannel_fields in Hsus as (_ & Hs0 & Hd0 & Hp0 & Ho0).
  assert (Hd0' : deadline (_fireChangeDebounced (suspend r)) = None) by (rewrite Hd0; exact Hd).
  destruct (suspended_calls calls (suspend r) Hs0 Hd0')
    as (Hs1 & Hd1 & Hw' & Hp1 & Hsome & Ho1).
  destruct (Hsome Hne) as [[e He] [[w tm] Hdeb]].
  unfold pendingChanges in Hp1. rewrite He, Hp0, Hp in Hp1.
  rewrite Hdeb, Hd0 in Hw'. rewrite Hdeb in Hd1. simpl in Hw', Hd1.
  rewrite Hw1 in Hw'. subst w tm.
  destruct e as [cs]. simpl in Hp1. subst cs.
  rewrite (proj1 (elapse_channel g _)).
  destruct (elapse_clock g (fireChangesAt calls (suspend r))) as [-> _].
  unfold changeChannel. rewrite Hs1, Hdeb, He, Ho1, Ho0. reflexivity.
Qed.

(** C2, as amended: a suspension that begins with nothing pending and no
    timer armed, during which [fireChange] is called at least once (at any
    times), and that [resume] ends.  Nothing is published during the
    suspension, and nothing is published by [resume] itself: [resume] only
    calls the debounced function, which arms the timer for a window of 250.
    Nothing is published before that window has passed; once it has passed,
    exactly one event has been published, and it holds exactly the changes
    recorded during the suspension, each once. *)
Theorem resume_rearms_debounce (r : Repository) (calls : list (N * list RepositoryChange))
    (g : N) :
  windows_ok r = true ->
  _pendingRepoChange r = None ->
  deadline (_fireChangeDebounced r) = None ->
  calls <> [] ->
  let r1 := elapse g (fireChangesAt calls (suspend r)) in
  let e := mkChangeEvent (fold_left pushChange (concat (map snd calls)) []) in
  _suspended r1 = true /\
  _onDidChange r1 = _onDidChange r /\
  _onDidChange (resume r1) = _onDidChange r /\
  _suspended (resume r1) = false /\
  deadline (_fireChangeDebounced (resume r1)) = Some (clock r1 + 250) /\
  (forall dt, dt < 250 -> _onDidChange (elapse dt (resume r1)) = _onDidChange r) /\
  (forall dt, 250 <= dt -> _onDidChange (elapse dt (resume r1)) = _onDidChange r ++ [e]) /\
  NoDup (changes e) /\
  (forall c, c ∈ changes e <-> exists cs, cs ∈ map snd calls /\ c ∈ cs).
Proof.
  intros Hw Hp Hd Hne r1 e.
  pose proof (suspension_channel r calls g Hw Hp Hd Hne) as Hch. fold r1 in Hch. fold e in Hch.
  pose proof (proj1 (resume_channel r1)) as Hres. rewrite Hch in Hres.
  assert (Hel : forall dt, changeChannel (elapse dt (resume r1))
                           = channel_elapse (fun e => [e]) dt
                               (channel_resume (clock r1, true, Some (mkDebounced 250 None),
                                                Some e, _onDidChange r))).
  { intros dt. rewrite (proj1 (elapse_channel dt _)), Hres. reflexivity. }
  assert (Hpub : forall x, _onDidChange x = published (changeChannel x)) by reflexivity.
  apply changeChannel_fields in Hch as (_ & Hs1 & _ & _ & Ho1).
  split; [exact Hs1 |]. split; [exact Ho1 |].
  destruct (channel_resume_flush (fun e => [e]) 250 (clock r1) 0 e (_onDidChange r))
    as (Hr & _ & _).
  rewrite Hr in Hres.
  apply changeChannel_fields in Hres as (_ & Hs2 & Hd2 & _ & Ho2).
  split; [exact Ho2 |]. split; [exact Hs2 |]. split; [rewrite Hd2; reflexivity |].
  split; [| split].
  - intros dt Hdt. rewrite Hpub, Hel.
    apply (channel_resume_flush (fun e => [e]) 250 (clock r1) dt e (_onDidChange r)), Hdt.
  - intros dt Hdt. rewrite Hpub, Hel.
    apply (channel_resume_flush (fun e => [e]) 250 (clock r1) dt e (_onDidChange r)), Hdt.
  - apply (burst_event (map snd calls) e eq_refl).
Qed.

(** C3, on the failing execution: the watcher reports a change of
    [.git/HEAD] while the repository is visible, which arms the timer; the
    repository is suspended; the watcher reports a new tag, which
    [fireChange] queues; the window of the first call passes.
    [fireChangeCore], run by the timer, does not look at [_suspended]: the
    event with both changes is published while the repository is suspended. *)
Theorem timer_armed_before_suspend_fires :
  let head := Uri.mk "/repo/.git/HEAD" "/repo/.git/HEAD" in
  let tag := Uri.mk "/repo/.git/refs/tags/v1" "/repo/.git/refs/tags/v1" in
  let before :=
    run [RepositoryChanged (Some head); Suspend; RepositoryChanged (Some tag)]
      fresh_repository in
  _suspended before = true /\
  _onDidChange before = [] /\
  _suspended (step before (Elapse 250)) = true /\
  _onDidChange (step before (Elapse 250)) = [mkChangeEvent [Heads; Tags]].
Proof. vm_compute. repeat split. Qed.

(** ** Every step, channel by channel *)

Lemma onRepositoryChanged_channel (uri : option Uri.t) (r : Repository) :
  (exists cs, changeChannel (onRepositoryChanged uri r)
              = channel_record 250 (mergeChanges cs) (changeChannel r)) /\
  fileSystemChannel (onRepositoryChanged uri r) = fileSystemChannel r /\
  path (onRepositoryChanged uri r) = path r.
Proof.
  assert (Hfire : forall cs r0,
            changeChannel r0 = changeChannel r ->
            fileSystemChannel r0 = fileSystemChannel r ->
            path r0 = path r ->
            (exists cs', changeChannel (fireChange cs r0)
                         = channel_record 250 (mergeChanges cs') (changeChannel r)) /\
            fileSystemChannel (fireChange cs r0) = fileSystemChannel r /\
            path (fireChange cs r0) = path r).
  { intros cs r0 H1 H2 H3.
    destruct (fireChange_channel cs r0) as (-> & -> & ->).
    rewrite H1, H2, H3. eauto. }
  unfold onRepositoryChanged.
  destruct uri as [uri |]; [| apply Hfire; reflexivity].
  repeat (case_match; try (apply Hfire; reflexivity)).
Qed.

Lemma onFileSystemChanged_channel (u : Uri.t) (r : Repository) :
  changeChannel (onFileSystemChanged u r) = changeChannel r /\
  fileSystemChannel (onFileSystemChanged u r)
  = (if ignoreGitRegex_test (Uri.fsPath u) then fileSystemChannel r
     else channel_record 2500 (mergeUri u) (fileSystemChannel r)) /\
  path (onFileSystemChanged u r) = path r.
Proof.
  unfold onFileSystemChanged.
  destruct (ignoreGitRegex_test (Uri.fsPath u)); [auto |].
  destruct (fireFileSystemChange_channel u r) as (-> & -> & ->). auto.
Qed.

(** *** Consistency of the channels *)

Lemma channel_ok_record {E O : Type} (w : N) (m : option E -> E) (ch : Channel E O) :
  channel_ok w ch -> channel_ok w (channel_record w m ch).
Proof.
  destruct ch as [[[[now s] d] p] out]. unfold channel_ok, channel_record.
  intros (H1 & H2 & H3). repeat split; eauto.
  intros d0 Hd0. injection Hd0 as <-.
  destruct d as [d |], s; simpl; eauto.
Qed.

Lemma channel_ok_elapse {E O : Type} (w : N) (flush : E -> list O) (dt : N) (ch : Channel E O) :
  channel_ok w ch -> channel_ok w (channel_elapse flush dt ch).
Proof.
  destruct ch as [[[[now s] d] p] out]. unfold channel_ok, channel_elapse.
  intros (H1 & H2 & H3).
  destruct d as [d |]; [| auto]. destruct (Debounced_due (now + dt) d); [| auto].
  simpl. repeat split.
  - intros [e He]. discriminate.
  - intros d0 Hd0. injection Hd0 as <-. simpl. auto.
  - intros [t Ht]. discriminate.
Qed.

Lemma channel_ok_suspend {E O : Type} (w : N) (ch : Channel E O) :
  channel_ok w ch -> channel_ok w (channel_suspend ch).
Proof. destruct ch as [[[[now s] d] p] out]. auto. Qed.

Lemma channel_ok_resume {E O : Type} (w : N) (ch : Channel E O) :
  channel_ok w ch -> channel_ok w (channel_resume ch).
Proof.
  destruct ch as [[[[now s] d] p] out]. unfold channel_ok, channel_resume.
  intros (H1 & H2 & H3). destruct s; simpl; [| auto].
  destruct p as [e |]; [| auto]. destruct d as [d |].
  - simpl. repeat split; eauto.
    intros d0 Hd0. injection Hd0 as <-. simpl. auto.
  - destruct H1 as [d Hd]; [eauto | discriminate].
Qed.

Lemma step_ok (r : Repository) (a : Action) :
  channel_ok 250 (changeChannel r) /\ channel_ok 2500 (fileSystemChannel r) ->
  channel_ok 250 (changeChannel (step r a)) /\
  channel_ok 2500 (fileSystemChannel (step r a)).
Proof.
  intros [Hc Hf]. destruct a as [uri | u | cs | | | dt | call fulfilled]; cbn [step].
  - destruct (onRepositoryChanged_channel uri r) as ((cs & ->) & -> & _).
    split; [apply channel_ok_record |]; assumption.
  - destruct (onFileSystemChanged_channel u r) as (-> & -> & _).
    split; [assumption |]. case_match; [| apply channel_ok_record]; assumption.
  - destruct (fireChange_channel cs r) as (-> & -> & _).
    split; [apply channel_ok_record |]; assumption.
  - destruct (suspend_channel r) as (-> & -> & _).
    split; apply channel_ok_suspend; assumption.
  - destruct (resume_channel r) as (-> & -> & _).
    split; apply channel_ok_resume; assumption.
  - destruct (elapse_channel dt r) as (-> & -> & _).
    split; apply channel_ok_elapse; assumption.
  - destruct (excludeIgnoredUris_settled_channel call fulfilled r)
      as (-> & (out & -> & _) & _).
    split; [exact Hc | exact Hf].
Qed.

Lemma run_ok (trace : list Action) (r : Repository) :
  channel_ok 250 (changeChannel r) /\ channel_ok 2500 (fileSystemChannel r) ->
  channel_ok 250 (changeChannel (run trace r)) /\
  channel_ok 2500 (fileSystemChannel (run trace r)).
Proof.
  unfold run. revert r. induction trace as [| a trace IH]; intros r H.
  - exact H.
  - rewrite fold_left_cons. apply IH, step_ok, H.
Qed.

(** In every state that a repository reaches from its creation, a pending
    event has its debounced function: the calls [this._fireChangeDebounced!()]
    and [this._fireFileSystemChangeDebounced!()] of [resume] find a function.
    Moreover the windows are those of the source, and a timer is armed only
    while an event is pending. *)
Lemma pending_has_debounced (trace : list Action) (now : N) (p : string)
    (supports suspended : bool) :
  let r := run trace (new_Repository now p supports suspended) in
  (is_Some (_pendingRepoChange r) -> is_Some (_fireChangeDebounced r)) /\
  (is_Some (_pendingFileSystemChange r) -> is_Some (_fireFileSystemChangeDebounced r)) /\
  windows_ok r = true /\
  (is_Some (deadline (_fireChangeDebounced r)) -> is_Some (_pendingRepoChange r)).
Proof.
  intros r.
  destruct (run_ok trace (new_Repository now p supports suspended)) as [Hc Hf].
  { split; (repeat split; [intros [? ?] | intros ? ? | intros [? ?]]; discriminate). }
  fold r in Hc, Hf. unfold channel_ok, changeChannel, fileSystemChannel in Hc, Hf.
  destruct Hc as (Hc1 & Hc2 & Hc3), Hf as (Hf1 & Hf2 & _).
  repeat split; auto.
  unfold windows_ok. apply andb_true_iff. split.
  - destruct (_fireChangeDebounced r) as [d |]; [| reflexivity].
    apply N.eqb_eq, Hc2. reflexivity.
  - destruct (_fireFileSystemChangeDebounced r) as [d |]; [| reflexivity].
    apply N.eqb_eq, Hf2. reflexivity.
Qed.

(** ** No URI below [.git] on the filesystem channel *)

Lemma ignoreGitRegex_test_at (s : string) :
  ignoreGitRegex_at s = true -> ignoreGitRegex_test s = true.
Proof. intros H. destruct s; cbn [ignoreGitRegex_test]; rewrite H; reflexivity. Qed.

Lemma ignoreGitRegex_test_app (pre s : string) :
  ignoreGitRegex_at s = true -> ignoreGitRegex_test (pre ++ s)%string = true.
Proof.
  intros H. induction pre as [| c pre IH].
  - apply ignoreGitRegex_test_at, H.
  - change (ignoreGitRegex_at (String c (pre ++ s)%string)
            || ignoreGitRegex_test (pre ++ s)%string = true).
    rewrite IH. apply orb_true_r.
Qed.

(** The regular expression recognises every path in or at a [.git]
    directory. *)
Lemma insideDotGit_ignored (p : string) :
  insideDotGit p -> ignoreGitRegex_test p = true.
Proof.
  intros (pre & rest & -> & Hrest). apply ignoreGitRegex_test_app.
  destruct Hrest as [-> | (c & rest' & -> & [-> | ->])]; reflexivity.
Qed.

Lemma channel_clean_record (u : Uri.t) (ch : Channel RepositoryFileSystemChangeEvent (RepositoryFileSystemChangeEvent * bool)) :
  notIgnored u -> channel_clean ch -> channel_clean (channel_record 2500 (mergeUri u) ch).
Proof.
  destruct ch as [[[[now s] d] p] out]. unfold channel_clean, channel_record.
  intros Hu [Hp Hout]. split; [| exact Hout].
  intros e He. injection He as <-. unfold mergeUri. simpl.
  apply Forall_app. split; [| apply Forall_singleton, Hu].
  destruct p as [e |]; simpl; [apply Hp; reflexivity | apply Forall_nil_2].
Qed.

Lemma channel_clean_suspend (ch : Channel RepositoryFileSystemChangeEvent (RepositoryFileSystemChangeEvent * bool)) :
  channel_clean ch -> channel_clean (channel_suspend ch).
Proof. destruct ch as [[[[now s] d] p] out]. auto. Qed.

Lemma channel_clean_resume (ch : Channel RepositoryFileSystemChangeEvent (RepositoryFileSystemChangeEvent * bool)) :
  channel_clean ch -> channel_clean (channel_resume ch).
Proof.
  destruct ch as [[[[now s] d] p] out]. unfold channel_clean, channel_resume.
  destruct s; auto.
Qed.

Section Filter.

(** What the proofs below need of the external collaborator: it returns
    URIs of the list it was given. *)
Hypothesis excludeIgnoredUris_sub :
  forall (p : string) (us : list Uri.t) (u : Uri.t),
    u ∈ excludeIgnoredUris p us -> u ∈ us.

Lemma fsFlushed_clean (p : string) (us : list Uri.t) :
  Forall notIgnored us ->
  Forall (fun e => Forall notIgnored (uris e)) (fsFlushed p us).
Proof.
  intros Hus. unfold fsFlushed. repeat case_match.
  - apply Forall_nil_2.
  - apply Forall_singleton. simpl. apply Forall_forall. intros u Hu.
    apply excludeIgnoredUris_sub in Hu. rewrite Forall_forall in Hus. auto.
  - apply Forall_singleton. exact Hus.
Qed.

Lemma channel_clean_elapse (dt : N)
    (ch : Channel RepositoryFileSystemChangeEvent (RepositoryFileSystemChangeEvent * bool)) :
  channel_clean ch ->
  channel_clean (channel_elapse (fun e => [(e, false)]) dt ch).
Proof.
  destruct ch as [[[[now s] d] pending] out]. unfold channel_clean, channel_elapse.
  intros [Hp Hout].
  destruct d as [d |]; [| auto]. destruct (Debounced_due (now + dt) d); [| auto].
  split; [intros e He; discriminate |].
  apply Forall_app. split; [exact Hout |].
  destruct pending as [e |]; [| apply Forall_nil_2].
  apply Forall_singleton, Hp. reflexivity.
Qed.

Lemma fireChange_onDidChangeFileSystem (cs : list RepositoryChange) (r : Repository) :
  _onDidChangeFileSystem (fireChange cs r) = _onDidChangeFileSystem r.
Proof.
  unfold fireChange, call_fireChangeDebounced.
  on_fields r. repeat case_match; reflexivity.
Qed.

(** Only the settling of an awaited promise fires on
    [_onDidChangeFileSystem]. *)
Lemma step_onDidChangeFileSystem (r : Repository) (a : Action) :
  match a with
  | ExcludeIgnoredUrisSettled _ _ => True
  | _ => _onDidChangeFileSystem (step r a) = _onDidChangeFileSystem r
  end.
Proof.
  destruct a as [uri | u | cs | | | dt | call fulfilled]; cbn [step]; try exact I.
  - unfold onRepositoryChanged.
    destruct uri as [uri |]; repeat case_match;
      rewrite fireChange_onDidChangeFileSystem; reflexivity.
  - unfold onFileSystemChanged, fireFileSystemChange, call_fireFileSystemChangeDebounced.
    on_fields r. repeat case_match; reflexivity.
  - apply fireChange_onDidChangeFileSystem.
  - reflexivity.
  - unfold resume, call_fireChangeDebounced, call_fireFileSystemChangeDebounced.
    on_fields r. repeat case_match; reflexivity.
  - apply elapse_onDidChangeFileSystem.
Qed.

(** The invariant: no URI that [onFileSystemChanged] drops is pending, given
    to [excludeIgnoredUris] or published. *)
Lemma step_clean (r : Repository) (a : Action) :
  channel_clean (fileSystemChannel r) /\
  Forall (fun e => Forall notIgnored (uris e)) (_onDidChangeFileSystem r) ->
  channel_clean (fileSystemChannel (step r a)) /\
  Forall (fun e => Forall notIgnored (uris e)) (_onDidChangeFileSystem (step r a)).
Proof.
  intros [H Hpub]. pose proof (step_onDidChangeFileSystem r a) as Hsame.
  destruct a as [uri | u | cs | | | dt | call fulfilled]; cbn [step] in *;
    try (rewrite Hsame; split; [| exact Hpub]).
  - destruct (onRepositoryChanged_channel uri r) as (_ & -> & _). exact H.
  - destruct (onFileSystemChanged_channel u r) as (_ & -> & _).
    destruct (ignoreGitRegex_test (Uri.fsPath u)) eqn:Hu; [exact H |].
    apply channel_clean_record; assumption.
  - destruct (fireChange_channel cs r) as (_ & -> & _). exact H.
  - destruct (suspend_channel r) as (_ & -> & _). apply channel_clean_suspend, H.
  - destruct (resume_channel r) as (_ & -> & _). apply channel_clean_resume, H.
  - destruct (elapse_channel dt r) as (_ & -> & _). apply channel_clean_elapse, H.
  - destruct (excludeIgnoredUris_settled_channel call fulfilled r)
      as (_ & (out & -> & Hout) & _).
    unfold fileSystemChannel, channel_clean in H. destruct H as [Hp Hcalls].
    split.
    + split; [exact Hp |].
      change (Forall ((fun e => Forall notIgnored (uris e)) ∘ fst) out).
      apply Forall_fmap. change (fst <$> out) with (map fst out). rewrite Hout.
      apply Forall_fmap. exact Hcalls.
    + destruct (excludeIgnoredUris_calls r !! call) as [[e [|]] |] eqn:Hc.
      * rewrite excludeIgnoredUris_settled_other by (intros e' He'; congruence).
        exact Hpub.
      * destruct (excludeIgnoredUris_settled_awaiting call fulfilled r e Hc) as [-> _].
        apply Forall_app. split; [exact Hpub |].
        destruct fulfilled; [| apply Forall_nil_2].
        apply fsFlushed_clean.
        rewrite Forall_forall in Hcalls. apply (Hcalls (e, false)).
        apply list_elem_of_lookup. exists call. exact Hc.
      * rewrite excludeIgnoredUris_settled_other by (intros e' He'; congruence).
        exact Hpub.
Qed.

Lemma run_clean (trace : list Action) (r : Repository) :
  channel_clean (fileSystemChannel r) /\
  Forall (fun e => Forall notIgnored (uris e)) (_onDidChangeFileSystem r) ->
  channel_clean (fileSystemChannel (run trace r)) /\
  Forall (fun e => Forall notIgnored (uris e)) (_onDidChangeFileSystem (run trace r)).
Proof.
  unfold run. revert r. induction trace as [| a trace IH]; intros r H.
  - exact H.
  - rewrite fold_left_cons. apply IH, step_clean, H.
Qed.

(** C10: whatever happens to a repository after its creation (watcher
    notifications, calls of [fireChange], [suspend], [resume], time passing,
    awaited promises settling),
    no URI that lies in or at a [.git] directory is in the pending
    filesystem event or in a published filesystem event; indeed none that
    [ignoreGitRegex] matches is.  The external [excludeIgnoredUris] is only
    assumed to return URIs of the list it is given. *)
Theorem no_dotgit_uri_on_filesystem_channel (trace : list Action) (now : N) (p : string)
    (supports suspended : bool) :
  let r := run trace (new_Repository now p supports suspended) in
  (forall u, u ∈ pendingUris r ->
     ignoreGitRegex_test (Uri.fsPath u) = false /\ ~ insideDotGit (Uri.fsPath u)) /\
  (forall e u, e ∈ _onDidChangeFileSystem r -> u ∈ uris e ->
     ignoreGitRegex_test (Uri.fsPath u) = false /\ ~ insideDotGit (Uri.fsPath u)).
Proof.
  intros r.
  assert (Hno : forall u, notIgnored u ->
            ignoreGitRegex_test (Uri.fsPath u) = false /\ ~ insideDotGit (Uri.fsPath u)).
  { intros u Hu. split; [exact Hu |]. intros Hin.
    apply insideDotGit_ignored in Hin. unfold notIgnored in Hu. congruence. }
  destruct (run_clean trace (new_Repository now p supports suspended)) as [[Hp _] Hout].
  { split; [split; [intros e He; discriminate | apply Forall_nil_2] | apply Forall_nil_2]. }
  fold r in Hp, Hout. split.
  - intros u Hu. apply Hno. unfold pendingUris in Hu.
    destruct (_pendingFileSystemChange r) as [e |]; [| inversion Hu].
    specialize (Hp e eq_refl). rewrite Forall_forall in Hp. auto.
  - intros e u He Hu. apply Hno.
    rewrite Forall_forall in Hout. specialize (Hout e He).
    rewrite Forall_forall in Hout. auto.
Qed.

End Filter.

(** ** Delegated operations: what a failure of the delegate does *)













Lemma fireFileSystemChange_onDidChangeFileSystem (u : Uri.t) (r : Repository) :
  _onDidChangeFileSystem (fireFileSystemChange u r) = _onDidChangeFileSystem r.
Proof.
  unfold fireFileSystemChange, call_fireFileSystemChangeDebounced.
  on_fields r. repeat case_match; reflexivity.
Qed.

(** C6, as amended: both coalescers are trailing-edge debounces on a
    repository that is not suspended.  The window is 250 for [fireChange] and
    2500 for [fireFileSystemChange]: a call arms the timer for that long.  Of
    two calls less than one window apart nothing is flushed until one window
    after the second call, and there is one flush then; two calls more than
    one window apart are flushed separately.  A flush of the change channel
    publishes the event.  A flush of the filesystem channel is a run of
    [fireFileSystemChangeCore] that takes the accumulated URIs and awaits
    [excludeIgnoredUris]: the passing of time publishes nothing on
    [_onDidChangeFileSystem]; the event (what git keeps of the URIs, none if
    it keeps nothing) is published when the awaited promise is fulfilled, and
    nothing is if it is rejected. *)
Theorem debounce_windows (r : Repository) (c1 c2 : list RepositoryChange)
    (u1 u2 : Uri.t) (d : N) :
  windows_ok r = true ->
  _suspended r = false ->
  (deadline (_fireChangeDebounced (fireChange c1 r)) = Some (clock r + 250) /\
   deadline (_fireFileSystemChangeDebounced (fireFileSystemChange u1 r))
   = Some (clock r + 2500)) /\
  (forall dt,
     let r2 := fireChange c2 (elapse d (fireChange c1 r)) in
     (d < 250 -> dt < 250 -> _onDidChange (elapse dt r2) = _onDidChange r) /\
     (d < 250 -> 250 <= dt ->
      _onDidChange (elapse dt r2)
      = _onDidChange r
        ++ [mkChangeEvent (fold_left pushChange (c1 ++ c2) (pendingChanges r))]) /\
     (250 < d -> 250 <= dt ->
      _onDidChange (elapse dt r2)
      = _onDidChange r ++ [mkChangeEvent (fold_left pushChange c1 (pendingChanges r));
                           mkChangeEvent (fold_left pushChange c2 [])])) /\
  (forall dt,
     let r2 := fireFileSystemChange u2 (elapse d (fireFileSystemChange u1 r)) in
     let call := length (excludeIgnoredUris_calls r) in
     let both := mkFsEvent (pendingUris r ++ [u1; u2]) in
     (d < 2500 -> dt < 2500 ->
      excludeIgnoredUris_calls (elapse dt r2) = excludeIgnoredUris_calls r) /\
     (d < 2500 -> 2500 <= dt ->
      excludeIgnoredUris_calls (elapse dt r2)
      = excludeIgnoredUris_calls r ++ [(both, false)] /\
      _onDidChangeFileSystem (excludeIgnoredUris_settled call true (elapse dt r2))
      = _onDidChangeFileSystem r ++ fsFlushed (path r) (uris both) /\
      _onDidChangeFileSystem (excludeIgnoredUris_settled call false (elapse dt r2))
      = _onDidChangeFileSystem r) /\
     (2500 < d -> 2500 <= dt ->
      excludeIgnoredUris_calls (elapse dt r2)
      = excludeIgnoredUris_calls r ++ [(mkFsEvent (pendingUris r ++ [u1]), false);
                                       (mkFsEvent [u2], false)]) /\
     _onDidChangeFileSystem (elapse dt r2) = _onDidChangeFileSystem r).
Proof.
  intros Hw Hs. destruct (windows_ok_change r Hw) as [Hw1 Hw2].
  split; [| split].
  - rewrite fireChange_debounced, fireFileSystemChange_debounced, Hs.
    cbv zeta. unfold deadline, Debounced_call. cbn [timer].
    rewrite Hw1, Hw2. split; reflexivity.
  - intros dt.
    destruct (fireChange_two_calls r c1 c2 d dt Hw Hs) as (H1 & H2 & H3).
    split; [exact H1 |]. split; [exact H2 |].
    intros Hd. apply H3. lia.
  - intros dt r2 call both.
    destruct (fireFileSystemChange_two_calls r u1 u2 d dt Hw Hs) as (H1 & H2 & H3).
    fold r2 in H1, H2, H3.
    assert (Hpub : _onDidChangeFileSystem (elapse dt r2) = _onDidChangeFileSystem r).
    { subst r2. rewrite elapse_onDidChangeFileSystem, fireFileSystemChange_onDidChangeFileSystem,
        elapse_onDidChangeFileSystem. apply fireFileSystemChange_onDidChangeFileSystem. }
    assert (Hpath : path (elapse dt r2) = path r) by (subst r2; paths; reflexivity).
    split; [exact H1 |]. split; [| split; [| exact Hpub]].
    + intros Hd Hdt. specialize (H2 Hd Hdt). fold both in H2. split; [exact H2 |].
      assert (Hcall : excludeIgnoredUris_calls (elapse dt r2) !! call = Some (both, false)).
      { rewrite H2. apply list_lookup_middle. reflexivity. }
      destruct (excludeIgnoredUris_settled_awaiting call true _ _ Hcall) as [-> _].
      destruct (excludeIgnoredUris_settled_awaiting call false _ _ Hcall) as [-> _].
      rewrite Hpub, Hpath, app_nil_r. split; reflexivity.
    + intros Hd. apply H3. lia.
Qed.

(** ** Invariants of the channels over whole executions *)

(** [onRepositoryChanged] ends in one call of [fireChange], on a repository
    whose channels and callback are those it was given. *)
Lemma onRepositoryChanged_fire (uri : option Uri.t) (r : Repository) :
  exists cs r0,
    onRepositoryChanged uri r = fireChange cs r0 /\
    cs <> [] /\
    changeChannel r0 = changeChannel r /\
    onAnyRepositoryChanged r0 = onAnyRepositoryChanged r.
Proof.
  unfold onRepositoryChanged.
  destruct uri as [uri |]; [| eexists _, _; split; [reflexivity | done]].
  repeat case_match; (eexists _, _; split; [reflexivity | done]).
Qed.

Lemma step_onAny (r : Repository) (a : Action) :
  match a with
  | RepositoryChanged _ | FireChange _ => True
  | _ => onAnyRepositoryChanged (step r a) = onAnyRepositoryChanged r
  end.
Proof.
  destruct a as [uri | u | cs | | | dt | call fulfilled]; cbn [step]; try exact I.
  - unfold onFileSystemChanged, fireFileSystemChange, call_fireFileSystemChangeDebounced.
    on_fields r. repeat case_match; reflexivity.
  - reflexivity.
  - unfold resume, call_fireChangeDebounced, call_fireFileSystemChangeDebounced.
    on_fields r. repeat case_match; reflexivity.
  - unfold elapse, runFileSystemTimer, runChangeTimer, fireChangeCore,
      fireFileSystemChangeCore.
    on_fields r. repeat case_match; reflexivity.
  - apply excludeIgnoredUris_settled_frame.
Qed.

(** A step is a call of [fireChange] with some changes, or it records
    nothing and acts on the change channel as one of the channel functions. *)
Lemma step_change (r : Repository) (a : Action) :
  (exists cs,
     onAnyRepositoryChanged (step r a) = onAnyRepositoryChanged r ++ [mkChangeEvent cs] /\
     changeChannel (step r a) = channel_record 250 (mergeChanges cs) (changeChannel r)) \/
  (onAnyRepositoryChanged (step r a) = onAnyRepositoryChanged r /\
   (changeChannel (step r a) = changeChannel r \/
    changeChannel (step r a) = channel_suspend (changeChannel r) \/
    changeChannel (step r a) = channel_resume (changeChannel r) \/
    exists dt, changeChannel (step r a)
               = channel_elapse (fun e => [e]) dt (changeChannel r))).
Proof.
  pose proof (step_onAny r a) as Hany.
  destruct a as [uri | u | cs | | | dt | call fulfilled]; cbn [step] in *.
  - left. destruct (onRepositoryChanged_fire uri r) as (cs & r0 & -> & _ & Hc & Ho).
    exists cs. rewrite fireChange_onAny, Ho, (proj1 (fireChange_channel cs r0)), Hc. done.
  - right. split; [exact Hany |]. left. apply onFileSystemChanged_channel.
  - left. exists cs. rewrite fireChange_onAny, (proj1 (fireChange_channel cs r)). done.
  - right. split; [exact Hany |]. right. left. apply suspend_channel.
  - right. split; [exact Hany |]. right. right. left. apply resume_channel.
  - right. split; [exact Hany |]. right. right. right. exists dt. apply elapse_channel.
  - right. split; [exact Hany |]. left. apply excludeIgnoredUris_settled_frame.
Qed.

Lemma accounted_record (cs : list RepositoryChange) (ch : Channel RepositoryChangeEvent RepositoryChangeEvent)
    (c : RepositoryChange) :
  accounted ch c \/ c ∈ cs -> accounted (channel_record 250 (mergeChanges cs) ch) c.
Proof.
  destruct ch as [[[[now s] d] p] out]. unfold accounted, channel_record.
  intros [[H | (e & -> & H)] | H]; [left; exact H | |];
    right; eexists; (split; [reflexivity |]);
    unfold mergeChanges, pushChanges; cbn [changes];
    apply fold_pushChange_elem; [left | right]; cbn; auto.
Qed.

Lemma accounted_elapse (dt : N) (ch : Channel RepositoryChangeEvent RepositoryChangeEvent) (c : RepositoryChange) :
  accounted ch c -> accounted (channel_elapse (fun e => [e]) dt ch) c.
Proof.
  destruct ch as [[[[now s] d] p] out]. unfold accounted, channel_elapse.
  intros H. destruct d as [d |]; [| exact H].
  destruct (Debounced_due (now + dt) d); [| exact H].
  left. rewrite map_app, concat_app, elem_of_app.
  destruct H as [H | (e & -> & H)]; [left; exact H |].
  right. cbn. rewrite app_nil_r. exact H.
Qed.

Lemma accounted_suspend_resume (ch : Channel RepositoryChangeEvent RepositoryChangeEvent) (c : RepositoryChange) :
  accounted ch c -> accounted (channel_suspend ch) c /\ accounted (channel_resume ch) c.
Proof.
  destruct ch as [[[[now s] d] p] out]. unfold accounted, channel_suspend, channel_resume.
  intros H. split; [exact H |]. destruct s; exact H.
Qed.

Lemma recorded_snoc (r r' : Repository) (cs : list RepositoryChange) :
  onAnyRepositoryChanged r' = onAnyRepositoryChanged r ++ [mkChangeEvent cs] ->
  recorded r' = recorded r ++ cs.
Proof.
  unfold recorded. intros ->. rewrite map_app, concat_app. cbn. rewrite app_nil_r. done.
Qed.

Lemma step_accounted (r : Repository) (a : Action) :
  (forall c, c ∈ recorded r -> accounted (changeChannel r) c) ->
  forall c, c ∈ recorded (step r a) -> accounted (changeChannel (step r a)) c.
Proof.
  intros Hinv c Hc.
  destruct (step_change r a) as [(cs & Ho & ->) | (Ho & Hch)].
  - rewrite (recorded_snoc _ _ _ Ho), elem_of_app in Hc.
    apply accounted_record. destruct Hc; auto.
  - assert (Hc' : c ∈ recorded r) by (unfold recorded in *; rewrite <- Ho; exact Hc).
    specialize (Hinv c Hc').
    destruct Hch as [-> | [-> | [-> | (dt & ->)]]].
    + exact Hinv.
    + apply accounted_suspend_resume, Hinv.
    + apply accounted_suspend_resume, Hinv.
    + apply accounted_elapse, Hinv.
Qed.

(** X1: no recorded change is lost.  Whatever happens to a repository after
    its creation, every change that was given to [fireChange] (and reported
    to [onAnyRepositoryChanged]) is in a published event or still in the
    pending one. *)
Theorem no_change_is_lost (trace : list Action) (now : N) (p : string)
    (supports suspended : bool) (c : RepositoryChange) :
  let r := run trace (new_Repository now p supports suspended) in
  c ∈ recorded r -> c ∈ publishedChanges r \/ c ∈ pendingChanges r.
Proof.
  intros r Hc.
  assert (Hinv : forall tr r0,
            (forall c, c ∈ recorded r0 -> accounted (changeChannel r0) c) ->
            forall c, c ∈ recorded (run tr r0) -> accounted (changeChannel (run tr r0)) c).
  { unfold run. induction tr as [| a tr IH]; intros r0 H0; [exact H0 |].
    rewrite fold_left_cons. apply IH, step_accounted, H0. }
  assert (Hacc : accounted (changeChannel r) c).
  { apply Hinv; [| exact Hc]. intros c0 H0. inversion H0. }
  unfold accounted, changeChannel in Hacc. unfold publishedChanges, pendingChanges.
  destruct Hacc as [H | (e & -> & H)]; auto.
Qed.

Lemma channel_nodup_record (cs : list RepositoryChange) (ch : Channel RepositoryChangeEvent RepositoryChangeEvent) :
  channel_nodup ch -> channel_nodup (channel_record 250 (mergeChanges cs) ch).
Proof.
  destruct ch as [[[[now s] d] p] out]. unfold channel_nodup, channel_record.
  intros [Hp Hout]. split; [| exact Hout].
  intros e He. injection He as <-. unfold mergeChanges, pushChanges. cbn [changes].
  apply fold_pushChange_NoDup.
  destruct p as [e |]; cbn; [apply Hp; reflexivity | apply NoDup_nil_2].
Qed.

Lemma channel_nodup_elapse (dt : N) (ch : Channel RepositoryChangeEvent RepositoryChangeEvent) :
  channel_nodup ch -> channel_nodup (channel_elapse (fun e => [e]) dt ch).
Proof.
  destruct ch as [[[[now s] d] p] out]. unfold channel_nodup, channel_elapse.
  intros [Hp Hout]. destruct d as [d |]; [| auto].
  destruct (Debounced_due (now + dt) d); [| auto].
  split; [intros e He; discriminate |].
  apply Forall_app. split; [exact Hout |].
  destruct p as [e |]; [| apply Forall_nil_2].
  apply Forall_singleton, Hp. reflexivity.
Qed.

Lemma step_nodup (r : Repository) (a : Action) :
  channel_nodup (changeChannel r) -> channel_nodup (changeChannel (step r a)).
Proof.
  intros H.
  destruct (step_change r a) as [(cs & _ & ->) | (_ & [-> | [-> | [-> | (dt & ->)]]])].
  - apply channel_nodup_record, H.
  - exact H.
  - destruct (changeChannel r) as [[[[now s] d] p] out]. exact H.
  - destruct (changeChannel r) as [[[[now s] d] p] out].
    unfold channel_resume. destruct s; exact H.
  - apply channel_nodup_elapse, H.
Qed.

(** X2: set semantics throughout.  Whatever happens to a repository after
    its creation, no published event and no pending event lists a change
    twice. *)
Theorem events_never_repeat_a_change (trace : list Action) (now : N) (p : string)
    (supports suspended : bool) :
  let r := run trace (new_Repository now p supports suspended) in
  NoDup (pendingChanges r) /\
  forall e, e ∈ _onDidChange r -> NoDup (changes e).
Proof.
  intros r.
  assert (Hinv : forall tr r0, channel_nodup (changeChannel r0) ->
                               channel_nodup (changeChannel (run tr r0))).
  { unfold run. induction tr as [| a tr IH]; intros r0 H0; [exact H0 |].
    rewrite fold_left_cons. apply IH, step_nodup, H0. }
  destruct (Hinv trace (new_Repository now p supports suspended)) as [Hp Hout].
  { split; [intros e He; discriminate | apply Forall_nil_2]. }
  fold r in Hp, Hout. split.
  - unfold pendingChanges. destruct (_pendingRepoChange r) as [e |];
      [apply Hp; reflexivity | apply NoDup_nil_2].
  - intros e He. rewrite Forall_forall in Hout. apply Hout, He.
Qed.

(** *** A pending event of a visible repository is on its way *)

Lemma channel_live_record {E O : Type} (w : N) (m : option E -> E) (ch : Channel E O) :
  channel_ok w ch -> channel_live w (channel_record w m ch).
Proof.
  destruct ch as [[[[now s] d] p] out]. unfold channel_ok, channel_live, channel_record.
  intros (_ & Hw & _) -> _. exists (now + w). split; [| lia].
  unfold deadline, Debounced_call. cbn [timer].
  destruct d as [d |]; cbn; [rewrite (Hw d eq_refl) |]; reflexivity.
Qed.

Lemma channel_live_elapse {E O : Type} (w : N) (flush : E -> list O) (dt : N)
    (ch : Channel E O) :
  channel_live w ch -> channel_live w (channel_elapse flush dt ch).
Proof.
  destruct ch as [[[[now s] d] p] out]. unfold channel_live, channel_elapse.
  intros H. destruct d as [d |]; cbn.
  - destruct (Debounced_due (now + dt) d).
    + intros _ [e He]. discriminate.
    + intros Hs Hp. destruct (H Hs Hp) as (t & Ht & Hle). exists t. split; [exact Ht | lia].
  - intros Hs Hp. destruct (H Hs Hp) as (t & Ht & Hle). discriminate.
Qed.

Lemma channel_live_suspend {E O : Type} (w : N) (ch : Channel E O) :
  channel_live w (channel_suspend ch).
Proof. destruct ch as [[[[now s] d] p] out]. intros H. discriminate. Qed.

Lemma channel_live_resume {E O : Type} (w : N) (ch : Channel E O) :
  channel_ok w ch -> channel_live w ch -> channel_live w (channel_resume ch).
Proof.
  destruct ch as [[[[now s] d] p] out]. unfold channel_ok, channel_live, channel_resume.
  intros (Hd & Hw & _) H. destruct s; cbn; [| exact H].
  intros _ Hp. destruct p as [e |]; [| destruct Hp; discriminate].
  destruct (Hd Hp) as [d0 ->]. cbn. exists (now + w). split; [| lia].
  rewrite (Hw d0 eq_refl). reflexivity.
Qed.

Lemma step_live (r : Repository) (a : Action) :
  (channel_ok 250 (changeChannel r) /\ channel_ok 2500 (fileSystemChannel r)) ->
  (channel_live 250 (changeChannel r) /\ channel_live 2500 (fileSystemChannel r)) ->
  channel_live 250 (changeChannel (step r a)) /\
  channel_live 2500 (fileSystemChannel (step r a)).
Proof.
  intros [Hoc Hof] [Hc Hf].
  destruct a as [uri | u | cs | | | dt | call fulfilled]; cbn [step].
  - destruct (onRepositoryChanged_channel uri r) as ((cs & ->) & -> & _).
    split; [apply channel_live_record |]; assumption.
  - destruct (onFileSystemChanged_channel u r) as (-> & -> & _).
    split; [assumption |]. case_match; [| apply channel_live_record]; assumption.
  - destruct (fireChange_channel cs r) as (-> & -> & _).
    split; [apply channel_live_record |]; assumption.
  - destruct (suspend_channel r) as (-> & -> & _).
    split; apply channel_live_suspend.
  - destruct (resume_channel r) as (-> & -> & _).
    split; apply channel_live_resume; assumption.
  - destruct (elapse_channel dt r) as (-> & -> & _).
    split; apply channel_live_elapse; assumption.
  - destruct (excludeIgnoredUris_settled_channel call fulfilled r)
      as (-> & (out & -> & _) & _).
    split; [exact Hc | exact Hf].
Qed.

Lemma run_live (trace : list Action) (r : Repository) :
  (channel_ok 250 (changeChannel r) /\ channel_ok 2500 (fileSystemChannel r)) ->
  (channel_live 250 (changeChannel r) /\ channel_live 2500 (fileSystemChannel r)) ->
  channel_live 250 (changeChannel (run trace r)) /\
  channel_live 2500 (fileSystemChannel (run trace r)).
Proof.
  unfold run. revert r. induction trace as [| a trace IH]; intros r Hok H.
  - exact H.
  - rewrite fold_left_cons. apply IH; [apply step_ok, Hok | apply step_live; assumption].
Qed.

Lemma channel_live_flush {E O : Type} (w : N) (flush : E -> list O) (dt : N)
    (now : N) (d : option Debounced) (e : E) (out : list O) :
  channel_live w (now, false, d, Some e, out) ->
  w <= dt ->
  channel_elapse flush dt (now, false, d, Some e, out)
  = (now + dt, false, Debounced_fired <$> d, None, out ++ flush e).
Proof.
  unfold channel_live, channel_elapse. intros H Hdt.
  destruct (H eq_refl (ltac:(eauto))) as (t & Ht & Hle).
  destruct d as [d |]; [| discriminate]. cbn in Ht.
  unfold Debounced_due. rewrite Ht.
  destruct (N.leb_spec t (now + dt)); [reflexivity | lia].
Qed.

(** X3: a pending event of a visible repository is on its way.  In every
    state that a repository reaches from its creation, if it is not suspended
    and a change event is pending, the event is published as soon as one
    window of 250 has passed with no further call.  A pending filesystem
    event is taken by [fireFileSystemChangeCore] as soon as one window of
    2500 has passed: the accumulator is empty then and the event is with
    [excludeIgnoredUris], and nothing has been published yet.  What git
    keeps of it is published when that promise is fulfilled; nothing is
    published if the promise is rejected. *)
Theorem pending_event_is_flushed_within_one_window (trace : list Action) (now : N)
    (p : string) (supports suspended : bool) :
  let r := run trace (new_Repository now p supports suspended) in
  _suspended r = false ->
  (forall e dt, _pendingRepoChange r = Some e -> 250 <= dt ->
     _onDidChange (elapse dt r) = _onDidChange r ++ [e] /\
     _pendingRepoChange (elapse dt r) = None) /\
  (forall e dt, _pendingFileSystemChange r = Some e -> 2500 <= dt ->
     let call := length (excludeIgnoredUris_calls r) in
     _pendingFileSystemChange (elapse dt r) = None /\
     excludeIgnoredUris_calls (elapse dt r) = excludeIgnoredUris_calls r ++ [(e, false)] /\
     _onDidChangeFileSystem (elapse dt r) = _onDidChangeFileSystem r /\
     _onDidChangeFileSystem (excludeIgnoredUris_settled call true (elapse dt r))
     = _onDidChangeFileSystem r ++ fsFlushed (path r) (uris e) /\
     _onDidChangeFileSystem (excludeIgnoredUris_settled call false (elapse dt r))
     = _onDidChangeFileSystem r).
Proof.
  intros r Hs.
  assert (Hok0 : channel_ok 250 (changeChannel (new_Repository now p supports suspended)) /\
                 channel_ok 2500 (fileSystemChannel (new_Repository now p supports suspended))).
  { split; (repeat split; [intros [? ?] | intros ? ? | intros [? ?]]; discriminate). }
  destruct (run_live trace _ Hok0) as [Hc Hf].
  { split; intros _ [? ?]; discriminate. }
  fold r in Hc, Hf. unfold changeChannel, fileSystemChannel in Hc, Hf.
  rewrite Hs in Hc, Hf. split.
  - intros e dt He Hdt. rewrite He in Hc.
    pose proof (proj1 (elapse_channel dt r)) as Hch.
    unfold changeChannel at 2 in Hch. rewrite Hs, He in Hch.
    rewrite (channel_live_flush 250 _ dt _ _ _ _ Hc Hdt) in Hch.
    apply changeChannel_fields in Hch as (_ & _ & _ & -> & ->). done.
  - intros e dt He Hdt call. rewrite He in Hf.
    pose proof (proj1 (proj2 (elapse_channel dt r))) as Hch.
    unfold fileSystemChannel at 2 in Hch. rewrite Hs, He in Hch.
    rewrite (channel_live_flush 2500 _ dt _ _ _ _ Hf Hdt) in Hch.
    unfold fileSystemChannel in Hch. injection Hch as _ _ _ Hpending Hcalls.
    assert (Hcall : excludeIgnoredUris_calls (elapse dt r) !! call = Some (e, false)).
    { rewrite Hcalls. apply list_lookup_middle. reflexivity. }
    destruct (excludeIgnoredUris_settled_awaiting call true _ _ Hcall) as [-> _].
    destruct (excludeIgnoredUris_settled_awaiting call false _ _ Hcall) as [-> _].
    rewrite elapse_onDidChangeFileSystem, (proj2 (proj2 (elapse_channel dt r))), app_nil_r.
    auto.
Qed.

End Methods.

(** ** The gate *)

Lemma gate_call_inflight (key key' : string) (p : nat) (g : Gate.t) :
  Gate.inflight g !! key = Some p ->
  Gate.inflight (snd (Gate.call key' g)) !! key = Some p /\
  exists extra,
    Gate.started (snd (Gate.call key' g)) = Gate.started g ++ extra /\
    Forall (fun e => fst e <> key) extra.
Proof.
  intros Hin. unfold Gate.call.
  destruct (Gate.inflight g !! key') as [p' |] eqn:Hk'; simpl.
  - split; [exact Hin |]. exists []. rewrite app_nil_r. split; [reflexivity | constructor].
  - assert (Hne : key' <> key) by (intros ->; congruence).
    split; [rewrite lookup_insert_ne by exact Hne; exact Hin |].
    exists [(key', Gate.fresh g)]. split; [reflexivity |].
    apply Forall_singleton. exact Hne.
Qed.

Lemma gate_run_inflight (key : string) (p : nat) (between : list Gate.op) (g : Gate.t) :
  Gate.inflight g !! key = Some p ->
  Forall (fun o => o <> Gate.Settle key) between ->
  Gate.inflight (Gate.run between g) !! key = Some p /\
  exists extra,
    Gate.started (Gate.run between g) = Gate.started g ++ extra /\
    Forall (fun e => fst e <> key) extra.
Proof.
  unfold Gate.run. revert g.
  induction between as [| o between IH]; intros g Hin Hns.
  - split; [exact Hin |]. exists []. rewrite app_nil_r. split; [reflexivity | constructor].
  - rewrite fold_left_cons. apply Forall_cons in Hns as [Ho Hns].
    assert (Hstep : Gate.inflight (Gate.step g o) !! key = Some p /\
                    exists extra, Gate.started (Gate.step g o) = Gate.started g ++ extra /\
                                  Forall (fun e => fst e <> key) extra).
    { destruct o as [key' | key']; cbn [Gate.step].
      - apply gate_call_inflight, Hin.
      - unfold Gate.settle. cbn [Gate.inflight Gate.started].
        assert (Hne : key' <> key) by congruence.
        split; [rewrite lookup_delete_ne by exact Hne; exact Hin |].
        exists []. rewrite app_nil_r. split; [reflexivity | constructor]. }
    destruct Hstep as (Hin' & extra1 & Hs1 & Hf1).
    destruct (IH _ Hin' Hns) as (Hin2 & extra2 & Hs2 & Hf2).
    split; [exact Hin2 |]. exists (extra1 ++ extra2).
    rewrite Hs2, Hs1, app_assoc. split; [reflexivity |].
    apply Forall_app. split; assumption.
Qed.

Lemma filter_other_keys (key : string) (extra : list (string * nat)) :
  Forall (fun e => fst e <> key) extra ->
  filter (fun e => fst e = key) extra = [].
Proof.
  induction 1 as [| e extra He _ IH]; [reflexivity |].
  rewrite filter_cons_False by exact He. exact IH.
Qed.

(** C9: two calls of a gated method with the same derived key, the second
    made while the invocation started by the first is still in flight
    (whatever else is called or completes in between).  The second call
    receives the very promise the first call received, and the wrapped method
    has been started exactly once for that key. *)
Theorem gate_coalesces_concurrent_calls (g : Gate.t) (key : string)
    (between : list Gate.op) :
  Gate.inflight g !! key = None ->
  Forall (fun o => o <> Gate.Settle key) between ->
  let first := Gate.call key g in
  let second := Gate.call key (Gate.run between (snd first)) in
  fst second = fst first /\
  Gate.startedSince (length (Gate.started g)) key (snd second) = [(key, fst first)].
Proof.
  intros Hfree Hns first second.
  assert (Hfirst : first = (Gate.fresh g,
                            Gate.mk (<[key := Gate.fresh g]> (Gate.inflight g))
                              (Gate.started g ++ [(key, Gate.fresh g)])
                              (S (Gate.fresh g)))).
  { unfold first, Gate.call. rewrite Hfree. reflexivity. }
  assert (Hin : Gate.inflight (snd first) !! key = Some (Gate.fresh g)).
  { rewrite Hfirst. cbn [snd Gate.inflight]. apply lookup_insert_eq. }
  destruct (gate_run_inflight key _ between _ Hin Hns) as (Hin' & extra & Hst & Hex).
  assert (Hsecond : second = (Gate.fresh g, Gate.run between (snd first))).
  { unfold second, Gate.call. rewrite Hin'. reflexivity. }
  rewrite Hsecond. cbn [fst snd]. split; [rewrite Hfirst; reflexivity |].
  unfold Gate.startedSince. rewrite Hst, Hfirst. cbn [snd fst Gate.started].
  rewrite <- app_assoc, drop_app_length, filter_app, (filter_other_keys key extra Hex).
  rewrite filter_cons_True by reflexivity. reflexivity.
Qed.

(** ** The theorems at concrete inputs *)

(** C1 on the path [.git/refs/remotes/origin/main]: it is reported as
    remotes alone; heads is neither reported nor pending. *)
Lemma remotes_ref_reports_no_heads :
  let uri := Uri.mk "/repo/.git/refs/remotes/origin/main"
               "/repo/.git/refs/remotes/origin/main" in
  let r := onRepositoryChanged (Some uri) fresh_repository in
  onAnyRepositoryChanged r = [mkChangeEvent [Remotes]] /\
  pendingChanges r = [Remotes] /\
  ~ Heads ∈ pendingChanges r.
Proof.
  vm_compute. split; [reflexivity |]. split; [reflexivity |].
  intros H. apply list_elem_of_singleton in H. discriminate.
Qed.

Lemma remotes_ref_classification_witness :
  let uri := Uri.mk "/repo/.git/refs/remotes/origin/main"
               "/repo/.git/refs/remotes/origin/main" in
  exactFileRule (Uri.path uri) = false /\
  refsRegex_exec (Uri.path uri) = Some "remotes" /\
  onAnyRepositoryChanged (onRepositoryChanged (Some uri) fresh_repository)
  = onAnyRepositoryChanged fresh_repository ++ [mkChangeEvent [Remotes]] /\
  pendingChanges (onRepositoryChanged (Some uri) fresh_repository)
  = fold_left pushChange [Remotes] (pendingChanges fresh_repository) /\
  _branch (onRepositoryChanged (Some uri) fresh_repository) = None /\
  _remotes (onRepositoryChanged (Some uri) fresh_repository) = None.
Proof.
  intros uri. split; [reflexivity |]. split; [reflexivity |].
  apply (remotes_ref_classification fresh_repository uri); reflexivity.
Defined.

(** C2 on a small execution: after [suspend], two calls of [fireChange] and
    [resume], the event is still pending and nothing has been published. *)
Lemma resume_publishes_nothing_at_once :
  let r1 := fireChange [Tags] (fireChange [Heads] (suspend fresh_repository)) in
  _pendingRepoChange r1 = Some (mkChangeEvent [Heads; Tags]) /\
  _onDidChange (resume r1) = [] /\
  _pendingRepoChange (resume r1) = Some (mkChangeEvent [Heads; Tags]) /\
  deadline (_fireChangeDebounced (resume r1)) = Some 250.
Proof. vm_compute. repeat split. Qed.

Lemma resume_rearms_debounce_witness :
  let calls := [(10, [Heads]); (20, [Tags; Heads])] in
  let r1 := elapse 5 (fireChangesAt calls (suspend fresh_repository)) in
  let e := mkChangeEvent (fold_left pushChange (concat (map snd calls)) []) in
  (windows_ok fresh_repository = true /\
   _pendingRepoChange fresh_repository = None /\
   deadline (_fireChangeDebounced fresh_repository) = None /\
   calls <> []) /\
  _suspended r1 = true /\
  _onDidChange r1 = _onDidChange fresh_repository /\
  _onDidChange (resume r1) = _onDidChange fresh_repository /\
  _suspended (resume r1) = false /\
  deadline (_fireChangeDebounced (resume r1)) = Some (clock r1 + 250) /\
  (forall dt, dt < 250 ->
     _onDidChange (elapse dt (resume r1)) = _onDidChange fresh_repository) /\
  (forall dt, 250 <= dt ->
     _onDidChange (elapse dt (resume r1)) = _onDidChange fresh_repository ++ [e]) /\
  NoDup (changes e) /\
  (forall c, c ∈ changes e <-> exists cs, cs ∈ map snd calls /\ c ∈ cs).
Proof.
  intros calls r1 e.
  split; [repeat split; discriminate |].
  apply (resume_rearms_debounce fresh_repository calls 5);
    [reflexivity | reflexivity | reflexivity | discriminate].
Defined.


(** C5 on the path [.git/refs/heads/foo.git/index], the ref of the branch
    [foo.git/index]: it is under [.git/refs/heads] and the refs pattern
    would capture [heads], but the rule for [.git/index] is tried first.  The
    path is reported as index, and the branch cache is kept. *)
Lemma heads_ref_taken_by_index_rule :
  let uri := Uri.mk "/repo/.git/refs/heads/foo.git/index"
               "/repo/.git/refs/heads/foo.git/index" in
  let r := set_branch (Some (Resolved None)) fresh_repository in
  refsRegex_exec (Uri.path uri) = Some "heads" /\
  exactFileRule (Uri.path uri) = true /\
  onAnyRepositoryChanged (onRepositoryChanged (Some uri) r) = [mkChangeEvent [Index]] /\
  pendingChanges (onRepositoryChanged (Some uri) r) = [Index] /\
  ~ Heads ∈ pendingChanges (onRepositoryChanged (Some uri) r) /\
  _branch (onRepositoryChanged (Some uri) r) = Some (Resolved None).
Proof.
  vm_compute. repeat split.
  intros H. apply list_elem_of_singleton in H. discriminate.
Qed.

Lemma classifier_rule_table_witness :
  let config := Uri.mk "/repo/.git/config" "/repo/.git/config" in
  let head := Uri.mk "/repo/.git/refs/heads/main" "/repo/.git/refs/heads/main" in
  let other := Uri.mk "/repo/.git/description" "/repo/.git/description" in
  (endsWith (Uri.path config) ".git/config" = true /\
   exactFileRule (Uri.path head) = false /\
   refsRegex_exec (Uri.path head) = Some "heads" /\
   exactFileRule (Uri.path other) = false /\
   refsRegex_exec (Uri.path other) = None) /\
  (onAnyRepositoryChanged (onRepositoryChanged (Some config) fresh_repository)
   = onAnyRepositoryChanged fresh_repository ++ [mkChangeEvent [Config; Remotes]] /\
   pendingChanges (onRepositoryChanged (Some config) fresh_repository)
   = fold_left pushChange [Config; Remotes] (pendingChanges fresh_repository) /\
   _remotes (onRepositoryChanged (Some config) fresh_repository) = None) /\
  (onAnyRepositoryChanged (onRepositoryChanged (Some head) fresh_repository)
   = onAnyRepositoryChanged fresh_repository ++ [mkChangeEvent [Heads]] /\
   pendingChanges (onRepositoryChanged (Some head) fresh_repository)
   = fold_left pushChange [Heads] (pendingChanges fresh_repository) /\
   _branch (onRepositoryChanged (Some head) fresh_repository) = None) /\
  (onAnyRepositoryChanged (onRepositoryChanged (Some other) fresh_repository)
   = onAnyRepositoryChanged fresh_repository ++ [mkChangeEvent [Unknown]] /\
   pendingChanges (onRepositoryChanged (Some other) fresh_repository)
   = fold_left pushChange [Unknown] (pendingChanges fresh_repository)).
Proof.
  intros config head other.
  split; [repeat split; reflexivity |].
  split; [| split].
  - apply (classifier_rule_table fresh_repository config). reflexivity.
  - apply (classifier_rule_table fresh_repository head); reflexivity.
  - apply (classifier_rule_table fresh_repository other); reflexivity.
Defined.

Lemma debounce_windows_witness :
  let keep := fun (_ : string) (us : list Uri.t) => us in
  let u1 := Uri.mk "/repo/a.ts" "/repo/a.ts" in
  let u2 := Uri.mk "/repo/b.ts" "/repo/b.ts" in
  let near := fireChange [Tags] (elapse 100 (fireChange [Heads] fresh_repository)) in
  let far := fireChange [Tags] (elapse 300 (fireChange [Heads] fresh_repository)) in
  let fsNear := fireFileSystemChange u2
                  (elapse 1000 (fireFileSystemChange u1 fresh_repository)) in
  let fsFar := fireFileSystemChange u2
                 (elapse 3000 (fireFileSystemChange u1 fresh_repository)) in
  (windows_ok fresh_repository = true /\ _suspended fresh_repository = false) /\
  _onDidChange (elapse 249 near) = [] /\
  _onDidChange (elapse 250 near) = [mkChangeEvent [Heads; Tags]] /\
  _onDidChange (elapse 250 far) = [mkChangeEvent [Heads]; mkChangeEvent [Tags]] /\
  excludeIgnoredUris_calls (elapse 2499 fsNear) = [] /\
  excludeIgnoredUris_calls (elapse 2500 fsNear) = [(mkFsEvent [u1; u2], false)] /\
  _onDidChangeFileSystem (elapse 2500 fsNear) = [] /\
  _onDidChangeFileSystem (excludeIgnoredUris_settled keep 0 true (elapse 2500 fsNear))
  = [mkFsEvent [u1; u2]] /\
  _onDidChangeFileSystem (excludeIgnoredUris_settled keep 0 false (elapse 2500 fsNear))
  = [] /\
  excludeIgnoredUris_calls (elapse 2500 fsFar)
  = [(mkFsEvent [u1], false); (mkFsEvent [u2], false)].
Proof.
  intros keep u1 u2 near far fsNear fsFar.
  assert (Hw : windows_ok fresh_repository = true) by reflexivity.
  assert (Hs : _suspended fresh_repository = false) by reflexivity.
  split; [split; [exact Hw | exact Hs] |].
  destruct (debounce_windows keep fresh_repository [Heads] [Tags] u1 u2 100 Hw Hs)
    as (_ & Hnear & _).
  destruct (debounce_windows keep fresh_repository [Heads] [Tags] u1 u2 300 Hw Hs)
    as (_ & Hfar & _).
  destruct (debounce_windows keep fresh_repository [Heads] [Tags] u1 u2 1000 Hw Hs)
    as (_ & _ & HfsNear).
  destruct (debounce_windows keep fresh_repository [Heads] [Tags] u1 u2 3000 Hw Hs)
    as (_ & _ & HfsFar).
  assert (Hlt : 100 < 250 /\ 249 < 250 /\ 1000 < 2500 /\ 2499 < 2500) by lia.
  assert (Hle : 250 <= 250 /\ 250 < 300 /\ 2500 <= 2500 /\ 2500 < 3000) by lia.
  destruct Hlt as (L1 & L2 & L3 & L4), Hle as (G1 & G2 & G3 & G4).
  destruct (Hnear 249) as (Hquiet & _ & _).
  destruct (Hnear 250) as (_ & Hone & _).
  destruct (Hfar 250) as (_ & _ & Htwo).
  destruct (HfsNear 2499) as (HfsQuiet & _ & _ & _).
  destruct (HfsNear 2500) as (_ & HfsOne & _ & HfsPublished).
  destruct (HfsOne L3 G3) as (Hcalls & Hfulfilled & Hrejected).
  destruct (HfsFar 2500) as (_ & _ & HfsTwo & _).
  split; [exact (Hquiet L1 L2) |].
  split; [exact (Hone L1 G1) |].
  split; [exact (Htwo G2 G1) |].
  split; [exact (HfsQuiet L3 L4) |].
  split; [exact Hcalls |].
  split; [exact HfsPublished |].
  split; [exact Hfulfilled |].
  split; [exact Hrejected |].
  exact (HfsTwo G4 G3).
Defined.

(** C6 on a suspended repository: two calls of [fireChange] 300 apart and
    two calls of [fireFileSystemChange] 3000 apart.  The calls are
    accumulated, no timer is armed, and however long one waits there is no
    flush: nothing is published and nothing is given to
    [excludeIgnoredUris]. *)
Lemma suspended_calls_are_not_flushed :
  let u1 := Uri.mk "/repo/a.ts" "/repo/a.ts" in
  let u2 := Uri.mk "/repo/b.ts" "/repo/b.ts" in
  let r := new_Repository 0 "/repo" true true in
  let r2 := fireChange [Tags] (elapse 300 (fireChange [Heads] r)) in
  let r4 := fireFileSystemChange u2 (elapse 3000 (fireFileSystemChange u1 r2)) in
  let later := elapse 100000 r4 in
  _suspended later = true /\
  _onDidChange later = [] /\
  pendingChanges later = [Heads; Tags] /\
  deadline (_fireChangeDebounced later) = None /\
  excludeIgnoredUris_calls later = [] /\
  _onDidChangeFileSystem later = [] /\
  pendingUris later = [u1; u2] /\
  deadline (_fireFileSystemChangeDebounced later) = None.
Proof. vm_compute. repeat split. Qed.

Lemma flush_nothing_pending_witness :
  (_pendingRepoChange fresh_repository = None /\
   _pendingFileSystemChange fresh_repository = None) /\
  (fireChangeCore fresh_repository = fresh_repository /\
   _onDidChange (runChangeTimer fresh_repository) = _onDidChange fresh_repository) /\
  (fireFileSystemChangeCore fresh_repository = fresh_repository /\
   _onDidChangeFileSystem (runFileSystemTimer fresh_repository)
   = _onDidChangeFileSystem fresh_repository /\
   excludeIgnoredUris_calls (runFileSystemTimer fresh_repository)
   = excludeIgnoredUris_calls fresh_repository).
Proof.
  split; [split; reflexivity |].
  split; apply (flush_nothing_pending fresh_repository); reflexivity.
Defined.



Lemma gate_coalesces_concurrent_calls_witness :
  let between := [Gate.Call "pull"; Gate.Settle "pull"; Gate.Call "fetch"] in
  let first := Gate.call "fetch" Gate.empty in
  let second := Gate.call "fetch" (Gate.run between (snd first)) in
  (Gate.inflight Gate.empty !! "fetch" = None /\
   Forall (fun o => o <> Gate.Settle "fetch") between) /\
  fst second = fst first /\
  Gate.startedSince (length (Gate.started Gate.empty)) "fetch" (snd second)
  = [("fetch", fst first)].
Proof.
  intros between first second.
  assert (Hfree : Gate.inflight Gate.empty !! "fetch" = None) by apply lookup_empty.
  assert (Hns : Forall (fun o => o <> Gate.Settle "fetch") between)
    by (repeat constructor; discriminate).
  split; [split; assumption |].
  apply (gate_coalesces_concurrent_calls Gate.empty "fetch" between Hfree Hns).
Defined.

Lemma no_dotgit_uri_on_filesystem_channel_witness :
  let keep := fun (_ : string) (us : list Uri.t) => us in
  let trace := [FileSystemChanged (Uri.mk "/repo/.git/index" "/repo/.git/index");
                FileSystemChanged (Uri.mk "/repo/src/a.ts" "/repo/src/a.ts");
                Elapse 2500;
                ExcludeIgnoredUrisSettled 0 true;
                FileSystemChanged (Uri.mk "/repo/.git" "/repo/.git");
                FileSystemChanged (Uri.mk "/repo/b.ts" "/repo/b.ts")] in
  let r := run keep trace fresh_repository in
  (forall (p : string) (us : list Uri.t) (u : Uri.t), u ∈ keep p us -> u ∈ us) /\
  (forall u, u ∈ pendingUris r ->
     ignoreGitRegex_test (Uri.fsPath u) = false /\ ~ insideDotGit (Uri.fsPath u)) /\
  (forall e u, e ∈ _onDidChangeFileSystem r -> u ∈ uris e ->
     ignoreGitRegex_test (Uri.fsPath u) = false /\ ~ insideDotGit (Uri.fsPath u)).
Proof.
  intros keep trace r.
  assert (Hsub : forall (p : string) (us : list Uri.t) (u : Uri.t), u ∈ keep p us -> u ∈ us)
    by (intros p us u H; exact H).
  split; [exact Hsub |].
  apply (no_dotgit_uri_on_filesystem_channel keep Hsub trace 0 "/repo" true false).
Defined.

(** ** More of the class: what an event tells its subscribers *)

Ltac fields r :=
  destruct r as [clk pth sup br rem remd lf fcd ffd pfs prc sus upd odc odf oar le ms eic];
  cbn in *.

Lemma includes_spec (c : RepositoryChange) (l : list RepositoryChange) :
  includes c l = true <-> c ∈ l.
Proof. unfold includes. apply bool_decide_eq_true. Qed.

(** X4: the answer of [changed] for an event of a repository that supports
    change events, or of no repository: without [only] it tells whether the
    change is listed, with [only] whether it is the one change listed. *)
Theorem changed_when_supported (supports : option bool) (e : RepositoryChangeEvent)
    (change : RepositoryChange) :
  supports <> Some false ->
  (changed supports e change false = true <-> change ∈ changes e) /\
  (changed supports e change true = true <-> changes e = [change]).
Proof.
  intros Hs. unfold changed.
  rewrite (bool_decide_eq_false_2 (supports = Some false)) by exact Hs. cbn [andb].
  split.
  - destruct (includes change (changes e)) eqn:Hin.
    + apply includes_spec in Hin. tauto.
    + split; [discriminate |]. intros H. apply includes_spec in H. congruence.
  - destruct (changes e) as [| a [| b l]]; cbn.
    + split; discriminate.
    + case_bool_decide as Ha.
      * injection Ha as ->. tauto.
      * split; [discriminate |]. intros H. injection H as ->. contradiction.
    + split; discriminate.
Qed.

(** X5: the answer of [changed] for an event of a repository that does not
    support change events.  Without [only]: the change is listed, or unknown
    is listed and the change is not closed, ignores or starred.  With
    [only]: the change is the one listed, or unknown is the one listed and
    the change is not closed or starred. *)
Theorem changed_when_unsupported (e : RepositoryChangeEvent) (change : RepositoryChange) :
  (changed (Some false) e change false = true <->
   change ∈ changes e \/
   (Unknown ∈ changes e /\ change <> Closed /\ change <> Ignores /\ change <> Starred)) /\
  (changed (Some false) e change true = true <->
   changes e = [change] \/
   (changes e = [Unknown] /\ change <> Closed /\ change <> Starred)).
Proof.
  unfold changed.
  rewrite (bool_decide_eq_true_2 (Some false = Some false)) by reflexivity. cbn [andb].
  split.
  - destruct (includes change (changes e)) eqn:Hin.
    + apply includes_spec in Hin. tauto.
    + assert (Hn : ~ change ∈ changes e) by (rewrite <- includes_spec; congruence).
      destruct (includes Unknown (changes e)) eqn:Hu.
      * apply includes_spec in Hu.
        destruct change; (split; [intros H; try discriminate; right; repeat split; congruence
                                 | intros [H | (_ & H1 & H2 & H3)]; congruence]).
      * assert (Hnu : ~ Unknown ∈ changes e) by (rewrite <- includes_spec; congruence).
        split; [discriminate | tauto].
  - destruct (changes e) as [| a [| b l]]; cbn.
    + split; [discriminate | intros [H | (H & _)]; discriminate].
    + case_bool_decide as Ha.
      * injection Ha as ->. tauto.
      * assert (Hne : a <> change) by congruence.
        case_bool_decide as Hu.
        -- injection Hu as ->.
           destruct change; (split; [intros H; try discriminate; right; repeat split; congruence
                                    | intros [H | (_ & H1 & H2)]; congruence]).
        -- split; [discriminate |]. intros [H | (H & _)]; congruence.
    + split; [discriminate | intros [H | (H & _)]; discriminate].
Qed.

(** X6: [changed] with [only] implies [changed] without it, with one
    exception: for a repository that does not support change events and the
    event that lists unknown alone, ignores is reported with [only] and not
    without. *)
Theorem changed_only_implies_changed (supports : option bool) (e : RepositoryChangeEvent)
    (change : RepositoryChange) :
  (changed supports e change true = true ->
   changed supports e change false = true \/
   (supports = Some false /\ changes e = [Unknown] /\ change = Ignores)) /\
  (changed (Some false) (mkChangeEvent [Unknown]) Ignores true = true /\
   changed (Some false) (mkChangeEvent [Unknown]) Ignores false = false).
Proof.
  split; [| split; reflexivity].
  destruct e as [[| a [| b l]]]; try (intros H; vm_compute in H; discriminate H).
  destruct supports as [[|] |], a, change; vm_compute; intros H;
    first [discriminate H | left; reflexivity | right; repeat split; reflexivity].
Qed.

(** ** More of the class: the time of the last fetch *)

Lemma fireChange_lastFetched (cs : list RepositoryChange) (r : Repository) :
  _lastFetched (fireChange cs r) = _lastFetched r.
Proof.
  unfold fireChange, call_fireChangeDebounced. fields r.
  destruct fcd as [d |], prc as [e |], sus; reflexivity.
Qed.

Lemma onRepositoryChanged_lastFetched (uri : option Uri.t) (r : Repository) :
  _lastFetched (onRepositoryChanged uri r) = None.
Proof.
  unfold onRepositoryChanged.
  destruct uri as [uri |]; [| apply fireChange_lastFetched].
  repeat case_match; rewrite fireChange_lastFetched; reflexivity.
Qed.

(** X7: how [getLastFetched] settles.  It is rejected only when nothing is
    cached and [hasRemotes] is rejected, and then with the error of
    [hasRemotes]; a failure of [stat] is never passed on.  Otherwise it
    resolves to 0 or to the timestamp that is cached when it returns. *)
Theorem getLastFetched_settles (hasRemotes : Async bool) (isMaybeGuest : bool)
    (stat : Outcome FileStat) (r r' : Repository) (o : Outcome N) :
  getLastFetched hasRemotes isMaybeGuest stat r = (o, r') ->
  (exists ex, o = Rejected ex /\ _lastFetched r = None /\ hasRemotes r = (Rejected ex, r')) \/
  (exists t, o = Resolved t /\ (t = 0 \/ _lastFetched r' = Some t)).
Proof.
  assert (Hstat : forall r0, statFetchHead stat r0 = (o, r') ->
            exists t, o = Resolved t /\ (t = 0 \/ _lastFetched r' = Some t)).
  { intros r0 H. unfold statFetchHead in H. injection H as <- <-.
    eexists. split; [reflexivity |].
    match goal with |- context [_lastFetched ?x] => destruct (_lastFetched x) end; cbn; auto. }
  unfold getLastFetched. intros H.
  destruct (_lastFetched r) as [t0 |] eqn:Hlf; [right; eauto |].
  destruct (hasRemotes r) as [[has | ex] r1] eqn:Hh.
  - destruct (negb has || isMaybeGuest); [| right; eauto].
    injection H as <- <-. right. eauto.
  - injection H as <- <-. left. eauto.
Qed.

(** X8: the two edge cases of [stat] with a timestamp [t0] cached, in which
    [hasRemotes] is not asked.  If [stat] fails, [getLastFetched] resolves
    to 0 and the cache is dropped.  If [FETCH_HEAD] is empty (size 0 or
    less), the timestamp does not move: [getLastFetched] resolves to [t0]
    and leaves the repository as it was, whatever the modification time. *)
Theorem getLastFetched_stat_edge_cases (hasRemotes : Async bool) (isMaybeGuest : bool)
    (r : Repository) (t0 : N) :
  _lastFetched r = Some t0 ->
  (forall ex,
     getLastFetched hasRemotes isMaybeGuest (Rejected ex) r
     = (Resolved 0, set_lastFetched None r)) /\
  (forall st, (size st <= 0)%Z ->
     getLastFetched hasRemotes isMaybeGuest (Resolved st) r = (Resolved t0, r)).
Proof.
  intros H. unfold getLastFetched, statFetchHead. rewrite H. split.
  - intros ex. reflexivity.
  - intros st Hsz. destruct (Z.ltb_spec 0 (size st)); [lia |]. rewrite H. reflexivity.
Qed.

(** X9: a notification of the watcher makes the next [getLastFetched] ask
    for the remotes again.  Right after [onRepositoryChanged] nothing is
    cached, whatever was before, so [hasRemotes] is called, and the
    repository goes on from the state in which [hasRemotes] leaves it (the
    method of the source caches the list of remotes).  If [hasRemotes] is
    rejected, so is [getLastFetched]; without remotes, or as a guest, it
    resolves to 0 without a look at [FETCH_HEAD]; with remotes, not being a
    guest, a non-empty [FETCH_HEAD] gives its modification time, which is
    cached. *)
Theorem getLastFetched_after_change (uri : option Uri.t) (hasRemotes : Async bool)
    (isMaybeGuest : bool) (stat : Outcome FileStat) (r : Repository) :
  let r0 := onRepositoryChanged uri r in
  _lastFetched r0 = None /\
  (forall ex r1, hasRemotes r0 = (Rejected ex, r1) ->
     getLastFetched hasRemotes isMaybeGuest stat r0 = (Rejected ex, r1)) /\
  (forall has r1, hasRemotes r0 = (Resolved has, r1) ->
     has = false \/ isMaybeGuest = true ->
     getLastFetched hasRemotes isMaybeGuest stat r0 = (Resolved 0, r1)) /\
  (forall st r1, hasRemotes r0 = (Resolved true, r1) ->
     isMaybeGuest = false -> stat = Resolved st -> (0 < size st)%Z ->
     getLastFetched hasRemotes isMaybeGuest stat r0
     = (Resolved (mtime st), set_lastFetched (Some (mtime st)) r1)).
Proof.
  intros r0. pose proof (onRepositoryChanged_lastFetched uri r) as Hnone. fold r0 in Hnone.
  split; [exact Hnone |].
  unfold getLastFetched, statFetchHead. rewrite Hnone.
  split; [| split].
  - intros ex r1 ->. reflexivity.
  - intros has r1 -> [-> | ->]; [reflexivity |]. rewrite orb_true_r. reflexivity.
  - intros st r1 -> -> -> Hsz. cbn.
    destruct (Z.ltb_spec 0 (size st)); [reflexivity | lia].
Qed.

(** ** More of the class: the order of repositories *)

Lemma compareRepositories_le (a b : RepositoryObject) :
  (compareRepositories starred index a b <= 0)%Z <-> sortsBefore a b.
Proof.
  unfold compareRepositories, sortsBefore.
  destruct (starred a), (starred b);
    match goal with
    | |- context [Z.eqb ?x ?y] => destruct (Z.eqb_spec x y); try lia
    end;
    split; intros H;
    first
      [ lia
      | right; split; [reflexivity | lia]
      | left; split; reflexivity
      | destruct H as [[H1 H2] | [H1 H2]]; first [discriminate | lia] ].
Qed.

Lemma sortsBefore_total (a b : RepositoryObject) : sortsBefore a b \/ sortsBefore b a.
Proof.
  unfold sortsBefore. destruct (starred a), (starred b); try (left; left; auto; fail);
    try (right; left; auto; fail);
    destruct (Z.le_ge_cases (index a) (index b)); [left | right | left | right];
    right; split; (reflexivity || lia).
Qed.

Lemma sortsBefore_trans (a b c : RepositoryObject) :
  sortsBefore a b -> sortsBefore b c -> sortsBefore a c.
Proof.
  unfold sortsBefore.
  intros [[Ha Hb] | [Hab Hi]] [[Hb' Hc] | [Hbc Hj]].
  - congruence.
  - left. split; congruence.
  - left. split; congruence.
  - right. split; [congruence | lia].
Qed.

Lemma insertSorted_perm {A : Type} (compare : A -> A -> Z) (x : A) (l : list A) :
  insertSorted compare x l ≡ₚ x :: l.
Proof.
  induction l as [| y l IH]; cbn; [reflexivity |].
  destruct (compare x y <=? 0)%Z; [reflexivity |].
  rewrite IH. apply Permutation_swap.
Qed.

Lemma insertSorted_sorted (x : RepositoryObject) (l : list RepositoryObject) :
  StronglySorted sortsBefore l ->
  StronglySorted sortsBefore (insertSorted (compareRepositories starred index) x l).
Proof.
  induction 1 as [| y l Hl IH Hy]; cbn.
  - constructor; constructor.
  - destruct (Z.leb_spec (compareRepositories starred index x y) 0) as [Hle | Hgt].
    + apply compareRepositories_le in Hle.
      constructor; [constructor; assumption |].
      constructor; [exact Hle |].
      rewrite Forall_forall in Hy. apply Forall_forall. intros z Hz.
      apply (sortsBefore_trans x y z); auto.
    + assert (Hyx : sortsBefore y x).
      { destruct (sortsBefore_total x y) as [H | H]; [| exact H].
        apply compareRepositories_le in H. lia. }
      constructor; [exact IH |].
      rewrite (insertSorted_perm _ x l). constructor; assumption.
Qed.

Lemma StronglySorted_lookup {A : Type} (R : A -> A -> Prop) (l : list A) :
  StronglySorted R l ->
  forall i j a b, l !! i = Some a -> l !! j = Some b -> (i < j)%nat -> R a b.
Proof.
  induction 1 as [| y l Hl IH Hy]; intros i j a b Hi Hj Hlt.
  - discriminate.
  - destruct j as [| j]; [lia |]. destruct i as [| i]; cbn in Hi, Hj.
    + injection Hi as ->. rewrite Forall_forall in Hy.
      apply Hy. apply list_elem_of_lookup. eauto.
    + apply (IH i j); [assumption | assumption | lia].
Qed.

(** X10: [Repository.sort] returns the repositories it was given, each as
    often as given, in an order in which every repository may stand before
    every later one: starred repositories come before the others, and
    repositories of one kind are in the order of their index. *)
Theorem Repository_sort_sorted (repositories : list RepositoryObject) :
  Repository_sort repositories ≡ₚ repositories /\
  StronglySorted sortsBefore (Repository_sort repositories) /\
  (forall i j a b,
     Repository_sort repositories !! i = Some a ->
     Repository_sort repositories !! j = Some b ->
     (i < j)%nat ->
     (starred b = true -> starred a = true) /\
     (starred a = starred b -> (index a <= index b)%Z)).
Proof.
  assert (Hperm : Repository_sort repositories ≡ₚ repositories).
  { unfold Repository_sort, Array_sort.
    induction repositories as [| x l IH]; cbn; [reflexivity |].
    rewrite insertSorted_perm, IH. reflexivity. }
  assert (Hsorted : StronglySorted sortsBefore (Repository_sort repositories)).
  { unfold Repository_sort, Array_sort.
    induction repositories as [| x l IH]; cbn; [constructor |].
    apply insertSorted_sorted, IH.
    unfold Repository_sort, Array_sort in Hperm. cbn in Hperm.
    rewrite insertSorted_perm in Hperm. apply Permutation_cons_inv in Hperm. exact Hperm. }
  split; [exact Hperm |]. split; [exact Hsorted |].
  intros i j a b Hi Hj Hlt.
  pose proof (StronglySorted_lookup _ _ Hsorted i j a b Hi Hj Hlt) as Hab.
  destruct Hab as [[Ha Hb] | [Heq Hle]]; split; intros; congruence || lia || auto.
Qed.

(** ** More of the class: starring and closing *)

Lemma fireChange_twice_same (c : RepositoryChange) (r : Repository) :
  pendingChanges (fireChange [c] (fireChange [c] r)) = pushChange (pendingChanges r) c /\
  onAnyRepositoryChanged (fireChange [c] (fireChange [c] r))
  = onAnyRepositoryChanged r ++ [mkChangeEvent [c]; mkChangeEvent [c]].
Proof.
  split.
  - unfold pendingChanges at 1. rewrite fireChange_pending. cbn [changes fold_left].
    unfold pendingChanges at 1. rewrite fireChange_pending. cbn [changes fold_left].
    unfold pushChange at 1.
    assert (Hin : c ∈ pushChange (pendingChanges r) c) by (apply pushChange_elem; auto).
    apply includes_spec in Hin. rewrite Hin. reflexivity.
  - rewrite !fireChange_onAny, <- app_assoc. reflexivity.
Qed.

(** X11: starring and unstarring a repository.  After [star()] the
    repository reads as starred, after [unstar()] as not starred; the entries
    of other identifiers under the same key are not touched, and neither are
    the starred branches.  Toggling a branch does not change whether the
    repository reads as starred. *)
Theorem star_unstar_toggle (R : RepositoryObject) (b : GitBranch) (other : string) :
  starred (star None R) = true /\
  starred (unstar None R) = false /\
  (other <> id R ->
   forall toggle,
     default ∅ (starredRepositories (workspaceState (updateStarred toggle None R))) !! other
     = default ∅ (starredRepositories (workspaceState R)) !! other) /\
  (forall toggle,
     starredBranches (workspaceState (updateStarred toggle None R))
     = starredBranches (workspaceState R)) /\
  (forall toggle,
     starred (updateStarred toggle (Some b) R) = starred R /\
     id (updateStarred toggle (Some b) R) = id R).
Proof.
  unfold star, unstar, starred, updateStarred, updateStarredCore, onCore.
  destruct R as [c i ix cl n w cr ds dp [sb sr] tm]. cbn.
  split; [| split; [| split; [| split]]].
  - rewrite lookup_insert_eq. apply bool_decide_eq_true_2. reflexivity.
  - rewrite lookup_delete_eq. apply bool_decide_eq_false_2. discriminate.
  - intros Hne [|]; cbn.
    + apply lookup_insert_ne. congruence.
    + apply lookup_delete_ne. congruence.
  - intros [|]; reflexivity.
  - intros [|]; split; reflexivity.
Qed.

(** X12: [unstar()] after [star()] leaves under the key the object that was
    there, without the identifier of the repository.  So a repository that was
    not listed in a stored object is, after the two calls, stored exactly as
    before; and a second [star()] stores nothing new. *)
Theorem unstar_after_star (R : RepositoryObject) :
  starredRepositories (workspaceState (unstar None (star None R)))
  = Some (delete (id R) (default ∅ (starredRepositories (workspaceState R)))) /\
  (forall m, starredRepositories (workspaceState R) = Some m -> m !! id R = None ->
     workspaceState (unstar None (star None R)) = workspaceState R) /\
  workspaceState (star None (star None R)) = workspaceState (star None R).
Proof.
  unfold star, unstar, updateStarred, updateStarredCore, onCore.
  destruct R as [c i ix cl n w cr ds dp [sb sr] tm]. cbn.
  split; [| split].
  - rewrite delete_insert_eq. reflexivity.
  - intros m -> Hm. cbn. rewrite delete_insert_eq, delete_id by exact Hm. reflexivity.
  - rewrite insert_insert_eq. reflexivity.
Qed.

(** X13: one toggle, two notifications, one entry.  [star] and [unstar]
    call [fireChange(Starred)] twice, once in [updateStarredCore] and once in
    [updateStarred]: the callback [onAnyRepositoryChanged] is told twice, and
    the pending event gets starred once (if it had it, nothing is added). *)
Theorem star_notifies_twice_records_once (toggle : bool) (b : option GitBranch)
    (R : RepositoryObject) :
  onAnyRepositoryChanged (core (updateStarred toggle b R))
  = onAnyRepositoryChanged (core R) ++ [mkChangeEvent [Starred]; mkChangeEvent [Starred]] /\
  pendingChanges (core (updateStarred toggle b R)) = pushChange (pendingChanges (core R)) Starred /\
  _onDidChange (core (updateStarred toggle b R)) = _onDidChange (core R).
Proof.
  assert (Hcore : core (updateStarred toggle b R)
                  = fireChange [Starred] (fireChange [Starred] (core R))).
  { unfold updateStarred, updateStarredCore, onCore. destruct b; reflexivity. }
  rewrite Hcore. destruct (fireChange_twice_same Starred (core R)) as [Hp Ho].
  split; [exact Ho |]. split; [exact Hp |].
  destruct (fireChange_frame [Starred] (fireChange [Starred] (core R))) as (-> & _).
  apply fireChange_frame.
Qed.

(** X14: the setter of [closed].  Setting [closed] to the value it has
    changes nothing at all; setting it to the other value records closed
    (once) and tells the callback; setting the same value a second time adds
    nothing. *)
Theorem set_closed_records_real_changes (value : bool) (R : RepositoryObject) :
  set_closed (_closed R) R = R /\
  (value <> _closed R ->
   _closed (set_closed value R) = value /\
   pendingChanges (core (set_closed value R)) = pushChange (pendingChanges (core R)) Closed /\
   onAnyRepositoryChanged (core (set_closed value R))
   = onAnyRepositoryChanged (core R) ++ [mkChangeEvent [Closed]]) /\
  set_closed value (set_closed value R) = set_closed value R.
Proof.
  unfold set_closed, onCore.
  destruct R as [c i ix cl n w cr ds dp st tm]. cbn.
  split; [| split].
  - rewrite Bool.eqb_reflx. reflexivity.
  - intros Hne. destruct (Bool.eqb cl value) eqn:Heq.
    + apply Bool.eqb_prop in Heq. congruence.
    + cbn. unfold pendingChanges at 1. rewrite fireChange_pending, fireChange_onAny.
      repeat split.
  - destruct (Bool.eqb cl value) eqn:Heq; cbn; rewrite Bool.eqb_reflx; reflexivity.
Qed.


(** ** More of the class: the counted filesystem watch *)

Lemma watch_ok_start (R : RepositoryObject) :
  watch_ok R -> watch_ok (startWatchingFileSystem R).
Proof.
  unfold watch_ok, startWatchingFileSystem.
  destruct R as [c i ix cl n w cr ds dp st tm]. cbn.
  intros (Hn & Hw & Hnd & Hall). destruct w as [w |]; cbn in *.
  - repeat split; try lia; try discriminate; try assumption; apply Hall.
  - rewrite app_nil_r in *. assert (n = 0%Z) by (apply Hw; reflexivity). subst n.
    repeat split; try lia; try discriminate.
    + apply NoDup_app. split; [exact Hnd |]. split; [| apply NoDup_singleton].
      intros x Hx Hx'. apply list_elem_of_singleton in Hx'. subst x.
      apply Hall in Hx. lia.
    + intros Hx. apply elem_of_app in Hx as [Hx | Hx].
      * apply Hall in Hx. lia.
      * apply list_elem_of_singleton in Hx. lia.
    + intros Hx. apply elem_of_app.
      destruct (decide (w = cr)) as [-> | Hne].
      * right. apply list_elem_of_singleton. reflexivity.
      * left. apply Hall. lia.
Qed.

Lemma watch_ok_stop (R : RepositoryObject) :
  watch_ok R -> watch_ok (stopWatchingFileSystem R).
Proof.
  unfold watch_ok, stopWatchingFileSystem.
  destruct R as [c i ix cl n w cr ds dp st tm]. cbn.
  intros (Hn & Hw & Hnd & Hall). destruct w as [w |]; cbn in *.
  - assert (n <> 0%Z) by (intros ->; destruct Hw as [_ Hw]; discriminate Hw; reflexivity).
    destruct (Z.ltb_spec 0 (n - 1)); cbn.
    + repeat split; try lia; try discriminate; try assumption; apply Hall.
    + rewrite app_nil_r. repeat split; try lia; try assumption; apply Hall.
  - repeat split; try assumption; apply Hw || apply Hall.
Qed.

Lemma watch_ok_run (actions : list WatchAction) (R : RepositoryObject) :
  watch_ok R -> watch_ok (watchRun actions R).
Proof.
  unfold watchRun. revert R. induction actions as [| a actions IH]; intros R H; [exact H |].
  rewrite fold_left_cons. apply IH.
  destruct a; cbn [watchStep].
  - apply watch_ok_start, H.
  - apply watch_ok_stop, H.
  - unfold dispose. apply watch_ok_stop in H.
    destruct (stopWatchingFileSystem R). exact H.
Qed.

(** X15: the bookkeeping of the filesystem watch, whatever the calls of
    [startWatchingFileSystem], [stopWatchingFileSystem] and [dispose] after
    the constructor: a watcher exists exactly while the counter is positive,
    the counter never goes below zero (a call of [stopWatchingFileSystem] too
    many does nothing), no watcher is disposed twice, and every watcher ever
    created is either disposed or the one watcher that exists. *)
Theorem filesystem_watch_is_counted (actions : list WatchAction) (now : N)
    (p identifier : string) (folderIndex : Z) (supports suspended closed : bool)
    (state : Memento) :
  let R := watchRun actions
             (new_RepositoryObject now p identifier folderIndex supports suspended closed
                state) in
  (0 <= _fsWatchCounter R)%Z /\
  (_fsWatcherDisposable R = None <-> _fsWatchCounter R = 0%Z) /\
  NoDup (fsWatchersDisposed R) /\
  (forall w, (w < fsWatchersCreated R)%nat ->
     (w ∈ fsWatchersDisposed R /\ _fsWatcherDisposable R <> Some w) \/
     (~ w ∈ fsWatchersDisposed R /\ _fsWatcherDisposable R = Some w)).
Proof.
  intros R.
  destruct (watch_ok_run actions
              (new_RepositoryObject now p identifier folderIndex supports suspended closed
                 state)) as (Hn & Hw & Hnd & Hall).
  { repeat split; cbn; try lia; try constructor; try (intros H; inversion H). }
  fold R in Hn, Hw, Hnd, Hall.
  split; [exact Hn |]. split; [exact Hw |].
  apply NoDup_app in Hnd as (Hnd & Hdis & _). split; [exact Hnd |].
  intros w Hlt. apply Hall in Hlt. apply elem_of_app in Hlt as [Hin | Hin].
  - left. split; [exact Hin |]. intros Heq. apply (Hdis w Hin).
    rewrite Heq. apply list_elem_of_singleton. reflexivity.
  - right. destruct (_fsWatcherDisposable R) as [w' |]; [| inversion Hin].
    apply list_elem_of_singleton in Hin. subst w'. split; [| reflexivity].
    intros Hd. apply (Hdis w Hd). apply list_elem_of_singleton. reflexivity.
Qed.

Lemma times_start (n : nat) (R : RepositoryObject) :
  _fsWatcherDisposable R <> None ->
  _fsWatchCounter (times n startWatchingFileSystem R) = (_fsWatchCounter R + Z.of_nat n)%Z /\
  _fsWatcherDisposable (times n startWatchingFileSystem R) = _fsWatcherDisposable R /\
  fsWatchersDisposed (times n startWatchingFileSystem R) = fsWatchersDisposed R.
Proof.
  revert R. induction n as [| n IH]; intros R Hw; cbn [times].
  - repeat split. lia.
  - destruct (_fsWatcherDisposable R) as [w |] eqn:Hlive; [| contradiction].
    assert (Hstep : startWatchingFileSystem R = set_fsWatchCounter (_fsWatchCounter R + 1)%Z R).
    { unfold startWatchingFileSystem. destruct R. cbn in *. rewrite Hlive. reflexivity. }
    rewrite Hstep. destruct (IH (set_fsWatchCounter (_fsWatchCounter R + 1)%Z R)) as (-> & -> & ->).
    { destruct R; cbn in *. congruence. }
    destruct R; cbn in *. repeat split; [lia | congruence].
Qed.

Lemma times_stop (k : nat) (R : RepositoryObject) (w : nat) :
  _fsWatcherDisposable R = Some w ->
  (Z.of_nat k < _fsWatchCounter R)%Z ->
  _fsWatchCounter (times k stopWatchingFileSystem R) = (_fsWatchCounter R - Z.of_nat k)%Z /\
  _fsWatcherDisposable (times k stopWatchingFileSystem R) = Some w /\
  fsWatchersDisposed (times k stopWatchingFileSystem R) = fsWatchersDisposed R.
Proof.
  revert R. induction k as [| k IH]; intros R Hw Hlt; cbn [times].
  - repeat split; [lia | exact Hw].
  - assert (Hstep : stopWatchingFileSystem R = set_fsWatchCounter (_fsWatchCounter R - 1)%Z R).
    { unfold stopWatchingFileSystem. destruct R. cbn in *. rewrite Hw. cbn.
      destruct (Z.ltb_spec 0 (_fsWatchCounter0 - 1)); [reflexivity | lia]. }
    rewrite Hstep. destruct (IH (set_fsWatchCounter (_fsWatchCounter R - 1)%Z R)) as (-> & -> & ->).
    { destruct R; cbn in *. exact Hw. }
    { destruct R; cbn in *. lia. }
    destruct R; cbn in *. repeat split. lia.
Qed.

(** X16: subscriptions are counted.  After [n] calls of
    [startWatchingFileSystem] on a new object, [n] at least 1, the watcher
    survives any [k < n] calls of [stopWatchingFileSystem] and is disposed by
    the [n]-th; [dispose()], which stops once, therefore leaves the watcher
    running when two or more subscriptions are outstanding. *)
Theorem filesystem_watch_stops_with_last_subscription (n k : nat) (now : N)
    (p identifier : string) (folderIndex : Z) (supports suspended closed : bool)
    (state : Memento) :
  let watching := times (S n) startWatchingFileSystem
                    (new_RepositoryObject now p identifier folderIndex supports suspended
                       closed state) in
  _fsWatcherDisposable watching = Some 0%nat /\
  ((k <= n)%nat ->
   _fsWatcherDisposable (times k stopWatchingFileSystem watching) = Some 0%nat /\
   fsWatchersDisposed (times k stopWatchingFileSystem watching) = []) /\
  (_fsWatcherDisposable (times (S n) stopWatchingFileSystem watching) = None /\
   fsWatchersDisposed (times (S n) stopWatchingFileSystem watching) = [0%nat]) /\
  ((1 <= n)%nat -> _fsWatcherDisposable (dispose watching) = Some 0%nat).
Proof.
  intros watching.
  set (first := startWatchingFileSystem
                  (new_RepositoryObject now p identifier folderIndex supports suspended
                     closed state)).
  assert (Hw : watching = times n startWatchingFileSystem first) by reflexivity.
  destruct (times_start n first) as (Hc & Hl & Hd); [discriminate |].
  rewrite <- Hw in Hc, Hl, Hd.
  change (_fsWatchCounter first) with 1%Z in Hc.
  change (_fsWatcherDisposable first) with (Some 0%nat) in Hl.
  change (fsWatchersDisposed first) with (@nil nat) in Hd.
  split; [exact Hl |]. split; [| split].
  - intros Hk. destruct (times_stop k watching 0%nat Hl) as (_ & H1 & H2); [lia |].
    rewrite H1, H2, Hd. auto.
  - assert (Hlast : forall R, _fsWatcherDisposable R = Some 0%nat -> _fsWatchCounter R = 1%Z ->
                fsWatchersDisposed R = [] ->
                _fsWatcherDisposable (stopWatchingFileSystem R) = None /\
                fsWatchersDisposed (stopWatchingFileSystem R) = [0%nat]).
    { intros R H1 H2 H3. unfold stopWatchingFileSystem. destruct R; cbn in *.
      subst. cbn. auto. }
    assert (Hsplit : forall (f : RepositoryObject -> RepositoryObject) m R,
              times (S m) f R = f (times m f R)).
    { intros f m. induction m as [| m IH]; intros R; [reflexivity |].
      cbn [times] in *. rewrite <- IH. reflexivity. }
    rewrite Hsplit.
    destruct (times_stop n watching 0%nat Hl) as (H0 & H1 & H2); [lia |].
    apply Hlast; [exact H1 | lia | congruence].
  - intros Hn. unfold dispose.
    destruct (times_stop 1 watching 0%nat Hl) as (_ & H1 & _); [lia |].
    cbn [times] in H1. destruct (stopWatchingFileSystem watching). exact H1.
Qed.

(** ** More of the classifier: the exact-file rules, by suffix *)

Lemma append_nil_l (t : string) : ("" ++ t)%string = t.
Proof. reflexivity. Qed.

Lemma append_cons (c : ascii) (s t : string) :
  (String c s ++ t)%string = String c (s ++ t)%string.
Proof. reflexivity. Qed.

Lemma string_length_app (s t : string) :
  String.length (s ++ t)%string = (String.length s + String.length t)%nat.
Proof.
  induction s as [| c s IH]; [reflexivity |].
  rewrite append_cons. cbn [String.length]. rewrite IH. reflexivity.
Qed.

Lemma substring_all (s : string) : substring 0 (String.length s) s = s.
Proof.
  induction s as [| c s IH]; [reflexivity |].
  cbn [String.length substring]. rewrite IH. reflexivity.
Qed.

Lemma substring_app_r (pre suf : string) :
  substring (String.length pre) (String.length suf) (pre ++ suf)%string = suf.
Proof.
  induction pre as [| c pre IH]; [apply substring_all |].
  rewrite append_cons. cbn [String.length substring]. exact IH.
Qed.

Lemma substring_split (s : string) (i : nat) :
  (i <= String.length s)%nat ->
  s = (substring 0 i s ++ substring i (String.length s - i) s)%string.
Proof.
  revert i. induction s as [| c s IH]; intros i Hi; cbn [String.length] in Hi.
  - destruct i; [reflexivity | lia].
  - destruct i as [| i].
    + cbn [substring String.length Nat.sub]. rewrite append_nil_l, substring_all. reflexivity.
    + cbn [substring String.length Nat.sub]. rewrite append_cons, <- IH by lia. reflexivity.
Qed.

(** [endsWith] is the suffix test. *)
Lemma endsWith_spec (s suffix : string) :
  endsWith s suffix = true <-> isSuffix suffix s.
Proof.
  unfold endsWith, isSuffix. split.
  - intros H. apply andb_true_iff in H as [Hle Heq].
    apply Nat.leb_le in Hle. apply String.eqb_eq in Heq.
    exists (substring 0 (String.length s - String.length suffix) s).
    rewrite (substring_split s (String.length s - String.length suffix)) at 1 by lia.
    replace (String.length s - (String.length s - String.length suffix))%nat
      with (String.length suffix) by lia.
    rewrite Heq. reflexivity.
  - intros [pre ->]. rewrite string_length_app. apply andb_true_iff. split.
    + apply Nat.leb_le. lia.
    + replace (String.length pre + String.length suffix - String.length suffix)%nat
        with (String.length pre) by lia.
      rewrite substring_app_r. apply String.eqb_refl.
Qed.

Lemma suffixes_comparable (a b p : string) :
  isSuffix a p -> isSuffix b p -> (String.length a <= String.length b)%nat -> isSuffix a b.
Proof.
  intros [pa ->] [pb Hb]. revert pb Hb.
  induction pa as [| c pa IH]; intros pb Hb Hlen.
  - rewrite append_nil_l in Hb. assert (Hl := f_equal String.length Hb).
    rewrite string_length_app in Hl.
    destruct pb as [| c pb]; cbn [String.length] in Hl; [| lia].
    exists ""%string. rewrite append_nil_l in Hb. rewrite <- Hb. reflexivity.
  - destruct pb as [| c' pb].
    + rewrite append_nil_l in Hb. exists (String c pa). symmetry. exact Hb.
    + rewrite !append_cons in Hb. injection Hb as _ Hb. apply (IH pb Hb Hlen).
Qed.

(** Two literals of which neither ends the other do not both end a path. *)
Lemma suffixes_exclusive (a b p : string) :
  endsWith a b = false -> endsWith b a = false ->
  endsWith p a = true -> endsWith p b = false.
Proof.
  intros Hab Hba Ha. destruct (endsWith p b) eqn:Hb; [| reflexivity].
  apply endsWith_spec in Ha, Hb.
  destruct (Nat.le_ge_cases (String.length a) (String.length b)) as [Hle | Hle].
  - apply (suffixes_comparable a b p Ha Hb), endsWith_spec in Hle. congruence.
  - apply (suffixes_comparable b a p Hb Ha), endsWith_spec in Hle. congruence.
Qed.

Lemma fireChange_caches (cs : list RepositoryChange) (r : Repository) :
  _branch (fireChange cs r) = _branch r /\ _remotes (fireChange cs r) = _remotes r.
Proof. destruct (fireChange_frame cs r) as (_ & _ & _ & -> & -> & _). auto. Qed.

(** X17: the exact-file rules of the classifier, by the suffix of the path.
    No two of the six suffixes can end the same path, so each rule decides
    alone: a path that ends in [.git/index] is reported as index, one that
    ends in [.git/refs/stash] as stash, one that ends in [/.gitignore] as
    ignores, each with the branch cache and the remote-list cache kept; a
    path that ends in [.git/HEAD] or in [.git/ORIG_HEAD] is reported as heads,
    with the branch cache dropped and the remote-list cache kept. *)
Theorem exact_file_rules_by_suffix (r : Repository) (uri : Uri.t) :
  let r' := onRepositoryChanged (Some uri) r in
  let reports cs :=
    onAnyRepositoryChanged r' = onAnyRepositoryChanged r ++ [mkChangeEvent cs] /\
    pendingChanges r' = fold_left pushChange cs (pendingChanges r) /\
    _remotes r' = _remotes r in
  (isSuffix ".git/index" (Uri.path uri) -> reports [Index] /\ _branch r' = _branch r) /\
  (isSuffix ".git/refs/stash" (Uri.path uri) -> reports [Stash] /\ _branch r' = _branch r) /\
  (isSuffix "/.gitignore" (Uri.path uri) -> reports [Ignores] /\ _branch r' = _branch r) /\
  (isSuffix ".git/HEAD" (Uri.path uri) \/ isSuffix ".git/ORIG_HEAD" (Uri.path uri) ->
   reports [Heads] /\ _branch r' = None).
Proof.
  intros r' reports. subst r' reports. cbv beta.
  assert (Hex : forall a b, endsWith a b = false -> endsWith b a = false ->
            endsWith (Uri.path uri) a = true -> endsWith (Uri.path uri) b = false).
  { intros a b. apply suffixes_exclusive. }
  assert (Hfire : forall cs r0,
            onAnyRepositoryChanged r0 = onAnyRepositoryChanged r ->
            pendingChanges r0 = pendingChanges r ->
            _remotes r0 = _remotes r ->
            onAnyRepositoryChanged (fireChange cs r0)
            = onAnyRepositoryChanged r ++ [mkChangeEvent cs] /\
            pendingChanges (fireChange cs r0) = fold_left pushChange cs (pendingChanges r) /\
            _remotes (fireChange cs r0) = _remotes r).
  { intros cs r0 H1 H2 H3. unfold pendingChanges at 1.
    rewrite fireChange_onAny, fireChange_pending, H1, H2.
    destruct (fireChange_caches cs r0) as [_ ->]. auto. }
  split; [| split; [| split]].
  - intros H. apply endsWith_spec in H. unfold onRepositoryChanged.
    rewrite (Hex ".git/index" ".git/config") by (reflexivity || exact H). rewrite H.
    split; [apply Hfire; reflexivity |].
    destruct (fireChange_caches [Index] (set_lastFetched None r)) as [-> _]. reflexivity.
  - intros H. apply endsWith_spec in H. unfold onRepositoryChanged.
    rewrite (Hex ".git/refs/stash" ".git/config") by (reflexivity || exact H).
    rewrite (Hex ".git/refs/stash" ".git/index") by (reflexivity || exact H).
    rewrite (Hex ".git/refs/stash" ".git/HEAD") by (reflexivity || exact H).
    rewrite (Hex ".git/refs/stash" ".git/ORIG_HEAD") by (reflexivity || exact H).
    rewrite H. cbn [orb].
    split; [apply Hfire; reflexivity |].
    destruct (fireChange_caches [Stash] (set_lastFetched None r)) as [-> _]. reflexivity.
  - intros H. apply endsWith_spec in H. unfold onRepositoryChanged.
    rewrite (Hex "/.gitignore" ".git/config") by (reflexivity || exact H).
    rewrite (Hex "/.gitignore" ".git/index") by (reflexivity || exact H).
    rewrite (Hex "/.gitignore" ".git/HEAD") by (reflexivity || exact H).
    rewrite (Hex "/.gitignore" ".git/ORIG_HEAD") by (reflexivity || exact H).
    rewrite (Hex "/.gitignore" ".git/refs/stash") by (reflexivity || exact H).
    rewrite H. cbn [orb].
    split; [apply Hfire; reflexivity |].
    destruct (fireChange_caches [Ignores] (set_lastFetched None r)) as [-> _]. reflexivity.
  - intros H.
    assert (Hhead : endsWith (Uri.path uri) ".git/HEAD" || endsWith (Uri.path uri) ".git/ORIG_HEAD"
                    = true).
    { apply orb_true_iff. destruct H as [H | H]; apply endsWith_spec in H; auto. }
    assert (Hc : endsWith (Uri.path uri) ".git/config" = false /\
                 endsWith (Uri.path uri) ".git/index" = false).
    { destruct H as [H | H]; apply endsWith_spec in H; split;
        first [ apply (Hex ".git/HEAD"); (reflexivity || exact H)
              | apply (Hex ".git/ORIG_HEAD"); (reflexivity || exact H) ]. }
    destruct Hc as [Hc Hi]. unfold onRepositoryChanged. rewrite Hc, Hi, Hhead.
    split; [apply Hfire; reflexivity |].
    destruct (fireChange_caches [Heads] (set_branch None (set_lastFetched None r))) as [-> _].
    reflexivity.
Qed.

(** ** More of the filter: what [ignoreGitRegex] matches *)

Lemma stripPrefix_spec (p s rest : string) :
  stripPrefix p s = Some rest <-> s = (p ++ rest)%string.
Proof.
  revert s. induction p as [| a p IH]; intros s.
  - cbn [stripPrefix]. rewrite append_nil_l. split; congruence.
  - destruct s as [| b s]; cbn [stripPrefix]; rewrite append_cons.
    + split; discriminate.
    + destruct (Ascii.eqb_spec a b) as [-> | Hne].
      * rewrite IH. split; [intros ->; reflexivity | intros H; injection H; auto].
      * split; [discriminate | intros H; injection H; congruence].
Qed.

Lemma ignoreGitRegex_at_spec (s : string) :
  ignoreGitRegex_at s = true ->
  exists rest, s = (".git" ++ rest)%string /\
    (rest = ""%string \/
     exists c rest', rest = String c rest' /\ (c = "/"%char \/ c = backslash)).
Proof.
  unfold ignoreGitRegex_at. destruct (stripPrefix ".git" s) as [rest |] eqn:Hs; [| discriminate].
  apply stripPrefix_spec in Hs. intros H. exists rest. split; [exact Hs |].
  destruct rest as [| c rest']; [left; reflexivity |].
  right. exists c, rest'. split; [reflexivity |].
  apply orb_true_iff in H as [H | H]; apply Ascii.eqb_eq in H; auto.
Qed.

Lemma ignoreGitRegex_test_inside (p : string) :
  ignoreGitRegex_test p = true -> insideDotGit p.
Proof.
  induction p as [| c p IH]; cbn [ignoreGitRegex_test]; intros H.
  - vm_compute in H. discriminate.
  - apply orb_true_iff in H as [H | H].
    + apply ignoreGitRegex_at_spec in H as (rest & Hs & Hr).
      exists ""%string, rest. rewrite append_nil_l. auto.
    + destruct (IH H) as (pre & rest & -> & Hr).
      exists (String c pre), rest. rewrite append_cons. auto.
Qed.

(** X18: what the filesystem filter drops.  [onFileSystemChanged] ignores a
    URI, leaving the repository exactly as it was, if and only if its
    [fsPath] has [.git] followed by a slash, by a backslash or by the end of
    the path; this includes a file below a directory whose name merely ends
    in [.git].  Every other URI is given to [fireFileSystemChange] and is
    pending afterwards. *)
Theorem filesystem_filter_drops_dot_git (u : Uri.t) (r : Repository) :
  (ignoreGitRegex_test (Uri.fsPath u) = true <-> insideDotGit (Uri.fsPath u)) /\
  (insideDotGit (Uri.fsPath u) -> onFileSystemChanged u r = r) /\
  (~ insideDotGit (Uri.fsPath u) ->
   onFileSystemChanged u r = fireFileSystemChange u r /\
   pendingUris (onFileSystemChanged u r) = pendingUris r ++ [u]) /\
  insideDotGit "/home/me/project.git/src/main.c".
Proof.
  assert (Hiff : ignoreGitRegex_test (Uri.fsPath u) = true <-> insideDotGit (Uri.fsPath u)).
  { split; [apply ignoreGitRegex_test_inside | apply insideDotGit_ignored]. }
  split; [exact Hiff |]. split; [| split].
  - intros H. apply Hiff in H. unfold onFileSystemChanged. rewrite H. reflexivity.
  - intros H. unfold onFileSystemChanged.
    destruct (ignoreGitRegex_test (Uri.fsPath u)) eqn:Ht;
      [exfalso; apply H, ignoreGitRegex_test_inside, Ht |].
    split; [reflexivity |].
    pose proof (proj1 (fireFileSystemChange_channel u r)) as Hch.
    unfold fileSystemChannel, channel_record in Hch.
    injection Hch as _ _ _ Hp _. unfold pendingUris at 1. rewrite Hp.
    unfold mergeUri, pendingUris. destruct (_pendingFileSystemChange r); reflexivity.
  - exists "/home/me/project"%string, "/src/main.c"%string. split; [reflexivity |].
    right. eexists _, _. split; [reflexivity | left; reflexivity].
Qed.

(** ** More of the classifier: the refs rule *)

Lemma refsRegex_at_spec (s g : string) :
  refsRegex_at s = Some g ->
  (g = "heads" \/ g = "remotes" \/ g = "tags")%string /\
  exists rest, s = (".git/refs/" ++ g ++ rest)%string.
Proof.
  unfold refsRegex_at.
  destruct (stripPrefix ".git/refs/" s) as [rest |] eqn:Hs; [| discriminate].
  apply stripPrefix_spec in Hs. subst s.
  assert (Hpre : forall lit, String.prefix lit rest = true ->
            exists rest', rest = (lit ++ rest')%string).
  { intros lit H. apply prefix_correct in H.
    exists (substring (String.length lit) (String.length rest - String.length lit) rest).
    rewrite <- H at 1. apply substring_split.
    destruct (Nat.le_gt_cases (String.length lit) (String.length rest)) as [Hle | Hgt];
      [exact Hle |].
    assert (Hl := f_equal String.length H).
    assert (Hsub : forall n (t : string), (String.length (substring 0 n t) <= String.length t)%nat).
    { intros n t. revert n. induction t as [| c t IH]; intros [| n]; cbn; try lia.
      specialize (IH n). lia. }
    specialize (Hsub (String.length lit) rest). lia. }
  destruct (String.prefix "heads" rest) eqn:H1.
  { intros H. injection H as <-. split; [auto |]. destruct (Hpre _ H1) as [rest' ->]. eauto. }
  destruct (String.prefix "remotes" rest) eqn:H2.
  { intros H. injection H as <-. split; [auto |]. destruct (Hpre _ H2) as [rest' ->]. eauto. }
  destruct (String.prefix "tags" rest) eqn:H3; [| discriminate].
  intros H. injection H as <-. split; [auto |]. destruct (Hpre _ H3) as [rest' ->]. eauto.
Qed.

Lemma prefix_app (a b : string) : String.prefix a (a ++ b)%string = true.
Proof.
  induction a as [| c a IH]; [destruct b; reflexivity |].
  rewrite append_cons. cbn [String.prefix].
  destruct (ascii_dec c c); [exact IH | contradiction].
Qed.

Lemma prefix_first_differs (a b : ascii) (s t : string) :
  a <> b -> String.prefix (String a s) (String b t) = false.
Proof. intros H. cbn [String.prefix]. destruct (ascii_dec a b); [contradiction | reflexivity]. Qed.

Lemma refsRegex_at_complete (g rest : string) :
  (g = "heads" \/ g = "remotes" \/ g = "tags")%string ->
  refsRegex_at (".git/refs/" ++ g ++ rest)%string = Some g.
Proof.
  intros Hg. unfold refsRegex_at.
  rewrite (proj2 (stripPrefix_spec ".git/refs/" _ (g ++ rest)%string) eq_refl).
  destruct Hg as [-> | [-> | ->]].
  - rewrite prefix_app. reflexivity.
  - assert (H1 : String.prefix "heads" ("remotes" ++ rest)%string = false)
      by (apply (prefix_first_differs "h" "r"); discriminate).
    rewrite H1, prefix_app. reflexivity.
  - assert (H1 : String.prefix "heads" ("tags" ++ rest)%string = false)
      by (apply (prefix_first_differs "h" "t"); discriminate).
    assert (H2 : String.prefix "remotes" ("tags" ++ rest)%string = false)
      by (apply (prefix_first_differs "r" "t"); discriminate).
    rewrite H1, H2, prefix_app. reflexivity.
Qed.

(** X19: when the refs rule of the classifier applies.  [refsRegex.exec]
    finds a match exactly in the paths that have [.git/refs/heads],
    [.git/refs/remotes] or [.git/refs/tags] somewhere, and the captured kind
    is the kind of such an occurrence.  A path for which no exact-file rule
    applies and whose match is [tags] is reported as tags, with both caches
    kept. *)
Theorem refs_rule_applies (r : Repository) (uri : Uri.t) :
  (forall g, refsRegex_exec (Uri.path uri) = Some g ->
     (g = "heads" \/ g = "remotes" \/ g = "tags")%string /\
     exists pre rest, Uri.path uri = (pre ++ ".git/refs/" ++ g ++ rest)%string) /\
  (forall pre g rest,
     (g = "heads" \/ g = "remotes" \/ g = "tags")%string ->
     Uri.path uri = (pre ++ ".git/refs/" ++ g ++ rest)%string ->
     refsRegex_exec (Uri.path uri) <> None) /\
  (exactFileRule (Uri.path uri) = false ->
   refsRegex_exec (Uri.path uri) = Some "tags" ->
   onAnyRepositoryChanged (onRepositoryChanged (Some uri) r)
   = onAnyRepositoryChanged r ++ [mkChangeEvent [Tags]] /\
   _branch (onRepositoryChanged (Some uri) r) = _branch r /\
   _remotes (onRepositoryChanged (Some uri) r) = _remotes r).
Proof.
  split; [| split].
  - generalize (Uri.path uri). intros p.
    induction p as [| c p IH]; intros g; cbn [refsRegex_exec].
    + destruct (refsRegex_at "") as [g' |] eqn:Hat; [| discriminate].
      intros H. injection H as <-. apply refsRegex_at_spec in Hat as (Hg & rest & Hr).
      split; [exact Hg |]. exists ""%string, rest. rewrite append_nil_l. exact Hr.
    + destruct (refsRegex_at (String c p)) as [g' |] eqn:Hat.
      * intros H. injection H as <-. apply refsRegex_at_spec in Hat as (Hg & rest & Hr).
        split; [exact Hg |]. exists ""%string, rest. rewrite append_nil_l. exact Hr.
      * intros H. destruct (IH g H) as (Hg & pre & rest & ->).
        split; [exact Hg |]. exists (String c pre), rest. rewrite append_cons. reflexivity.
  - intros pre g rest Hg ->. induction pre as [| c pre IH].
    + rewrite append_nil_l.
      assert (Hat := refsRegex_at_complete g rest Hg).
      destruct (".git/refs/" ++ g ++ rest)%string; cbn [refsRegex_exec]; rewrite Hat; discriminate.
    + rewrite append_cons. cbn [refsRegex_exec].
      destruct (refsRegex_at _); [discriminate | exact IH].
  - intros Hx Hre. rewrite onRepositoryChanged_refs by exact Hx. rewrite Hre. cbn.
    rewrite fireChange_onAny.
    destruct (fireChange_caches [Tags] (set_lastFetched None r)) as [-> ->]. auto.
Qed.

(** ** More of the class: commands in the terminal *)

Lemma parseArg_idempotent (arg : string) : parseArg (parseArg arg) = parseArg arg.
Proof.
  unfold parseArg at 2 3. destruct (String.prefix "#" arg) eqn:H; unfold parseArg.
  - unfold doubleQuote. rewrite append_cons.
    rewrite (prefix_first_differs "#" (ascii_of_nat 34)) by discriminate. reflexivity.
  - rewrite H. reflexivity.
Qed.

(** X20: arguments in the terminal.  [runTerminalCommand] sends one line to
    the terminal: the command with as many arguments as it was given, where
    an argument that starts with [#] stands between double quotes and every
    other argument stands as it is.  An argument already treated is not
    treated again, so running a command on treated arguments is running it on
    the originals.  A change (unknown) is recorded exactly for a repository
    that does not support change events. *)
Theorem terminal_arguments_are_quoted_once (command : string) (args : list string)
    (R : RepositoryObject) :
  (exists sent,
     terminal (runTerminalCommand command args R)
     = terminal R ++ [(command, String.concat " " sent)] /\
     length sent = length args /\
     forall i arg, args !! i = Some arg ->
       sent !! i = Some (if String.prefix "#" arg
                         then (doubleQuote ++ arg ++ doubleQuote)%string
                         else arg)) /\
  runTerminalCommand command (map parseArg args) R = runTerminalCommand command args R /\
  pendingChanges (core (runTerminalCommand command args R))
  = (if supportsChangeEvents (core R) then pendingChanges (core R)
     else pushChange (pendingChanges (core R)) Unknown).
Proof.
  split; [| split].
  - exists (map parseArg args). split; [| split].
    + unfold runTerminalCommand, onCore.
      destruct R as [c i ix cl n w cr ds dp st tm]. cbn.
      destruct (supportsChangeEvents c); reflexivity.
    + apply length_map.
    + intros i arg Hi.
      change (map parseArg args) with (parseArg <$> args).
      rewrite list_lookup_fmap, Hi. reflexivity.
  - unfold runTerminalCommand. rewrite map_map.
    rewrite (map_ext _ parseArg parseArg_idempotent). reflexivity.
  - unfold runTerminalCommand, onCore.
    destruct R as [c i ix cl n w cr ds dp st tm]. cbn.
    destruct (supportsChangeEvents c); cbn; [reflexivity |].
    unfold pendingChanges at 1. rewrite fireChange_pending. reflexivity.
Qed.

(** ** More of the delegated operations *)

(** X21: [pull] without the progress notification never rebases.  With
    [progress: false] the source calls [pullCore()] without the options, so
    what [pull] does is decided by the current branch, by the host command
    [git.pull], by the setting [git.fetchOnPull] and by the fetch delegate:
    neither the [rebase] option nor the host command [git.pullRebase] has
    any influence. *)
Theorem pull_without_progress_never_rebases (D D' : Delegates) (rebase rebase' : bool)
    (r : Repository) :
  git_getBranch D = git_getBranch D' ->
  executeCommand D "git.pull" = executeCommand D' "git.pull" ->
  fetchOnPull D = fetchOnPull D' ->
  git_fetch D = git_fetch D' ->
  pull D (Some false) rebase r = pull D' (Some false) rebase' r.
Proof.
  intros Hb Hc Hf Hg.
  unfold pull, pullCore, try_catch, pullSteps, hasTrackingBranch, getCurrentBranch,
    bind, ret, await, exec.
  cbn. rewrite Hb, Hc, Hf, Hg. reflexivity.
Qed.

(** X22: [push] of a reference when the built-in git extension has no
    repository for the path does nothing at all: the operation resolves, and
    no change is recorded, no error logged, no message shown and nothing
    cached. *)
Theorem push_without_builtin_repository_does_nothing (D : Delegates)
    (progress : option bool) (options : PushOptions) (rf : GitReference) (r : Repository) :
  reference options = Some rf ->
  getBuiltInGitRepository D = Resolved None ->
  push D progress options r = (Resolved tt, r).
Proof.
  intros Hr Hb.
  assert (Hpush : push D progress options = pushCore D options)
    by (unfold push, withProgress; destruct (negb _); reflexivity).
  rewrite Hpush.
  unfold pushCore, try_catch, pushBody, pushSteps, bind, ret, await. rewrite Hr.
  destruct (isBranch rf); rewrite Hb; reflexivity.
Qed.

Lemma onRepositoryChanged_HEAD_branch (r : Repository) (uri : Uri.t) :
  isSuffix ".git/HEAD" (Uri.path uri) -> _branch (onRepositoryChanged (Some uri) r) = None.
Proof.
  intros H. apply endsWith_spec in H.
  assert (Hex : forall b, endsWith ".git/HEAD" b = false -> endsWith b ".git/HEAD" = false ->
            endsWith (Uri.path uri) b = false).
  { intros b H1 H2. apply (suffixes_exclusive ".git/HEAD" b); assumption. }
  unfold onRepositoryChanged.
  rewrite (Hex ".git/config"), (Hex ".git/index") by reflexivity. rewrite H. cbn [orb].
  destruct (fireChange_caches [Heads] (set_branch None (set_lastFetched None r))) as [-> _].
  reflexivity.
Qed.

(** X23: the cache of the current branch.  On a repository that supports
    change events, [getBranch()] asks git once: a second call gives the
    promise of the first, rejected or not, whatever git would answer now, and
    changes nothing.  After a change of [.git/HEAD] the next call asks git
    again.  On a repository that does not support change events every call
    asks git. *)
Theorem current_branch_is_cached (D D' : Delegates) (r : Repository) (uri : Uri.t) :
  (supportsChangeEvents r = true ->
   getCurrentBranch D' (snd (getCurrentBranch D r)) = getCurrentBranch D r) /\
  (isSuffix ".git/HEAD" (Uri.path uri) ->
   fst (getCurrentBranch D'
          (onRepositoryChanged (Some uri) (snd (getCurrentBranch D r))))
   = git_getBranch D') /\
  (supportsChangeEvents r = false -> fst (getCurrentBranch D' r) = git_getBranch D').
Proof.
  split; [| split].
  - intros Hs. unfold getCurrentBranch. fields r. subst sup.
    destruct br as [b |]; reflexivity.
  - intros Hh.
    unfold getCurrentBranch at 1.
    rewrite (onRepositoryChanged_HEAD_branch _ uri Hh). reflexivity.
  - intros Hs. unfold getCurrentBranch. fields r. subst sup.
    destruct br as [b |]; reflexivity.
Qed.

(** ** The properties above on concrete inputs *)

Lemma no_change_is_lost_witness :
  let keep := fun (_ : string) (us : list Uri.t) => us in
  let trace := [FireChange [Index]; Elapse 250; Suspend; FireChange [Tags; Index]] in
  let r := run keep trace (new_Repository 0 "/repo" true false) in
  Tags ∈ recorded r /\ (Tags ∈ publishedChanges r \/ Tags ∈ pendingChanges r).
Proof.
  intros keep trace r.
  assert (H : Tags ∈ recorded r) by (vm_compute; repeat constructor).
  split; [exact H |].
  exact (no_change_is_lost keep trace 0 "/repo" true false Tags H).
Defined.

Lemma events_never_repeat_a_change_witness :
  let keep := fun (_ : string) (us : list Uri.t) => us in
  let trace := [FireChange [Index; Index]; FireChange [Tags; Index]; Elapse 250] in
  let r := run keep trace (new_Repository 0 "/repo" true false) in
  mkChangeEvent [Index; Tags] ∈ _onDidChange r /\ NoDup [Index; Tags].
Proof.
  intros keep trace r.
  assert (H : mkChangeEvent [Index; Tags] ∈ _onDidChange r)
    by (vm_compute; apply list_elem_of_here).
  split; [exact H |].
  exact (proj2 (events_never_repeat_a_change keep trace 0 "/repo" true false) _ H).
Defined.

Lemma pending_event_is_flushed_within_one_window_witness :
  let keep := fun (p : string) (us : list Uri.t) =>
                filter (fun u => negb (endsWith (Uri.path u) ".log")) us in
  let a := Uri.mk "/repo/a.ts" "/repo/a.ts" in
  let b := Uri.mk "/repo/b.log" "/repo/b.log" in
  let trace := [FireChange [Index]; FileSystemChanged a; Elapse 100;
                FireChange [Tags]; FileSystemChanged b] in
  let r := run keep trace (new_Repository 0 "/repo" true false) in
  (_suspended r = false /\
   _pendingRepoChange r = Some (mkChangeEvent [Index; Tags]) /\
   _pendingFileSystemChange r = Some (mkFsEvent [a; b]) /\
   250 <= 2500 /\ 2500 <= 2500) /\
  (_onDidChange (elapse 2500 r) = _onDidChange r ++ [mkChangeEvent [Index; Tags]] /\
   _pendingRepoChange (elapse 2500 r) = None) /\
  _pendingFileSystemChange (elapse 2500 r) = None /\
  excludeIgnoredUris_calls (elapse 2500 r) = [(mkFsEvent [a; b], false)] /\
  _onDidChangeFileSystem (elapse 2500 r) = [] /\
  _onDidChangeFileSystem (excludeIgnoredUris_settled keep 0 true (elapse 2500 r))
  = [mkFsEvent [a]] /\
  _onDidChangeFileSystem (excludeIgnoredUris_settled keep 0 false (elapse 2500 r)) = [].
Proof.
  intros keep a b trace r.
  assert (Hs : _suspended r = false) by (vm_compute; reflexivity).
  assert (Hp : _pendingRepoChange r = Some (mkChangeEvent [Index; Tags]))
    by (vm_compute; reflexivity).
  assert (Hf : _pendingFileSystemChange r = Some (mkFsEvent [a; b]))
    by (vm_compute; reflexivity).
  assert (Hd : 250 <= 2500) by lia.
  assert (Hd' : 2500 <= 2500) by lia.
  split; [exact (conj Hs (conj Hp (conj Hf (conj Hd Hd')))) |].
  destruct (pending_event_is_flushed_within_one_window keep trace 0 "/repo" true false Hs)
    as [Hchange Hfs].
  split; [exact (Hchange _ 2500 Hp Hd) |].
  exact (Hfs _ 2500 Hf Hd').
Defined.

Lemma changed_when_supported_witness :
  let e := mkChangeEvent [Index; Heads] in
  Some true <> Some false /\
  (changed (Some true) e Heads false = true <-> Heads ∈ changes e) /\
  (changed (Some true) e Heads true = true <-> changes e = [Heads]).
Proof.
  intros e.
  assert (H : Some true <> Some false) by discriminate.
  split; [exact H |].
  exact (changed_when_supported (Some true) e Heads H).
Defined.

Lemma changed_only_implies_changed_witness :
  let e := mkChangeEvent [Unknown] in
  changed (Some false) e Heads true = true /\
  (changed (Some false) e Heads false = true \/
   (Some false = Some false /\ changes e = [Unknown] /\ Heads = Ignores)).
Proof.
  intros e.
  assert (H : changed (Some false) e Heads true = true) by reflexivity.
  split; [exact H |].
  exact (proj1 (changed_only_implies_changed (Some false) e Heads) H).
Defined.

Lemma getLastFetched_settles_witness :
  let r := new_Repository 0 "/repo" true false in
  let stat := Resolved (mkFileStat 120 77) in
  getLastFetched (await (Resolved true)) false stat r
  = (Resolved 77, set_lastFetched (Some 77) r) /\
  ((exists ex, Resolved 77 = Rejected ex /\ _lastFetched r = None /\
      await (Resolved true) r = (Rejected ex, set_lastFetched (Some 77) r)) \/
   (exists t, Resolved 77 = Resolved t /\
      (t = 0 \/ _lastFetched (set_lastFetched (Some 77) r) = Some t))).
Proof.
  intros r stat.
  assert (H : getLastFetched (await (Resolved true)) false stat r
              = (Resolved 77, set_lastFetched (Some 77) r)) by reflexivity.
  split; [exact H |].
  exact (getLastFetched_settles (await (Resolved true)) false stat r _ _ H).
Defined.

Lemma getLastFetched_stat_edge_cases_witness :
  let r := set_lastFetched (Some 5) (new_Repository 0 "/repo" true false) in
  let empty := mkFileStat 0 99 in
  _lastFetched r = Some 5 /\
  (size empty <= 0)%Z /\
  getLastFetched (await (Resolved true)) false (Rejected "ENOENT") r
  = (Resolved 0, set_lastFetched None r) /\
  getLastFetched (await (Resolved true)) false (Resolved empty) r = (Resolved 5, r).
Proof.
  intros r empty.
  assert (H : _lastFetched r = Some 5) by reflexivity.
  assert (Hsize : (size empty <= 0)%Z) by (cbn; lia).
  pose proof (getLastFetched_stat_edge_cases (await (Resolved true)) false r 5 H) as [Hf He].
  split; [exact H |]. split; [exact Hsize |].
  split; [exact (Hf "ENOENT") | exact (He empty Hsize)].
Defined.

Lemma getLastFetched_after_change_witness :
  let hasRemotes : Async bool :=
    fun r => (Resolved true, set_remotes (Some ["origin"]) r) in
  let config := Uri.mk "/repo/.git/config" "/repo/.git/config" in
  let r0 := onRepositoryChanged (Some config)
              (set_lastFetched (Some 5) (new_Repository 0 "/repo" true false)) in
  let st := mkFileStat 120 77 in
  (hasRemotes r0 = (Resolved true, set_remotes (Some ["origin"]) r0) /\
   false = false /\ Resolved st = Resolved st /\ (0 < size st)%Z) /\
  getLastFetched hasRemotes false (Resolved st) r0
  = (Resolved 77, set_lastFetched (Some 77) (set_remotes (Some ["origin"]) r0)).
Proof.
  intros hasRemotes config r0 st.
  assert (Hhas : hasRemotes r0 = (Resolved true, set_remotes (Some ["origin"]) r0))
    by reflexivity.
  assert (Hsize : (0 < size st)%Z) by (cbn; lia).
  split; [exact (conj Hhas (conj eq_refl (conj eq_refl Hsize))) |].
  exact (proj2 (proj2 (proj2
           (getLastFetched_after_change (Some config) hasRemotes false (Resolved st)
              (set_lastFetched (Some 5) (new_Repository 0 "/repo" true false)))))
           st _ Hhas eq_refl eq_refl Hsize).
Defined.

Lemma Repository_sort_sorted_witness :
  let state := mkMemento None (Some {[ "b" := true ]}) in
  let a := new_RepositoryObject 0 "/a" "a" 0 true false false state in
  let b := new_RepositoryObject 0 "/b" "b" 1 true false false state in
  let c := new_RepositoryObject 0 "/c" "c" 2 true false false state in
  Repository_sort [c; a; b] !! 0%nat = Some b /\
  Repository_sort [c; a; b] !! 1%nat = Some a /\
  (0 < 1)%nat /\
  (starred a = true -> starred b = true) /\
  (starred b = starred a -> (index b <= index a)%Z).
Proof.
  intros state a b c.
  assert (H0 : Repository_sort [c; a; b] !! 0%nat = Some b) by (vm_compute; reflexivity).
  assert (H1 : Repository_sort [c; a; b] !! 1%nat = Some a) by (vm_compute; reflexivity).
  assert (Hlt : (0 < 1)%nat) by lia.
  split; [exact H0 |]. split; [exact H1 |]. split; [exact Hlt |].
  exact (proj2 (proj2 (Repository_sort_sorted [c; a; b])) 0%nat 1%nat b a H0 H1 Hlt).
Defined.

Lemma star_unstar_toggle_witness :
  let state := mkMemento None (Some {[ "other" := true ]}) in
  let R := new_RepositoryObject 0 "/repo" "repo" 0 true false false state in
  "other" <> id R /\
  default ∅ (starredRepositories (workspaceState (updateStarred true None R))) !! "other"
  = default ∅ (starredRepositories (workspaceState R)) !! "other".
Proof.
  intros state R.
  assert (H : "other" <> id R) by discriminate.
  split; [exact H |].
  exact (proj1 (proj2 (proj2 (star_unstar_toggle R (mkBranch "main" "main" None) "other")))
           H true).
Defined.

Lemma unstar_after_star_witness :
  let m : gmap string bool := {[ "other" := true ]} in
  let R := new_RepositoryObject 0 "/repo" "repo" 0 true false false
             (mkMemento None (Some m)) in
  starredRepositories (workspaceState R) = Some m /\
  m !! id R = None /\
  workspaceState (unstar None (star None R)) = workspaceState R.
Proof.
  intros m R.
  assert (Hm : starredRepositories (workspaceState R) = Some m) by reflexivity.
  assert (Hn : m !! id R = None) by (vm_compute; reflexivity).
  split; [exact Hm |]. split; [exact Hn |].
  exact (proj1 (proj2 (unstar_after_star R)) m Hm Hn).
Defined.

Lemma set_closed_records_real_changes_witness :
  let R := new_RepositoryObject 0 "/repo" "repo" 0 true false false (mkMemento None None) in
  true <> _closed R /\
  _closed (set_closed true R) = true /\
  pendingChanges (core (set_closed true R)) = pushChange (pendingChanges (core R)) Closed /\
  onAnyRepositoryChanged (core (set_closed true R))
  = onAnyRepositoryChanged (core R) ++ [mkChangeEvent [Closed]].
Proof.
  intros R.
  assert (H : true <> _closed R) by discriminate.
  split; [exact H |].
  exact (proj1 (proj2 (set_closed_records_real_changes true R)) H).
Defined.

Lemma filesystem_watch_is_counted_witness :
  let R := watchRun [StartWatching; StopWatching; StartWatching; StartWatching]
             (new_RepositoryObject 0 "/repo" "repo" 0 true false false
                (mkMemento None None)) in
  (0 < fsWatchersCreated R)%nat /\
  ((0%nat ∈ fsWatchersDisposed R /\ _fsWatcherDisposable R <> Some 0%nat) \/
   (~ 0%nat ∈ fsWatchersDisposed R /\ _fsWatcherDisposable R = Some 0%nat)).
Proof.
  intros R.
  assert (H : (0 < fsWatchersCreated R)%nat) by (vm_compute; lia).
  split; [exact H |].
  exact (proj2 (proj2 (proj2
           (filesystem_watch_is_counted
              [StartWatching; StopWatching; StartWatching; StartWatching]
              0 "/repo" "repo" 0 true false false (mkMemento None None)))) 0%nat H).
Defined.

Lemma filesystem_watch_stops_with_last_subscription_witness :
  let watching := times 3 startWatchingFileSystem
                    (new_RepositoryObject 0 "/repo" "repo" 0 true false false
                       (mkMemento None None)) in
  (2 <= 2)%nat /\ (1 <= 2)%nat /\
  (_fsWatcherDisposable (times 2 stopWatchingFileSystem watching) = Some 0%nat /\
   fsWatchersDisposed (times 2 stopWatchingFileSystem watching) = []) /\
  _fsWatcherDisposable (dispose watching) = Some 0%nat.
Proof.
  intros watching.
  assert (Hk : (2 <= 2)%nat) by lia.
  assert (Hn : (1 <= 2)%nat) by lia.
  pose proof (filesystem_watch_stops_with_last_subscription 2 2 0 "/repo" "repo" 0
                true false false (mkMemento None None)) as (_ & Hstop & _ & Hdispose).
  split; [exact Hk |]. split; [exact Hn |].
  split; [exact (Hstop Hk) | exact (Hdispose Hn)].
Defined.

Lemma exact_file_rules_by_suffix_witness :
  let uri := Uri.mk "/repo/.git/index" "/repo/.git/index" in
  let r := fresh_repository in
  let r' := onRepositoryChanged (Some uri) r in
  isSuffix ".git/index" (Uri.path uri) /\
  (onAnyRepositoryChanged r' = onAnyRepositoryChanged r ++ [mkChangeEvent [Index]] /\
   pendingChanges r' = fold_left pushChange [Index] (pendingChanges r) /\
   _remotes r' = _remotes r) /\
  _branch r' = _branch r.
Proof.
  intros uri r r'.
  assert (H : isSuffix ".git/index" (Uri.path uri)) by (exists "/repo/"; reflexivity).
  split; [exact H |].
  exact (proj1 (exact_file_rules_by_suffix r uri) H).
Defined.

Lemma filesystem_filter_drops_dot_git_witness :
  let u := Uri.mk "/repo/.git/index" "/repo/.git/index" in
  insideDotGit (Uri.fsPath u) /\ onFileSystemChanged u fresh_repository = fresh_repository.
Proof.
  intros u.
  assert (H : insideDotGit (Uri.fsPath u)).
  { exists "/repo/", "/index". split; [reflexivity |].
    right. exists "/"%char, "index". split; [reflexivity | left; reflexivity]. }
  split; [exact H |].
  exact (proj1 (proj2 (filesystem_filter_drops_dot_git u fresh_repository)) H).
Defined.

Lemma refs_rule_applies_witness :
  let uri := Uri.mk "/repo/.git/refs/tags/v1" "/repo/.git/refs/tags/v1" in
  let r := fresh_repository in
  exactFileRule (Uri.path uri) = false /\
  refsRegex_exec (Uri.path uri) = Some "tags" /\
  onAnyRepositoryChanged (onRepositoryChanged (Some uri) r)
  = onAnyRepositoryChanged r ++ [mkChangeEvent [Tags]] /\
  _branch (onRepositoryChanged (Some uri) r) = _branch r /\
  _remotes (onRepositoryChanged (Some uri) r) = _remotes r.
Proof.
  intros uri r.
  assert (He : exactFileRule (Uri.path uri) = false) by (vm_compute; reflexivity).
  assert (Hr : refsRegex_exec (Uri.path uri) = Some "tags") by (vm_compute; reflexivity).
  split; [exact He |]. split; [exact Hr |].
  exact (proj2 (proj2 (refs_rule_applies r uri)) He Hr).
Defined.

Lemma terminal_arguments_are_quoted_once_witness :
  let R := new_RepositoryObject 0 "/repo" "repo" 0 true false false (mkMemento None None) in
  let args := ["--contains"; "#123"; "x#y"] in
  (args !! 1%nat = Some "#123" /\ args !! 2%nat = Some "x#y") /\
  exists sent,
    terminal (runTerminalCommand "branch" args R)
    = terminal R ++ [("branch", String.concat " " sent)] /\
    length sent = 3%nat /\
    sent !! 1%nat = Some (doubleQuote ++ "#123" ++ doubleQuote)%string /\
    sent !! 2%nat = Some "x#y".
Proof.
  intros R args.
  assert (H1 : args !! 1%nat = Some "#123") by reflexivity.
  assert (H2 : args !! 2%nat = Some "x#y") by reflexivity.
  split; [split; assumption |].
  destruct (proj1 (terminal_arguments_are_quoted_once "branch" args R))
    as (sent & Hline & Hlen & Hsent).
  exists sent. split; [exact Hline |]. split; [exact Hlen |].
  split; [exact (Hsent 1%nat "#123" H1) | exact (Hsent 2%nat "x#y" H2)].
Defined.

Lemma pull_without_progress_never_rebases_witness :
  let main := mkBranch "main" "main" (Some "origin/main") in
  let commands := fun rebaseAnswer (command : string) =>
                    if String.eqb command "git.pullRebase" then rebaseAnswer
                    else Resolved tt in
  let delegates := fun rebaseAnswer =>
                     mkDelegates (Resolved tt) (Resolved tt) (Resolved (Some main))
                       (fun _ => Resolved []) (Resolved tt) (Resolved tt) (Resolved tt)
                       (Resolved None) (Resolved tt) (commands rebaseAnswer) true in
  let D := delegates (Rejected "rebase failed") in
  let D' := delegates (Resolved tt) in
  git_getBranch D = git_getBranch D' /\
  executeCommand D "git.pull" = executeCommand D' "git.pull" /\
  fetchOnPull D = fetchOnPull D' /\
  git_fetch D = git_fetch D' /\
  pull D (Some false) true fresh_repository = pull D' (Some false) false fresh_repository.
Proof.
  intros main commands delegates D D'.
  assert (Hb : git_getBranch D = git_getBranch D') by reflexivity.
  assert (Hc : executeCommand D "git.pull" = executeCommand D' "git.pull") by reflexivity.
  assert (Hf : fetchOnPull D = fetchOnPull D') by reflexivity.
  assert (Hg : git_fetch D = git_fetch D') by reflexivity.
  split; [exact Hb |]. split; [exact Hc |]. split; [exact Hf |]. split; [exact Hg |].
  exact (pull_without_progress_never_rebases D D' true false fresh_repository Hb Hc Hf Hg).
Defined.

Lemma push_without_builtin_repository_does_nothing_witness :
  let D := mkDelegates (Resolved tt) (Resolved tt) (Resolved None)
             (fun _ => Resolved []) (Resolved tt) (Resolved tt) (Resolved tt)
             (Resolved None) (Resolved tt) (fun _ => Resolved tt) false in
  let rf := mkReference true "main" "main" in
  let options := mkPushOptions false (Some rf) None in
  reference options = Some rf /\
  getBuiltInGitRepository D = Resolved None /\
  push D (Some true) options fresh_repository = (Resolved tt, fresh_repository).
Proof.
  intros D rf options.
  assert (Hr : reference options = Some rf) by reflexivity.
  assert (Hb : getBuiltInGitRepository D = Resolved None) by reflexivity.
  split; [exact Hr |]. split; [exact Hb |].
  exact (push_without_builtin_repository_does_nothing D (Some true) options rf
           fresh_repository Hr Hb).
Defined.

Lemma current_branch_is_cached_witness :
  let main := mkBranch "main" "main" None in
  let D := mkDelegates (Resolved tt) (Resolved tt) (Resolved (Some main))
             (fun _ => Resolved []) (Resolved tt) (Resolved tt) (Resolved tt)
             (Resolved None) (Resolved tt) (fun _ => Resolved tt) false in
  let uri := Uri.mk "/repo/.git/HEAD" "/repo/.git/HEAD" in
  supportsChangeEvents fresh_repository = true /\
  isSuffix ".git/HEAD" (Uri.path uri) /\
  getCurrentBranch failing_delegates (snd (getCurrentBranch D fresh_repository))
  = getCurrentBranch D fresh_repository /\
  fst (getCurrentBranch failing_delegates
         (onRepositoryChanged (Some uri) (snd (getCurrentBranch D fresh_repository))))
  = git_getBranch failing_delegates.
Proof.
  intros main D uri.
  assert (Hs : supportsChangeEvents fresh_repository = true) by reflexivity.
  assert (Hh : isSuffix ".git/HEAD" (Uri.path uri)) by (exists "/repo/"; reflexivity).
  pose proof (current_branch_is_cached D failing_delegates fresh_repository uri)
    as (Hcache & Hhead & _).
  split; [exact Hs |]. split; [exact Hh |].
  split; [exact (Hcache Hs) | exact (Hhead Hh)].
Defined.
